(** * RTCP feedback packets: the compact bitrate codec and the REMB, TMMBR
      and TMMBN marshal/unmarshal routines

    A shallow embedding of [putBitrate], [loadBitrate], [bitrateUnit], of the
    bit and padding utilities that stand beside them, and of the [Marshal],
    [MarshalTo], [Unmarshal], [MarshalSize], [Header] and [DestinationSSRC]
    methods of [ReceiverEstimatedMaximumBitrate], [TMMBR] and [TMMBN].

    - Fixed-width unsigned integers are [Z] with the wrap-around written out
      ([wrap8], [wrap16], [wrap32]); Go [int] values that are lengths or
      indices are [nat].
    - [float32] is the Standard Library's specification of IEEE-754
      arithmetic ([spec_float]) at precision 24 and maximal exponent 128.
    - A byte slice that is only read is a [list Z]; a byte slice that is
      written is a window ([slice]) on a backing array that is threaded
      through the computation, so that writes through sub-slices land in the
      array the caller sees.
    - A Go function that returns an [error] returns [Err]; an index or slice
      expression out of range is [Panic]. *)

From Stdlib Require Import ZArith Lia List Bool String.
From Stdlib Require Import Floats.SpecFloat.
From stdpp Require Import base list.

Local Open Scope Z_scope.

(** ** Machine integers *)

Definition wrap8 (x : Z) : Z := x mod 2 ^ 8.
Definition wrap16 (x : Z) : Z := x mod 2 ^ 16.
Definition wrap32 (x : Z) : Z := x mod 2 ^ 32.

(** The conversion [byte(x)]. *)
Definition byte (x : Z) : Z := wrap8 x.

Definition is_byte (x : Z) : Prop := 0 <= x < 2 ^ 8.
Definition is_uint32 (x : Z) : Prop := 0 <= x < 2 ^ 32.

(** ** Single-precision floating point *)

Definition float32 : Type := spec_float.

(** A [spec_float] is a [float32] value when its mantissa and exponent are
    the canonical ones of binary32. *)
Definition f32_valid (x : float32) : bool := valid_binary 24 128 x.

Definition f32_div (x y : float32) : float32 := SFdiv 24 128 x y.
(** [x >= y], false when either side is NaN *)
Definition f32_ge (x y : float32) : bool := SFleb y x.
Definition f32_le (x y : float32) : bool := SFleb x y.
Definition f32_lt (x y : float32) : bool := SFltb x y.

(** The float32 value of the constant [m * 2^e]. *)
Definition f32_const (m e : Z) : float32 := binary_normalize 24 128 m e false.

Definition f32_0 : float32 := Eval vm_compute in f32_const 0 0.
Definition f32_1 : float32 := Eval vm_compute in f32_const 1 0.
Definition f32_2 : float32 := Eval vm_compute in f32_const 2 0.
Definition f32_1000 : float32 := Eval vm_compute in f32_const 1000 0.
(** [1 << 18] *)
Definition f32_2p18 : float32 := Eval vm_compute in f32_const 1 18.
(** [const bitratemax = 0x3FFFFp+63] *)
Definition bitratemax : float32 := Eval vm_compute in f32_const 0x3FFFF 63.

(** [math.Float32frombits] *)
Definition Float32frombits (bits : Z) : float32 :=
  let sign := Z.testbit bits 31 in
  let e := Z.land (Z.shiftr bits 23) 255 in
  let frac := Z.land bits 0x7FFFFF in
  if e =? 0 then
    match frac with
    | Zpos m => S754_finite sign m (-149)
    | _ => S754_zero sign
    end
  else if e =? 255 then
    if frac =? 0 then S754_infinity sign else S754_nan
  else
    match frac + 2 ^ 23 with
    | Zpos m => S754_finite sign m (e - 150)
    | _ => S754_nan
    end.

(** The exact value of a finite float32 in units of [2^-149], the spacing of
    the subnormal numbers: every finite float32 is an integer multiple of
    it. Infinities and NaN have no value; they are given 0 here and are
    excluded wherever the value is used. *)
Definition f32_units (x : float32) : Z :=
  match x with
  | S754_finite s m e => (if s then -1 else 1) * (Zpos m * 2 ^ (e + 149))
  | _ => 0
  end.

(** ** Outcomes of a call *)

Inductive Error : Type :=
| errPacketTooShort
| errBadVersion
| errWrongPadding
| errWrongFeedbackType
| errWrongPayloadType
| errHeaderTooSmall
| errSSRCMustBeZero
| errMissingREMBidentifier
| errSSRCNumAndLengthMismatch
| errBadLength
| errWrongType
| errInvalidBitrate
| errWrongMarshalSize
| errInvalidSizeOrStartIndex.

Inductive result (A : Type) : Type :=
| Ok (a : A)        (* the call returned, with a nil error when it has one *)
| Err (e : Error)   (* the call returned this error *)
| Panic             (* run-time panic: index or slice bounds out of range *)
| OutOfFuel.        (* the bound the model puts on a loop was reached *)
Arguments Ok {A} a.
Arguments Err {A} e.
Arguments Panic {A}.
Arguments OutOfFuel {A}.

(** A computation over a mutable state [S]: the backing array of the slice
    being written, or the receiver of [Unmarshal]. The state is returned in
    every case: what was written before an error or a panic stays written. *)
Definition M (S A : Type) : Type := S -> result A * S.

Definition ret {S A} (a : A) : M S A := fun s => (Ok a, s).
Definition fail {S A} (e : Error) : M S A := fun s => (Err e, s).
Definition bind {S A B} (m : M S A) (k : A -> M S B) : M S B :=
  fun s =>
    match m s with
    | (Ok a, s') => k a s'
    | (Err e, s') => (Err e, s')
    | (Panic, s') => (Panic, s')
    | (OutOfFuel, s') => (OutOfFuel, s')
    end.
Definition lift {S A} (r : result A) : M S A := fun s => (r, s).
Definition modify {S} (f : S -> S) : M S unit := fun s => (Ok tt, f s).
Definition get {S} : M S S := fun s => (Ok s, s).

Notation "'do' x <- m ; k" := (bind m (fun x => k))
  (at level 10, x name, m at level 100, k at level 200).
Notation "'do' '_' <- m ; k" := (bind m (fun _ => k))
  (at level 10, m at level 100, k at level 200).

(** ** Byte slices that are read *)

(** [b[i]] *)
Definition index (b : list Z) (i : nat) : result Z :=
  match b !! i with
  | Some x => Ok x
  | None => Panic
  end.

(** [b[lo:hi]] *)
Definition sub (b : list Z) (lo hi : nat) : result (list Z) :=
  if ((lo <=? hi) && (hi <=? length b))%nat
  then Ok (take (hi - lo) (drop lo b))
  else Panic.

(** [b[lo:]] *)
Definition from (b : list Z) (lo : nat) : result (list Z) :=
  sub b lo (length b).

(** [binary.BigEndian.Uint16], with its early bounds check [_ = b[1]] *)
Definition Uint16 (b : list Z) : result Z :=
  match b with
  | b0 :: b1 :: _ => Ok (Z.lor b1 (Z.shiftl b0 8))
  | _ => Panic
  end.

(** [binary.BigEndian.Uint32], with its early bounds check [_ = b[3]] *)
Definition Uint32 (b : list Z) : result Z :=
  match b with
  | b0 :: b1 :: b2 :: b3 :: _ =>
      Ok (Z.lor (Z.lor (Z.lor b3 (Z.shiftl b2 8)) (Z.shiftl b1 16)) (Z.shiftl b0 24))
  | _ => Panic
  end.

(** ** Byte slices that are written *)

Abbreviation store := (list Z).

(** A window of [s_len] bytes starting at [s_off] in the backing array. *)
Record slice : Type := Slice { s_off : nat; s_len : nat }.

(** [make([]byte, n)]: a zeroed array and the slice that covers it *)
Definition make (n : nat) : store * slice := (replicate n 0, Slice 0 n).

(** [b[i] = v]. The second test never fails for a slice obtained from
    [make] by [ssub] and [sfrom]; it keeps a write outside the array from
    passing silently. *)
Definition put (b : slice) (i : nat) (v : Z) : M store unit :=
  fun st =>
    if ((i <? s_len b) && (s_off b + i <? length st))%nat
    then (Ok tt, <[(s_off b + i)%nat := v]> st)
    else (Panic, st).

(** [b[lo:hi]] *)
Definition ssub {S} (b : slice) (lo hi : nat) : M S slice :=
  if ((lo <=? hi) && (hi <=? s_len b))%nat
  then ret (Slice (s_off b + lo) (hi - lo))
  else lift Panic.

(** [b[lo:]] *)
Definition sfrom {S} (b : slice) (lo : nat) : M S slice := ssub b lo (s_len b).

(** [binary.BigEndian.PutUint16] *)
Definition PutUint16 (b : slice) (v : Z) : M store unit :=
  if (1 <? s_len b)%nat then
    do _ <- put b 0 (byte (Z.shiftr v 8));
    put b 1 (byte v)
  else lift Panic.

(** [binary.BigEndian.PutUint32] *)
Definition PutUint32 (b : slice) (v : Z) : M store unit :=
  if (3 <? s_len b)%nat then
    do _ <- put b 0 (byte (Z.shiftr v 24));
    do _ <- put b 1 (byte (Z.shiftr v 16));
    do _ <- put b 2 (byte (Z.shiftr v 8));
    put b 3 (byte v)
  else lift Panic.

(** [copy(dst, src)]: copies [min(len(dst), len(src))] bytes *)
Fixpoint copy_from (dst : slice) (i : nat) (src : list Z) : M store unit :=
  match src with
  | [] => ret tt
  | x :: src' =>
      if (i <? s_len dst)%nat then
        do _ <- put dst i x;
        copy_from dst (S i) src'
      else ret tt
  end.
Definition copy (dst : slice) (src : list Z) : M store unit := copy_from dst 0 src.

(** ** The compact bitrate codec *)

(** [for bitrate >= (1 << 18) { bitrate /= 2.0; exp++ }]. [None] when the
    loop is still running after [fuel] iterations. *)
Fixpoint putBitrate_loop (fuel : nat) (bitrate : float32) (exp : Z)
  : option (float32 * Z) :=
  if f32_ge bitrate f32_2p18 then
    match fuel with
    | O => None
    | S fuel' => putBitrate_loop fuel' (f32_div bitrate f32_2) (exp + 1)
    end
  else Some (bitrate, exp).

(** [for (mantissa & (mantissamax + 1)) == 0 { exp--; mantissa *= 2 }], on a
    [byte] and a [uint32]. *)
Definition mantissamax : Z := 0x7FFFFF.

Fixpoint loadBitrate_loop (fuel : nat) (exp mantissa : Z) : option (Z * Z) :=
  if Z.land mantissa (mantissamax + 1) =? 0 then
    match fuel with
    | O => None
    | S fuel' => loadBitrate_loop fuel' (wrap8 (exp - 1)) (wrap32 (mantissa * 2))
    end
  else Some (exp, mantissa).

Definition loadBitrate (buf : list Z) : result float32 :=
  match index buf 0, index buf 1, index buf 2 with
  | Ok b0, Ok b1, Ok b2 =>
      let exp := Z.shiftr b0 2 in
      let exp := wrap8 (exp + 127) in
      let exp := wrap8 (exp + 23) in
      let mantissa :=
        Z.lor (Z.lor (Z.shiftl (Z.land b0 3) 16) (Z.shiftl b1 8)) b2 in
      let normalized :=
        if negb (mantissa =? 0) then loadBitrate_loop 32 exp mantissa
        else Some (exp, mantissa) in
      match normalized with
      | None => OutOfFuel
      | Some (exp, mantissa) =>
          Ok (Float32frombits
                (Z.lor (Z.shiftl exp 23) (Z.land mantissa mantissamax)))
      end
  | _, _, _ => Panic
  end.

Definition bitUnits : list string :=
  ["b"; "Kb"; "Mb"; "Gb"; "Tb"; "Pb"; "Eb"]%string.

(** [for bitrate >= 1000.0 && powers < len(bitUnits) { bitrate /= 1000.0; powers++ }] *)
Fixpoint bitrateUnit_loop (fuel : nat) (bitrate : float32) (powers : nat)
  : option (float32 * nat) :=
  if f32_ge bitrate f32_1000 && (powers <? length bitUnits)%nat then
    match fuel with
    | O => None
    | S fuel' => bitrateUnit_loop fuel' (f32_div bitrate f32_1000) (S powers)
    end
  else Some (bitrate, powers).

Definition bitrateUnit (bitrate : float32) : result string :=
  match bitrateUnit_loop 8 bitrate 0 with
  | None => OutOfFuel
  | Some (_, powers) =>
      match bitUnits !! powers with
      | Some unit => Ok unit
      | None => Panic
      end
  end.

(** ** Bit and padding utilities *)

(** [getPadding]. Go's [%] truncates toward zero, as [Z.rem] does. *)
Definition getPadding (packetLen : Z) : Z :=
  if Z.rem packetLen 4 =? 0 then 0 else 4 - Z.rem packetLen 4.

(** [setNBitsOfUint16]: every operand is a [uint16], so the sum in the test,
    the mask and the shift count all wrap at 16 bits. *)
Definition setNBitsOfUint16 (src size startIndex val : Z) : result Z :=
  if 16 <? wrap16 (startIndex + size) then Err errInvalidSizeOrStartIndex else
  let val := Z.land val (wrap16 (wrap16 (Z.shiftl 1 size) - 1)) in
  Ok (Z.lor src (wrap16 (Z.shiftl val (wrap16 (wrap16 (16 - size) - startIndex))))).

(** [appendNBitsToUint32], on [uint32] operands. *)
Definition appendNBitsToUint32 (src n val : Z) : Z :=
  Z.lor (wrap32 (Z.shiftl src n))
        (Z.land val (Z.shiftr 0xFFFFFFFF (wrap32 (32 - n)))).

(** [getNBitsFromByte]: [endShift] is a [uint16], the mask a [uint8]. *)
Definition getNBitsFromByte (b begin n : Z) : Z :=
  let endShift := wrap16 (8 - wrap16 (begin + n)) in
  let mask := Z.land (Z.shiftr 0xFF begin) (wrap8 (Z.shiftl 0xFF endShift)) in
  Z.shiftr (Z.land b mask) endShift.

(** [get24BitsFromBytes] *)
Definition get24BitsFromBytes (b : list Z) : result Z :=
  match index b 0, index b 1, index b 2 with
  | Ok b0, Ok b1, Ok b2 =>
      Ok (wrap32 (wrap32 (wrap32 (Z.shiftl b0 16) + wrap32 (Z.shiftl b1 8)) + b2))
  | _, _, _ => Panic
  end.

(** ** Packets *)

Record ReceiverEstimatedMaximumBitrate : Type := REMB {
  remb_SenderSSRC : Z;
  remb_Bitrate : float32;
  remb_SSRCs : list Z
}.

(** [TMMBNEntry] and [TMMBREntry]: the two declarations are the same. *)
Record TMMBEntry : Type := Entry {
  MediaSSRC : Z;
  Bitrate : float32
}.

(** [TMMBN] and [TMMBR]: the two declarations are the same, and so are their
    methods up to the format constant, which is a parameter below. *)
Record TMMB : Type := MkTMMB {
  SenderSSRC : Z;
  Entries : list TMMBEntry
}.

Record Header : Type := MkHeader {
  Padding : bool;
  Count : Z;
  Type_ : Z;
  Length : Z
}.

(** Modelled from the spec: the constants of the header codec, which is not
    among the source files. The header is a fixed 4-byte prefix and an SSRC
    takes 4 bytes; the formats are 15 (REMB), 3 (TMMBR) and 4 (TMMBN); the
    payload types are 206 (REMB) and 205 (TMMBR, TMMBN). *)
Definition headerLength : nat := 4.
Definition ssrcLength : nat := 4.
Definition FormatREMB : Z := 15.
Definition FormatTMMBR : Z := 3.
Definition FormatTMMBN : Z := 4.
Definition TypeTransportSpecificFeedback : Z := 205.
Definition TypePayloadSpecificFeedback : Z := 206.

(** Modelled from the spec: [Header.Marshal], which is not among the source
    files. It writes the 4-byte prefix: 2-bit version (2), 1-bit padding,
    5-bit format/count, 8-bit payload type, 16-bit big-endian length. *)
Definition Header_Marshal (h : Header) : result (list Z) :=
  Ok [ Z.lor (Z.lor (Z.shiftl 2 6) (if Padding h then Z.shiftl 1 5 else 0))
             (Z.land (Count h) 31);
       byte (Type_ h);
       byte (Z.shiftr (Length h) 8);
       byte (Length h) ].

(** Modelled from the spec: [Header.Unmarshal], which is not among the source
    files. It reads the 4-byte prefix and requires version 2. *)
Definition Header_Unmarshal (rawPacket : list Z) : result Header :=
  if (length rawPacket <? headerLength)%nat then Err errPacketTooShort else
  match index rawPacket 0, index rawPacket 1, from rawPacket 2 with
  | Ok b0, Ok b1, Ok rest =>
      if negb (Z.shiftr b0 6 =? 2) then Err errBadVersion else
      match Uint16 rest with
      | Ok len =>
          Ok {| Padding := negb (Z.land (Z.shiftr b0 5) 1 =? 0);
                Count := Z.land b0 31;
                Type_ := b1;
                Length := len |}
      | _ => Panic
      end
  | _, _, _ => Panic
  end.

(** ** Definitions the statements and proofs use *)

(** Big-endian encodings, as [PutUint16] and [PutUint32] write them. *)
Definition be16 (v : Z) : list Z := [byte (Z.shiftr v 8); byte v].
Definition be32 (v : Z) : list Z :=
  [byte (Z.shiftr v 24); byte (Z.shiftr v 16); byte (Z.shiftr v 8); byte v].

(** The array [st] with the bytes [bs] written from offset [off]. *)
Definition write (off : nat) (bs : list Z) (st : store) : store :=
  take off st ++ bs ++ drop (off + length bs) st.

(** The value [putBitrate] works on after its first statement. *)
Definition clamp (bitrate : float32) : float32 :=
  if f32_ge bitrate bitratemax then bitratemax else bitrate.

(** What the loop of [putBitrate] leaves for a finite non-negative float
    with canonical mantissa [m] and exponent [e]. *)
Definition scaled (m : positive) (e : Z) : float32 * Z :=
  if -5 <=? e then (S754_finite false m (-6), e + 6)
  else (S754_finite false m e, 0).

(** The three bytes [putBitrate] writes for an exponent and a mantissa. *)
Definition bytes3 (exp mantissa : Z) : list Z :=
  [Z.lor (byte (Z.shiftl exp 2)) (byte (Z.shiftr mantissa 16));
   byte (Z.shiftr mantissa 8);
   byte mantissa].

(** The float32 [loadBitrate] builds from a 6-bit exponent and an 18-bit
    mantissa. *)
Definition decode_fields (exp mantissa : Z) : float32 :=
  if mantissa =? 0 then S754_finite false 8388608 exp
  else
    let k := 23 - Z.log2 mantissa in
    S754_finite false (Z.to_pos (mantissa * 2 ^ k)) (exp - k).

Definition f32_finite (x : float32) : bool :=
  match x with
  | S754_zero _ | S754_finite _ _ _ => true
  | _ => false
  end.

Section Codec.

(** [uint(x)] for a float [x] that is NaN, infinite or outside the range of
    [uint]: the conversion succeeds and its value depends on the
    implementation. *)
Variable uint_unspecified : float32 -> Z.

(** [uint(math.Floor(float64(bitrate)))]: the conversion to float64 and the
    floor are exact. *)
Definition floor_uint (bitrate : float32) : Z :=
  match bitrate with
  | S754_zero _ => 0
  | S754_finite false m e =>
      let n := Z.shiftl (Zpos m) e in
      if n <? 2 ^ 64 then n else uint_unspecified bitrate
  | _ => uint_unspecified bitrate
  end.

Definition putBitrate (bitrate : float32) (buf : slice) : M store unit :=
  let bitrate := if f32_ge bitrate bitratemax then bitratemax else bitrate in
  if f32_lt bitrate f32_0 then fail errInvalidBitrate else
  match putBitrate_loop 256 bitrate 0 with
  | None => lift OutOfFuel
  | Some (bitrate, exp) =>
      if 2 ^ 6 <=? exp then fail errInvalidBitrate else
      let mantissa := floor_uint bitrate in
      do _ <- put buf 0 (Z.lor (byte (Z.shiftl exp 2)) (byte (Z.shiftr mantissa 16)));
      do _ <- put buf 1 (byte (Z.shiftr mantissa 8));
      put buf 2 (byte mantissa)
  end.

(** [putBitrate] on a fresh 3-byte array: the encoding of a bitrate. *)
Definition encode (bitrate : float32) : result (list Z) :=
  let '(st, b) := make 3 in
  match putBitrate bitrate b st with
  | (Ok _, st') => Ok st'
  | (Err e, _) => Err e
  | (Panic, _) => Panic
  | (OutOfFuel, _) => OutOfFuel
  end.

(** [loadBitrate] of what [putBitrate] wrote. *)
Definition quantized (bitrate : float32) : result float32 :=
  match encode bitrate with
  | Ok bs => loadBitrate bs
  | Err e => Err e
  | Panic => Panic
  | OutOfFuel => OutOfFuel
  end.

(** *** REMB *)

Definition REMB_MarshalSize (p : ReceiverEstimatedMaximumBitrate) : nat :=
  (20 + 4 * length (remb_SSRCs p))%nat.

(** [for _, ssrc := range p.SSRCs { PutUint32(buf[n:n+4], ssrc); n += 4 }] *)
Fixpoint REMB_put_SSRCs (buf : slice) (n : nat) (ssrcs : list Z) : M store nat :=
  match ssrcs with
  | [] => ret n
  | ssrc :: rest =>
      do b <- ssub buf n (n + 4);
      do _ <- PutUint32 b ssrc;
      REMB_put_SSRCs buf (n + 4) rest
  end.

Definition REMB_MarshalTo (p : ReceiverEstimatedMaximumBitrate) (buf : slice)
  : M store nat :=
  let size := REMB_MarshalSize p in
  if (s_len buf <? size)%nat then fail errPacketTooShort else
  do _ <- put buf 0 143;
  do _ <- put buf 1 206;
  let length := wrap16 (Z.of_nat (REMB_MarshalSize p) / 4 - 1) in
  do b <- ssub buf 2 4;
  do _ <- PutUint16 b length;
  do b <- ssub buf 4 8;
  do _ <- PutUint32 b (remb_SenderSSRC p);
  do b <- ssub buf 8 12;
  do _ <- PutUint32 b 0;
  do _ <- put buf 12 82;
  do _ <- put buf 13 69;
  do _ <- put buf 14 77;
  do _ <- put buf 15 66;
  do _ <- put buf 16 (byte (Z.of_nat (List.length (remb_SSRCs p))));
  do b <- ssub buf 17 20;
  do _ <- putBitrate (remb_Bitrate p) b;
  REMB_put_SSRCs buf 20 (remb_SSRCs p).

Definition REMB_Marshal (p : ReceiverEstimatedMaximumBitrate) : result (list Z) :=
  let '(st, buf) := make (REMB_MarshalSize p) in
  match REMB_MarshalTo p buf st with
  | (Ok n, st') => if negb (n =? s_len buf)%nat then Err errWrongMarshalSize else Ok st'
  | (Err e, _) => Err e
  | (Panic, _) => Panic
  | (OutOfFuel, _) => OutOfFuel
  end.

(** [for n := 20; n < size; n += 4 { p.SSRCs = append(p.SSRCs, Uint32(buf[n:n+4])) }] *)
Fixpoint REMB_get_SSRCs (fuel : nat) (buf : list Z) (n size : nat)
  : M ReceiverEstimatedMaximumBitrate unit :=
  if (n <? size)%nat then
    match fuel with
    | O => lift OutOfFuel
    | S fuel' =>
        do b <- lift (sub buf n (n + 4));
        do ssrc <- lift (Uint32 b);
        do _ <- modify (fun p => REMB (remb_SenderSSRC p) (remb_Bitrate p)
                                      (remb_SSRCs p ++ [ssrc]));
        REMB_get_SSRCs fuel' buf (n + 4) size
    end
  else ret tt.

Definition REMB_Unmarshal (buf : list Z) : M ReceiverEstimatedMaximumBitrate unit :=
  if (length buf <? 20)%nat then fail errPacketTooShort else
  do b0 <- lift (index buf 0);
  let version := Z.shiftr b0 6 in
  if negb (version =? 2) then fail errBadVersion else
  let padding := Z.land (Z.shiftr b0 5) 1 in
  if negb (padding =? 0) then fail errWrongPadding else
  let fmtVal := Z.land b0 31 in
  if negb (fmtVal =? 15) then fail errWrongFeedbackType else
  do b1 <- lift (index buf 1);
  if negb (b1 =? 206) then fail errWrongPayloadType else
  do b <- lift (sub buf 2 4);
  do length <- lift (Uint16 b);
  let size := Z.to_nat (wrap16 (wrap16 (length + 1) * 4)) in
  if (size <? 20)%nat then fail errHeaderTooSmall else
  if (List.length buf <? size)%nat then fail errPacketTooShort else
  do b <- lift (sub buf 4 8);
  do sender <- lift (Uint32 b);
  do _ <- modify (fun p => REMB sender (remb_Bitrate p) (remb_SSRCs p));
  do b <- lift (sub buf 8 12);
  do media <- lift (Uint32 b);
  if negb (media =? 0) then fail errSSRCMustBeZero else
  do b <- lift (sub buf 12 16);
  if negb (bool_decide (b = [82; 69; 77; 66])) then fail errMissingREMBidentifier else
  do b16 <- lift (index buf 16);
  let num := Z.to_nat b16 in
  if negb (size =? 20 + 4 * num)%nat then fail errSSRCNumAndLengthMismatch else
  do b <- lift (sub buf 17 20);
  do bitrate <- lift (loadBitrate b);
  do _ <- modify (fun p => REMB (remb_SenderSSRC p) bitrate (remb_SSRCs p));
  do _ <- modify (fun p => REMB (remb_SenderSSRC p) (remb_Bitrate p) []);
  REMB_get_SSRCs size buf 20 size.

Definition REMB_Header (p : ReceiverEstimatedMaximumBitrate) : Header :=
  {| Padding := false;
     Count := FormatREMB;
     Type_ := TypePayloadSpecificFeedback;
     Length := wrap16 (Z.of_nat (REMB_MarshalSize p) / 4 - 1) |}.

(** *** TMMBR and TMMBN

    [format] is [FormatTMMBR] in the methods of [TMMBR] and [FormatTMMBN] in
    those of [TMMBN]. *)

Definition TMMB_MarshalSize (p : TMMB) : nat :=
  (headerLength + ssrcLength * 2 + length (Entries p) * (2 * ssrcLength))%nat.

Definition TMMB_Header (format : Z) (p : TMMB) : Header :=
  {| Padding := false;
     Count := format;
     Type_ := TypeTransportSpecificFeedback;
     Length := wrap16 (Z.of_nat (TMMB_MarshalSize p) / 4 - 1) |}.

(** [for i, entry := range p.Entries { ... }] *)
Fixpoint TMMB_put_Entries (body : slice) (i : nat) (entries : list TMMBEntry)
  : M store unit :=
  match entries with
  | [] => ret tt
  | entry :: rest =>
      let offset := (ssrcLength * 2 + i * (2 * ssrcLength))%nat in
      do b <- sfrom body offset;
      do _ <- PutUint32 b (MediaSSRC entry);
      do b <- sfrom body (offset + ssrcLength);
      do _ <- putBitrate (Bitrate entry) b;
      TMMB_put_Entries body (S i) rest
  end.

Definition TMMB_Marshal (format : Z) (p : TMMB) : result (list Z) :=
  let packetSize := TMMB_MarshalSize p in
  let '(st, rawPacket) := make packetSize in
  let header := TMMB_Header format p in
  match Header_Marshal header with
  | Ok headerBuf =>
      let body_writes :=
        do _ <- copy rawPacket headerBuf;
        do body <- sfrom rawPacket headerLength;
        do _ <- PutUint32 body (SenderSSRC p);
        do b <- sfrom body ssrcLength;
        do _ <- PutUint32 b 0;
        TMMB_put_Entries body 0 (Entries p) in
      match body_writes st with
      | (Ok _, st') => Ok st'
      | (Err e, _) => Err e
      | (Panic, _) => Panic
      | (OutOfFuel, _) => OutOfFuel
      end
  | Err e => Err e
  | Panic => Panic
  | OutOfFuel => OutOfFuel
  end.

(** [entry := &p.Entries[i]] followed by an assignment to a field of [entry] *)
Definition set_entry (i : nat) (f : TMMBEntry -> TMMBEntry) : M TMMB unit :=
  fun p =>
    match Entries p !! i with
    | Some entry => (Ok tt, MkTMMB (SenderSSRC p) (<[i := f entry]> (Entries p)))
    | None => (Panic, p)
    end.

(** [for i := 0; i < entryCount; i++ { ... }], with [todo = entryCount - i] *)
Fixpoint TMMB_get_Entries (body : list Z) (todo i : nat) : M TMMB unit :=
  match todo with
  | O => ret tt
  | S todo' =>
      let offset := (ssrcLength * 2 + i * (2 * ssrcLength))%nat in
      do b <- lift (from body offset);
      do ssrc <- lift (Uint32 b);
      do _ <- set_entry i (fun entry => Entry ssrc (Bitrate entry));
      do b <- lift (from body (offset + ssrcLength));
      do bitrate <- lift (loadBitrate b);
      do _ <- set_entry i (fun entry => Entry (MediaSSRC entry) bitrate);
      TMMB_get_Entries body todo' (S i)
  end.

Definition TMMB_Unmarshal (format : Z) (rawPacket : list Z) : M TMMB unit :=
  if (length rawPacket <? headerLength + ssrcLength * 2)%nat
  then fail errPacketTooShort else
  do header <- lift (Header_Unmarshal rawPacket);
  let expectedSize := Z.to_nat (wrap16 (wrap16 (Length header + 1) * 4)) in
  if (List.length rawPacket <? expectedSize)%nat then fail errBadLength else
  if negb (Type_ header =? TypeTransportSpecificFeedback)
     || negb (Count header =? format)
  then fail errWrongType else
  do body <- lift (from rawPacket headerLength);
  do sender <- lift (Uint32 body);
  do _ <- modify (fun p => MkTMMB sender (Entries p));
  let entryCount := Z.to_nat (wrap16 (Length header - 2) / 2) in
  do _ <- modify (fun p => MkTMMB (SenderSSRC p) (replicate entryCount (Entry 0 f32_0)));
  TMMB_get_Entries body entryCount 0.

Definition TMMBR_MarshalSize := TMMB_MarshalSize.
Definition TMMBR_Header := TMMB_Header FormatTMMBR.
Definition TMMBR_Marshal := TMMB_Marshal FormatTMMBR.
Definition TMMBR_Unmarshal := TMMB_Unmarshal FormatTMMBR.

Definition TMMBN_MarshalSize := TMMB_MarshalSize.
Definition TMMBN_Header := TMMB_Header FormatTMMBN.
Definition TMMBN_Marshal := TMMB_Marshal FormatTMMBN.
Definition TMMBN_Unmarshal := TMMB_Unmarshal FormatTMMBN.

(** *** The wire formats, and the packets behind one interface *)

Definition REMB_wire (p : ReceiverEstimatedMaximumBitrate) (bs : list Z) : list Z :=
  [143; 206] ++ be16 (wrap16 (Z.of_nat (REMB_MarshalSize p) / 4 - 1))
  ++ be32 (remb_SenderSSRC p) ++ be32 0 ++ [82; 69; 77; 66]
  ++ [byte (Z.of_nat (length (remb_SSRCs p)))] ++ bs
  ++ flat_map be32 (remb_SSRCs p).

(** The entries as [Marshal] lays them out: media SSRC, compact bitrate, and
    the overhead byte, which is never written and stays zero. The first
    bitrate that [putBitrate] refuses ends the call. *)
Fixpoint TMMB_wire_entries (entries : list TMMBEntry) : result (list Z) :=
  match entries with
  | [] => Ok []
  | entry :: rest =>
      match encode (Bitrate entry) with
      | Ok bs =>
          match TMMB_wire_entries rest with
          | Ok tl => Ok (be32 (MediaSSRC entry) ++ bs ++ [0] ++ tl)
          | Err e => Err e
          | Panic => Panic
          | OutOfFuel => OutOfFuel
          end
      | Err e => Err e
      | Panic => Panic
      | OutOfFuel => OutOfFuel
      end
  end.

Definition TMMB_wire_header (format : Z) (p : TMMB) : list Z :=
  [Z.lor (Z.lor (Z.shiftl 2 6) 0) (Z.land format 31);
   byte TypeTransportSpecificFeedback] ++
  be16 (wrap16 (Z.of_nat (TMMB_MarshalSize p) / 4 - 1)).

(** A run of the entry loop agrees with the wire layout of the entries. *)
Definition agrees (r : result unit * list Z) (w : result (list Z))
    (final : list Z -> list Z) : Prop :=
  match w with
  | Ok tl => r = (Ok tt, final tl)
  | Err e => fst r = Err e
  | Panic => fst r = Panic
  | OutOfFuel => fst r = OutOfFuel
  end.

(** An entry as it comes back: the same media SSRC, the bitrate quantized. *)
Definition comes_back (entry entry' : TMMBEntry) : Prop :=
  MediaSSRC entry' = MediaSSRC entry /\
  quantized (Bitrate entry) = Ok (Bitrate entry').

(** The three packet types behind the common interface. *)
Inductive Packet : Type :=
| PacketREMB (p : ReceiverEstimatedMaximumBitrate)
| PacketTMMBR (p : TMMB)
| PacketTMMBN (p : TMMB).

Definition MarshalSize (pk : Packet) : nat :=
  match pk with
  | PacketREMB p => REMB_MarshalSize p
  | PacketTMMBR p => TMMBR_MarshalSize p
  | PacketTMMBN p => TMMBN_MarshalSize p
  end.

Definition Header_of (pk : Packet) : Header :=
  match pk with
  | PacketREMB p => REMB_Header p
  | PacketTMMBR p => TMMBR_Header p
  | PacketTMMBN p => TMMBN_Header p
  end.

(** [Unmarshal] on a receiver of each type. *)
Definition Unmarshal (buf : list Z) (receiver : Packet) : result unit * Packet :=
  match receiver with
  | PacketREMB p0 => let (r, p) := REMB_Unmarshal buf p0 in (r, PacketREMB p)
  | PacketTMMBR p0 => let (r, p) := TMMBR_Unmarshal buf p0 in (r, PacketTMMBR p)
  | PacketTMMBN p0 => let (r, p) := TMMBN_Unmarshal buf p0 in (r, PacketTMMBN p)
  end.

Definition same_type (pk receiver : Packet) : Prop :=
  match pk, receiver with
  | PacketREMB _, PacketREMB _
  | PacketTMMBR _, PacketTMMBR _
  | PacketTMMBN _, PacketTMMBN _ => True
  | _, _ => False
  end.

(** The bitrate fields of a packet. *)
Definition bitrates (pk : Packet) : list float32 :=
  match pk with
  | PacketREMB p => [remb_Bitrate p]
  | PacketTMMBR p | PacketTMMBN p => map Bitrate (Entries p)
  end.

(** A bitrate a valid packet may hold: a float32 that is not negative. *)
Definition valid_bitrate (x : float32) : Prop :=
  f32_valid x = true /\ f32_lt x f32_0 = false.

(** A valid packet: SSRCs are 32-bit, the bitrates are valid, and the list
    is small enough for its wire fields: the one-byte SSRC count of REMB,
    the 16-bit header length [2 + 2 * entries] of TMMBR and TMMBN. *)
Definition valid_packet (pk : Packet) : Prop :=
  Forall valid_bitrate (bitrates pk) /\
  match pk with
  | PacketREMB p =>
      is_uint32 (remb_SenderSSRC p) /\ Forall is_uint32 (remb_SSRCs p) /\
      Z.of_nat (length (remb_SSRCs p)) <= 255
  | PacketTMMBR p | PacketTMMBN p =>
      is_uint32 (SenderSSRC p) /\
      Forall (fun entry => is_uint32 (MediaSSRC entry)) (Entries p) /\
      Z.of_nat (length (Entries p)) <= 32766
  end.

Definition Marshal (pk : Packet) : result (list Z) :=
  match pk with
  | PacketREMB p => REMB_Marshal p
  | PacketTMMBR p => TMMBR_Marshal p
  | PacketTMMBN p => TMMBN_Marshal p
  end.

(** [pk'] is [pk] with every bitrate replaced by its quantized value. *)
Definition quantized_packet (pk pk' : Packet) : Prop :=
  match pk, pk' with
  | PacketREMB p, PacketREMB p' =>
      remb_SenderSSRC p' = remb_SenderSSRC p /\
      quantized (remb_Bitrate p) = Ok (remb_Bitrate p') /\
      remb_SSRCs p' = remb_SSRCs p
  | PacketTMMBR p, PacketTMMBR p' | PacketTMMBN p, PacketTMMBN p' =>
      SenderSSRC p' = SenderSSRC p /\
      Forall2 comes_back (Entries p) (Entries p')
  | _, _ => False
  end.

End Codec.

(** ** [DestinationSSRC] *)

(** [ssrcs[i] = v] on a slice of words *)
Definition set_word (i : nat) (v : Z) : M (list Z) unit :=
  fun ssrcs =>
    if (i <? length ssrcs)%nat then (Ok tt, <[i := v]> ssrcs) else (Panic, ssrcs).

Definition REMB_DestinationSSRC (p : ReceiverEstimatedMaximumBitrate) : list Z :=
  remb_SSRCs p.

(** [for i, entry := range p.Entries { ssrcs[i] = entry.MediaSSRC }] *)
Fixpoint TMMB_fill_SSRCs (i : nat) (entries : list TMMBEntry) : M (list Z) unit :=
  match entries with
  | [] => ret tt
  | entry :: rest =>
      do _ <- set_word i (MediaSSRC entry);
      TMMB_fill_SSRCs (S i) rest
  end.

(** [DestinationSSRC] of [TMMBR] and of [TMMBN] *)
Definition TMMB_DestinationSSRC (p : TMMB) : result (list Z) :=
  let ssrcs := replicate (length (Entries p)) 0 in
  match TMMB_fill_SSRCs 0 (Entries p) ssrcs with
  | (Ok _, ssrcs) => Ok ssrcs
  | (Err e, _) => Err e
  | (Panic, _) => Panic
  | (OutOfFuel, _) => OutOfFuel
  end.

Definition DestinationSSRC (pk : Packet) : result (list Z) :=
  match pk with
  | PacketREMB p => Ok (REMB_DestinationSSRC p)
  | PacketTMMBR p | PacketTMMBN p => TMMB_DestinationSSRC p
  end.

(** ** Definitions the further statements use *)

(** The errors [Unmarshal] of REMB returns before it assigns to the
    receiver, and those it returns after it has assigned the sender SSRC. *)
Definition REMB_early_errors : list Error :=
  [errPacketTooShort; errBadVersion; errWrongPadding; errWrongFeedbackType;
   errWrongPayloadType; errHeaderTooSmall].
Definition REMB_late_errors : list Error :=
  [errSSRCMustBeZero; errMissingREMBidentifier; errSSRCNumAndLengthMismatch].

(** What [Unmarshal] of REMB accepted, read off the buffer. *)
Definition REMB_accepted (buf : list Z) (p : ReceiverEstimatedMaximumBitrate) : Prop :=
  (20 + 4 * length (remb_SSRCs p) <= length buf)%nat /\
  take 2 buf = [143; 206] /\
  (exists len, sub buf 2 4 = Ok (be16 len) /\ 0 <= len < 2 ^ 16 /\
               wrap16 (wrap16 (len + 1) * 4) = 20 + 4 * Z.of_nat (length (remb_SSRCs p))) /\
  sub buf 4 8 = Ok (be32 (remb_SenderSSRC p)) /\ is_uint32 (remb_SenderSSRC p) /\
  sub buf 8 16 = Ok [0; 0; 0; 0; 82; 69; 77; 66] /\
  buf !! 16%nat = Some (Z.of_nat (length (remb_SSRCs p))) /\
  (length (remb_SSRCs p) <= 255)%nat /\
  (exists b0 b1 b2, sub buf 17 20 = Ok [b0; b1; b2] /\
                    is_byte b0 /\ is_byte b1 /\ is_byte b2 /\
                    loadBitrate [b0; b1; b2] = Ok (remb_Bitrate p)) /\
  Forall is_uint32 (remb_SSRCs p) /\
  flat_map be32 (remb_SSRCs p) = take (4 * length (remb_SSRCs p)) (drop 20 buf).

(** The three ways a call [Unmarshal buf] on the receiver [p0] ends. *)
Definition REMB_outcome (buf : list Z) (p0 : ReceiverEstimatedMaximumBitrate)
    (r : result unit * ReceiverEstimatedMaximumBitrate) : Prop :=
  (exists e, r = (Err e, p0) /\ In e REMB_early_errors) \/
  (exists e sender,
      r = (Err e, REMB sender (remb_Bitrate p0) (remb_SSRCs p0)) /\
      In e REMB_late_errors) \/
  (exists p, r = (Ok tt, p) /\ REMB_accepted buf p).

(** The first 17 bytes of a REMB packet: what [MarshalTo] has written when it
    comes to the bitrate. *)
Definition REMB_wire_prefix (p : ReceiverEstimatedMaximumBitrate) : list Z :=
  [143; 206] ++ be16 (wrap16 (Z.of_nat (REMB_MarshalSize p) / 4 - 1))
  ++ be32 (remb_SenderSSRC p) ++ be32 0 ++ [82; 69; 77; 66]
  ++ [byte (Z.of_nat (length (remb_SSRCs p)))].

(** An entry as [Unmarshal] reads it at index [k] of the body. *)
Definition TMMB_entry_read (body : list Z) (k : nat) (entry : TMMBEntry) : Prop :=
  is_uint32 (MediaSSRC entry) /\
  be32 (MediaSSRC entry) = take 4 (drop (8 + 8 * k) body) /\
  loadBitrate (drop (12 + 8 * k) body) = Ok (Bitrate entry) /\
  f32_valid (Bitrate entry) = true /\ f32_lt (Bitrate entry) f32_0 = false.

(** An implementation whose unspecified conversions give 0. *)
Definition uint_zero : float32 -> Z := fun _ => 0.

(** The packet of [TestTMMBNMarshal]. *)
Definition example_TMMBN : Packet :=
  PacketTMMBN (MkTMMB 1 [Entry 1215622422 (S754_finite false 8927168 0)]).

(** -1 *)
Definition f32_minus_1 : float32 := S754_finite true 8388608 (-23).

Definition example_negative : Packet :=
  PacketTMMBR (MkTMMB 1 [Entry 5 (S754_finite false 8927168 0); Entry 6 f32_minus_1]).

(** A REMB packet: sender 1, bitrate 8927168, one SSRC. *)
Definition example_REMB_bytes : list Z :=
  [143; 206; 0; 5; 0; 0; 0; 1; 0; 0; 0; 0; 82; 69; 77; 66; 1; 26; 32; 223;
   72; 116; 237; 22].
Definition example_REMB : ReceiverEstimatedMaximumBitrate :=
  REMB 1 (S754_finite false 8927168 0) [1215622422].

(** The bytes of [TestTMMBNMarshal] and [TestTMMBNUnmarshal]. *)
Definition example_TMMBN_bytes : list Z :=
  [132; 205; 0; 4; 0; 0; 0; 1; 0; 0; 0; 0; 72; 116; 237; 22; 26; 32; 223; 0].

(** * Properties *)

(** ** Floating point *)

Lemma digits2_pos_bounds (m : positive) :
  2 ^ (Z.pos (digits2_pos m) - 1) <= Z.pos m < 2 ^ Z.pos (digits2_pos m).
Proof.
  induction m as [m IH | m IH |]; cbn [digits2_pos].
  - rewrite Pos2Z.inj_succ, Z.pow_succ_r by lia.
    replace (Z.succ (Z.pos (digits2_pos m)) - 1) with (Z.succ (Z.pos (digits2_pos m) - 1)) by lia.
    rewrite Z.pow_succ_r by lia. lia.
  - rewrite Pos2Z.inj_succ, Z.pow_succ_r by lia.
    replace (Z.succ (Z.pos (digits2_pos m)) - 1) with (Z.succ (Z.pos (digits2_pos m) - 1)) by lia.
    rewrite Z.pow_succ_r by lia. lia.
  - cbn. lia.
Qed.

Lemma digits2_pos_unique (m : positive) (d : Z) :
  2 ^ (d - 1) <= Z.pos m < 2 ^ d -> 0 < d -> Z.pos (digits2_pos m) = d.
Proof.
  intros H Hd. pose proof (digits2_pos_bounds m) as B.
  destruct (Z.lt_trichotomy (Z.pos (digits2_pos m)) d) as [L | [E | G]]; [ | exact E | ].
  - assert (2 ^ Z.pos (digits2_pos m) <= 2 ^ (d - 1)) by (apply Z.pow_le_mono_r; lia). lia.
  - assert (2 ^ d <= 2 ^ (Z.pos (digits2_pos m) - 1)) by (apply Z.pow_le_mono_r; lia). lia.
Qed.

Lemma fexp32 (x : Z) : fexp 24 128 x = Z.max (x - 24) (-149).
Proof. reflexivity. Qed.

Lemma div_eucl_exact (a b q : Z) : 0 < b -> a = q * b -> Z.div_eucl a b = (q, 0).
Proof.
  intros Hb ->. rewrite (surjective_pairing (Z.div_eucl (q * b) b)).
  change (fst (Z.div_eucl (q * b) b)) with (q * b / b).
  change (snd (Z.div_eucl (q * b) b)) with ((q * b) mod b).
  rewrite Z.div_mul, Z.mod_mul by lia. reflexivity.
Qed.

Lemma SFdiv_core_by_2 (m : positive) (e : Z) :
  digits2_pos m = 24%positive -> -147 <= e ->
  SFdiv_core_binary 24 128 (Z.pos m) e 8388608 (-22) = (Z.pos m~0, e - 2, loc_Exact).
Proof.
  intros Hd He. unfold SFdiv_core_binary.
  assert (D1 : Zdigits2 (Z.pos m) = 24) by (cbn; rewrite Hd; reflexivity).
  assert (D2 : Zdigits2 8388608 = 24) by reflexivity.
  rewrite D1, D2, fexp32.
  replace (Z.min (Z.max (24 + e - (24 + -22) - 24) (-149)) (e - -22)) with (e - 2) by lia.
  replace (e - -22 - (e - 2)) with 24 by lia.
  rewrite (div_eucl_exact _ _ (Z.pos m~0)).
  - reflexivity.
  - lia.
  - rewrite Z.shiftl_mul_pow2 by lia. change (2 ^ 24) with (2 * 8388608). lia.
Qed.

Lemma binary_round_aux_shift1 (m : positive) (e : Z) :
  digits2_pos m = 24%positive -> -148 <= e <= 104 ->
  binary_round_aux 24 128 false (Z.pos m~0) (e - 1) loc_Exact = S754_finite false m e.
Proof.
  intros Hd He. unfold binary_round_aux, shr_fexp.
  assert (D1 : Zdigits2 (Z.pos m~0) = 25) by (cbn; rewrite Hd; reflexivity).
  rewrite D1, fexp32.
  replace (Z.max (25 + (e - 1) - 24) (-149) - (e - 1)) with 1 by lia.
  cbn [shr shr_record_of_loc SpecFloat.iter_pos shr_1 shr_m loc_of_shr_record round_nearest_even orb].
  assert (D2 : Zdigits2 (Z.pos m) = 24) by (cbn; rewrite Hd; reflexivity).
  rewrite D2, fexp32.
  replace (Z.max (24 + (e - 1 + 1) - 24) (-149) - (e - 1 + 1)) with 0 by lia.
  cbn [shr shr_m].
  replace (e - 1 + 1) with e by lia.
  replace (e <=? 128 - 24) with true by (symmetry; apply Z.leb_le; lia).
  reflexivity.
Qed.

Lemma f32_div_2 (m : positive) (e : Z) :
  digits2_pos m = 24%positive -> -147 <= e <= 105 ->
  f32_div (S754_finite false m e) f32_2 = S754_finite false m (e - 1).
Proof.
  intros Hd He. unfold f32_div, f32_2, SFdiv.
  rewrite SFdiv_core_by_2 by (assumption || lia).
  replace (e - 2) with (e - 1 - 1) by lia.
  apply binary_round_aux_shift1; [assumption | lia].
Qed.

Lemma f32_valid_finite (s : bool) (m : positive) (e : Z) :
  f32_valid (S754_finite s m e) = true ->
  -149 <= e <= 104 /\ Z.pos (digits2_pos m) <= 24 /\
  (-149 < e -> digits2_pos m = 24%positive).
Proof.
  unfold f32_valid, valid_binary, bounded, canonical_mantissa.
  rewrite andb_true_iff, Z.eqb_eq, Z.leb_le, fexp32. intros [Hc He].
  repeat split; lia.
Qed.

Lemma normal_bounds (m : positive) :
  digits2_pos m = 24%positive -> 2 ^ 23 <= Z.pos m < 2 ^ 24.
Proof. intros Hd. pose proof (digits2_pos_bounds m) as B. rewrite Hd in B. exact B. Qed.

Lemma f32_ge_2p18_normal (m : positive) (e : Z) :
  digits2_pos m = 24%positive ->
  f32_ge (S754_finite false m e) f32_2p18 = (-5 <=? e).
Proof.
  intros Hd. apply normal_bounds in Hd.
  unfold f32_ge, f32_2p18, SFleb, SFcompare.
  destruct (Z.compare_spec (-5) e) as [E | L | G].
  - subst e. change (Pos.compare_cont Eq 8388608 m) with (Z.pos 8388608 ?= Z.pos m).
    destruct (Z.compare_spec (Z.pos 8388608) (Z.pos m)); try reflexivity. lia.
  - symmetry. apply Z.leb_le. lia.
  - symmetry. apply Z.leb_gt. lia.
Qed.

Lemma putBitrate_loop_normal (m : positive) :
  digits2_pos m = 24%positive ->
  forall (k fuel : nat) (e exp : Z),
    (k <= fuel)%nat -> e = -6 + Z.of_nat k -> e <= 105 ->
    putBitrate_loop fuel (S754_finite false m e) exp
    = Some (S754_finite false m (-6), exp + Z.of_nat k).
Proof.
  intros Hd k. induction k as [| k IH]; intros fuel e exp Hf He Hb.
  - replace e with (-6) by lia. replace (exp + Z.of_nat 0) with exp by lia.
    destruct fuel; cbn [putBitrate_loop]; rewrite f32_ge_2p18_normal by assumption; reflexivity.
  - destruct fuel as [| fuel]; [lia |]. cbn [putBitrate_loop].
    rewrite f32_ge_2p18_normal by assumption.
    replace (-5 <=? e) with true by (symmetry; apply Z.leb_le; lia).
    rewrite f32_div_2 by (assumption || lia).
    rewrite (IH fuel (e - 1) (exp + 1)) by lia.
    f_equal. f_equal. lia.
Qed.

Lemma putBitrate_loop_exit (fuel : nat) (x : float32) (exp : Z) :
  f32_ge x f32_2p18 = false -> putBitrate_loop fuel x exp = Some (x, exp).
Proof. intros H. destruct fuel; cbn [putBitrate_loop]; rewrite H; reflexivity. Qed.

Lemma putBitrate_loop_finite (m : positive) (e : Z) :
  f32_valid (S754_finite false m e) = true -> e <= 57 ->
  putBitrate_loop 256 (S754_finite false m e) 0 = Some (scaled m e).
Proof.
  intros Hv He. apply f32_valid_finite in Hv as (Hr & Hd & Hn).
  unfold scaled. destruct (Z.leb_spec (-5) e) as [L | G].
  - rewrite (putBitrate_loop_normal m (Hn ltac:(lia)) (Z.to_nat (e + 6))) by lia.
    f_equal. f_equal. lia.
  - apply putBitrate_loop_exit.
    unfold f32_ge, f32_2p18, SFleb, SFcompare.
    destruct (Z.compare_spec (-5) e); first [reflexivity | lia].
Qed.

Lemma clamp_cases (x : float32) :
  f32_valid x = true ->
  (clamp x = bitratemax /\ f32_ge x bitratemax = true) \/
  (clamp x = x /\ f32_ge x bitratemax = false /\
   match x with
   | S754_finite false _ e => e <= 57
   | S754_infinity false => False
   | _ => True
   end).
Proof.
  intros Hv. unfold clamp. destruct (f32_ge x bitratemax) eqn:G; [left; auto | right].
  repeat split. destruct x as [s | [|] | | [|] m e]; try exact I.
  - discriminate G.
  - unfold f32_ge, bitratemax, SFleb, SFcompare in G.
    destruct (Z.compare_spec 57 e); try discriminate G; lia.
Qed.

(** The loop of [putBitrate] ends within its bound on every float32. *)
Lemma putBitrate_loop_terminates (x : float32) :
  f32_valid x = true ->
  exists r exp, putBitrate_loop 256 (clamp x) 0 = Some (r, exp) /\ 0 <= exp < 2 ^ 6.
Proof.
  intros Hv. destruct (clamp_cases x Hv) as [[-> _] | (-> & _ & Hx)].
  - eexists _, _. split; [vm_compute; reflexivity | lia].
  - destruct x as [s | [|] | | [|] m e]; try contradiction;
      try (eexists _, _; split; [apply putBitrate_loop_exit; reflexivity | lia]).
    rewrite putBitrate_loop_finite by assumption.
    apply f32_valid_finite in Hv. unfold scaled.
    destruct (Z.leb_spec (-5) e); eexists _, _; (split; [reflexivity | lia]).
Qed.

(** ** Bit-level facts *)

Lemma testbit_small (a n i : Z) : 0 <= a < 2 ^ n -> n <= i -> Z.testbit a i = false.
Proof.
  intros Ha Hi. destruct (Z.eq_dec a 0) as [-> | Hz]; [apply Z.bits_0 |].
  apply Z.bits_above_log2; [lia |].
  assert (Z.log2 a < n) by (apply Z.log2_lt_pow2; lia). lia.
Qed.

Lemma lor_shiftl_add (a b n : Z) :
  0 <= n -> 0 <= b < 2 ^ n -> Z.lor (Z.shiftl a n) b = a * 2 ^ n + b.
Proof.
  intros Hn Hb. rewrite <- Z.shiftl_mul_pow2 by lia.
  symmetry. apply Z.add_nocarry_lor.
  apply Z.bits_inj'. intros i Hi. rewrite Z.land_spec, Z.bits_0.
  destruct (Z.lt_ge_cases i n).
  - rewrite Z.shiftl_spec_low by lia. reflexivity.
  - rewrite (testbit_small b n i) by lia. apply andb_false_r.
Qed.

Lemma lor_add_shiftl (a b n : Z) :
  0 <= n -> 0 <= b < 2 ^ n -> Z.lor b (Z.shiftl a n) = a * 2 ^ n + b.
Proof. intros. rewrite Z.lor_comm. now apply lor_shiftl_add. Qed.

Lemma land_255 (a : Z) : Z.land a 255 = a mod 2 ^ 8.
Proof. change 255 with (Z.ones 8). apply Z.land_ones. lia. Qed.

Lemma land_3 (a : Z) : Z.land a 3 = a mod 2 ^ 2.
Proof. change 3 with (Z.ones 2). apply Z.land_ones. lia. Qed.

Lemma land_31 (a : Z) : Z.land a 31 = a mod 2 ^ 5.
Proof. change 31 with (Z.ones 5). apply Z.land_ones. lia. Qed.

Lemma land_1 (a : Z) : Z.land a 1 = a mod 2 ^ 1.
Proof. change 1 with (Z.ones 1) at 1. apply Z.land_ones. lia. Qed.

Lemma land_mantissamax (a : Z) : Z.land a mantissamax = a mod 2 ^ 23.
Proof. change mantissamax with (Z.ones 23). apply Z.land_ones. lia. Qed.

Lemma land_bit23 (a : Z) :
  0 <= a < 2 ^ 24 -> (Z.land a (mantissamax + 1) =? 0) = (a <? 2 ^ 23).
Proof.
  intros Ha. change (mantissamax + 1) with (2 ^ 23).
  destruct (Z.ltb_spec a (2 ^ 23)) as [L | G].
  - apply Z.eqb_eq. apply Z.bits_inj'. intros i Hi.
    rewrite Z.land_spec, Z.bits_0.
    destruct (Z.eq_dec i 23) as [-> | Hne].
    + rewrite (testbit_small a 23 23) by lia. reflexivity.
    + rewrite Z.pow2_bits_false by lia. apply andb_false_r.
  - apply Z.eqb_neq. intros H.
    assert (T : Z.testbit (Z.land a (2 ^ 23)) 23 = false) by (rewrite H; apply Z.bits_0).
    rewrite Z.land_spec, Z.pow2_bits_true, andb_true_r in T by lia.
    apply Z.testbit_false in T; [| lia].
    revert T. Z.div_mod_to_equations. lia.
Qed.

Lemma lor_byte_bound (a b : Z) : is_byte a -> is_byte b -> is_byte (Z.lor a b).
Proof.
  unfold is_byte. intros Ha Hb. split; [apply Z.lor_nonneg; lia |].
  destruct (Z.eq_dec (Z.lor a b) 0) as [-> | Hz]; [lia |].
  assert (0 <= Z.lor a b) by (apply Z.lor_nonneg; lia).
  apply Z.log2_lt_pow2; [lia |]. rewrite Z.log2_lor by lia.
  destruct (Z.eq_dec a 0) as [-> | Ha0]; destruct (Z.eq_dec b 0) as [-> | Hb0];
    cbn [Z.log2]; try lia.
  - assert (Z.log2 b < 8) by (apply Z.log2_lt_pow2; lia). lia.
  - assert (Z.log2 a < 8) by (apply Z.log2_lt_pow2; lia). lia.
  - assert (Z.log2 a < 8) by (apply Z.log2_lt_pow2; lia).
    assert (Z.log2 b < 8) by (apply Z.log2_lt_pow2; lia). lia.
Qed.

Lemma byte_is_byte (x : Z) : is_byte (byte x).
Proof. unfold is_byte, byte, wrap8. apply Z.mod_pos_bound. lia. Qed.

Lemma Uint16_be16 (v : Z) (rest : list Z) :
  0 <= v < 2 ^ 16 -> Uint16 (be16 v ++ rest) = Ok v.
Proof.
  intros Hv. cbn [be16 app Uint16]. f_equal.
  rewrite lor_add_shiftl by (lia || apply byte_is_byte).
  unfold byte, wrap8. rewrite !Z.shiftr_div_pow2 by lia.
  Z.div_mod_to_equations. lia.
Qed.

Lemma Uint32_be32 (v : Z) (rest : list Z) :
  is_uint32 v -> Uint32 (be32 v ++ rest) = Ok v.
Proof.
  unfold is_uint32. intros Hv. cbn [be32 app Uint32]. f_equal.
  rewrite (lor_add_shiftl _ (byte v)) by (lia || apply byte_is_byte).
  rewrite (lor_add_shiftl _ (_ + _)).
  2: lia.
  2: { unfold byte, wrap8. Z.div_mod_to_equations. lia. }
  rewrite (lor_add_shiftl _ (_ + _)).
  2: lia.
  2: { unfold byte, wrap8. Z.div_mod_to_equations. lia. }
  unfold byte, wrap8. rewrite !Z.shiftr_div_pow2 by lia.
  Z.div_mod_to_equations. lia.
Qed.

(** ** Writes to the backing array *)

Lemma length_write (off : nat) (bs : list Z) (st : store) :
  (off + length bs <= length st)%nat -> length (write off bs st) = length st.
Proof.
  intros H. unfold write. rewrite !length_app, length_take, length_drop. lia.
Qed.

Lemma write_app (off : nat) (a b : list Z) (st : store) :
  (off + length a + length b <= length st)%nat ->
  write (off + length a) b (write off a st) = write off (a ++ b) st.
Proof.
  intros H. unfold write.
  rewrite (app_assoc (take off st) a).
  rewrite take_app_length' by (rewrite length_app, length_take; lia).
  rewrite drop_app_add' by (rewrite length_app, length_take; lia).
  rewrite drop_drop, length_app, <- !app_assoc.
  rewrite Nat.add_assoc. reflexivity.
Qed.

(** A write over a part of the array that is spelled out. *)
Lemma write_mid (pre old new post : list Z) (off : nat) :
  off = length pre -> length old = length new ->
  write off new (pre ++ old ++ post) = pre ++ new ++ post.
Proof.
  intros -> Hl. unfold write.
  rewrite take_app_length, drop_app_add, <- Hl, drop_app_length. reflexivity.
Qed.

Lemma put_write (b : slice) (i : nat) (v : Z) (st : store) :
  (i < s_len b)%nat -> (s_off b + i < length st)%nat ->
  put b i v st = (Ok tt, write (s_off b + i) [v] st).
Proof.
  intros Hi Hs. unfold put.
  replace (i <? s_len b)%nat with true by (symmetry; apply Nat.ltb_lt; lia).
  replace (s_off b + i <? length st)%nat with true by (symmetry; apply Nat.ltb_lt; lia).
  cbn [andb]. rewrite insert_take_drop by lia.
  unfold write. cbn [length app]. do 4 f_equal. lia.
Qed.

Lemma put3_write (b : slice) (x y z : Z) (st : store) :
  (3 <= s_len b)%nat -> (s_off b + 3 <= length st)%nat ->
  (do _ <- put b 0 x; do _ <- put b 1 y; put b 2 z) st
  = (Ok tt, write (s_off b) [x; y; z] st).
Proof.
  intros Hl Hs. unfold bind.
  rewrite put_write by lia. rewrite put_write by (rewrite ?length_write; cbn [length]; lia).
  rewrite put_write by (rewrite ?length_write; cbn [length]; rewrite ?length_write; cbn [length]; lia).
  rewrite Nat.add_0_r.
  change (s_off b + 1)%nat with (s_off b + length [x])%nat.
  rewrite write_app by (cbn [length]; lia).
  change (s_off b + 2)%nat with (s_off b + length ([x] ++ [y]))%nat.
  rewrite write_app by (cbn [length app]; lia).
  reflexivity.
Qed.

Lemma PutUint16_write (b : slice) (v : Z) (st : store) :
  (2 <= s_len b)%nat -> (s_off b + 2 <= length st)%nat ->
  PutUint16 b v st = (Ok tt, write (s_off b) (be16 v) st).
Proof.
  intros Hl Hs. unfold PutUint16, bind.
  replace (1 <? s_len b)%nat with true by (symmetry; apply Nat.ltb_lt; lia).
  rewrite put_write by lia. rewrite put_write by (rewrite ?length_write; cbn [length]; lia).
  rewrite Nat.add_0_r.
  change (s_off b + 1)%nat with (s_off b + length [byte (Z.shiftr v 8)])%nat.
  rewrite write_app by (cbn [length]; lia).
  reflexivity.
Qed.

Lemma PutUint32_write (b : slice) (v : Z) (st : store) :
  (4 <= s_len b)%nat -> (s_off b + 4 <= length st)%nat ->
  PutUint32 b v st = (Ok tt, write (s_off b) (be32 v) st).
Proof.
  intros Hl Hs. unfold PutUint32, bind.
  replace (3 <? s_len b)%nat with true by (symmetry; apply Nat.ltb_lt; lia).
  rewrite put_write by lia. rewrite Nat.add_0_r.
  rewrite put_write by (rewrite ?length_write; cbn [length]; lia).
  change (s_off b + 1)%nat with (s_off b + length [byte (Z.shiftr v 24)])%nat.
  rewrite write_app by (cbn [length]; lia).
  rewrite put_write by (rewrite ?length_write; cbn [length app]; lia).
  change (s_off b + 2)%nat
    with (s_off b + length ([byte (Z.shiftr v 24)] ++ [byte (Z.shiftr v 16)]))%nat.
  rewrite write_app by (cbn [length app]; lia).
  rewrite put_write by (rewrite ?length_write; cbn [length app]; lia).
  change (s_off b + 3)%nat
    with (s_off b + length (([byte (Z.shiftr v 24)] ++ [byte (Z.shiftr v 16)])
                              ++ [byte (Z.shiftr v 8)]))%nat.
  rewrite write_app by (cbn [length app]; lia).
  reflexivity.
Qed.

Lemma ssub_ok {S : Type} (b : slice) (lo hi : nat) (s : S) :
  (lo <= hi <= s_len b)%nat ->
  ssub b lo hi s = (Ok (Slice (s_off b + lo) (hi - lo)), s).
Proof.
  intros H. unfold ssub.
  replace (lo <=? hi)%nat with true by (symmetry; apply Nat.leb_le; lia).
  replace (hi <=? s_len b)%nat with true by (symmetry; apply Nat.leb_le; lia).
  reflexivity.
Qed.

(** ** [putBitrate] *)

Section Encode.
Variable u : float32 -> Z.

Lemma encode_eq (bitrate : float32) :
  encode u bitrate =
  if f32_lt (clamp bitrate) f32_0 then Err errInvalidBitrate else
  match putBitrate_loop 256 (clamp bitrate) 0 with
  | None => OutOfFuel
  | Some (r, exp) =>
      if 2 ^ 6 <=? exp then Err errInvalidBitrate
      else Ok (bytes3 exp (floor_uint u r))
  end.
Proof.
  unfold encode, make, putBitrate. fold (clamp bitrate).
  destruct (f32_lt (clamp bitrate) f32_0); [reflexivity |].
  destruct (putBitrate_loop 256 (clamp bitrate) 0) as [[r exp] |]; [| reflexivity].
  destruct (2 ^ 6 <=? exp); [reflexivity |].
  rewrite put3_write by (cbn; lia). reflexivity.
Qed.

(** The effect of [putBitrate] on any slice with room for 3 bytes. *)
Lemma putBitrate_frame (bitrate : float32) (b : slice) (st : store) :
  (3 <= s_len b)%nat -> (s_off b + 3 <= length st)%nat ->
  putBitrate u bitrate b st =
  match encode u bitrate with
  | Ok bs => (Ok tt, write (s_off b) bs st)
  | Err e => (Err e, st)
  | Panic => (Panic, st)
  | OutOfFuel => (OutOfFuel, st)
  end.
Proof.
  intros Hl Hs. rewrite encode_eq. unfold putBitrate. fold (clamp bitrate).
  destruct (f32_lt (clamp bitrate) f32_0); [reflexivity |].
  destruct (putBitrate_loop 256 (clamp bitrate) 0) as [[r exp] |]; [| reflexivity].
  destruct (2 ^ 6 <=? exp); [reflexivity |].
  rewrite put3_write by lia. reflexivity.
Qed.

Lemma f32_lt_clamp (x : float32) : f32_lt (clamp x) f32_0 = f32_lt x f32_0.
Proof.
  unfold clamp. destruct (f32_ge x bitratemax) eqn:G; [| reflexivity].
  destruct x as [s | [|] | | [|] m e]; try discriminate G; reflexivity.
Qed.

Lemma bytes3_length (exp mantissa : Z) : length (bytes3 exp mantissa) = 3%nat.
Proof. reflexivity. Qed.

Lemma bytes3_bytes (exp mantissa : Z) : Forall is_byte (bytes3 exp mantissa).
Proof.
  unfold bytes3.
  constructor; [apply lor_byte_bound; apply byte_is_byte |].
  constructor; [apply byte_is_byte |].
  constructor; [apply byte_is_byte | constructor].
Qed.

(** [putBitrate] is total on float32: it fails exactly on the negative
    values, and it writes three bytes otherwise. *)
Lemma encode_total (x : float32) :
  f32_valid x = true ->
  if f32_lt x f32_0 then encode u x = Err errInvalidBitrate
  else exists bs, encode u x = Ok bs /\ length bs = 3%nat /\ Forall is_byte bs.
Proof.
  intros Hv. rewrite encode_eq, f32_lt_clamp.
  destruct (f32_lt x f32_0); [reflexivity |].
  destruct (putBitrate_loop_terminates x Hv) as (r & exp & -> & He).
  replace (2 ^ 6 <=? exp) with false by (symmetry; apply Z.leb_gt; lia).
  eexists. split; [reflexivity |]. split; [apply bytes3_length | apply bytes3_bytes].
Qed.

End Encode.

(** ** [loadBitrate] *)

Lemma lor_mul_add (a b n : Z) :
  0 <= n -> 0 <= b < 2 ^ n -> Z.lor (a * 2 ^ n) b = a * 2 ^ n + b.
Proof.
  intros. rewrite <- (lor_shiftl_add a b n) by lia.
  rewrite Z.shiftl_mul_pow2 by lia. reflexivity.
Qed.

Lemma loadBitrate_loop_spec (k : nat) :
  forall (fuel : nat) (exp mantissa : Z),
    (k <= fuel)%nat -> Z.of_nat k <= exp < 2 ^ 8 ->
    2 ^ 23 <= mantissa * 2 ^ Z.of_nat k < 2 ^ 24 -> 0 < mantissa ->
    loadBitrate_loop fuel exp mantissa
    = Some (exp - Z.of_nat k, mantissa * 2 ^ Z.of_nat k).
Proof.
  induction k as [| k IH]; intros fuel exp mantissa Hf He Hm Hp.
  - change (Z.of_nat 0) with 0 in *. rewrite Z.pow_0_r, Z.mul_1_r in *.
    destruct fuel; cbn [loadBitrate_loop]; rewrite land_bit23 by lia;
      (replace (mantissa <? 2 ^ 23) with false by (symmetry; apply Z.ltb_ge; lia));
      f_equal; f_equal; lia.
  - rewrite Nat2Z.inj_succ, Z.pow_succ_r in * by lia.
    destruct fuel as [| fuel]; [lia |]. cbn [loadBitrate_loop].
    assert (0 < 2 ^ Z.of_nat k) by (apply Z.pow_pos_nonneg; lia).
    assert (mantissa < 2 ^ 23) by nia.
    rewrite land_bit23 by lia.
    replace (mantissa <? 2 ^ 23) with true by (symmetry; apply Z.ltb_lt; lia).
    unfold wrap8, wrap32. rewrite !Z.mod_small by lia.
    rewrite IH by (try lia; nia).
    f_equal. f_equal; [lia | ring].
Qed.

Lemma Float32frombits_fields (e frac : Z) :
  0 < e < 255 -> 0 <= frac < 2 ^ 23 ->
  Float32frombits (Z.lor (Z.shiftl e 23) frac)
  = S754_finite false (Z.to_pos (frac + 2 ^ 23)) (e - 150).
Proof.
  intros He Hf. rewrite lor_shiftl_add by lia. unfold Float32frombits.
  rewrite (testbit_small (e * 2 ^ 23 + frac) 31 31) by lia.
  rewrite Z.shiftr_div_pow2, land_255 by lia.
  change (Z.land (e * 2 ^ 23 + frac) 8388607) with (Z.land (e * 2 ^ 23 + frac) mantissamax).
  rewrite land_mantissamax.
  replace ((e * 2 ^ 23 + frac) / 2 ^ 23) with e by (Z.div_mod_to_equations; lia).
  replace ((e * 2 ^ 23 + frac) mod 2 ^ 23) with frac by (Z.div_mod_to_equations; lia).
  rewrite Z.mod_small by lia.
  replace (e =? 0) with false by (symmetry; apply Z.eqb_neq; lia).
  replace (e =? 255) with false by (symmetry; apply Z.eqb_neq; lia).
  destruct (frac + 2 ^ 23) eqn:E; try lia. reflexivity.
Qed.

Lemma loadBitrate_bytes (b0 b1 b2 : Z) (rest : list Z) :
  is_byte b0 -> is_byte b1 -> is_byte b2 ->
  loadBitrate (b0 :: b1 :: b2 :: rest)
  = Ok (decode_fields (b0 / 2 ^ 2) (b0 mod 2 ^ 2 * 2 ^ 16 + b1 * 2 ^ 8 + b2)).
Proof.
  unfold is_byte. intros H0 H1 H2. unfold loadBitrate.
  cbn [index lookup list_lookup].
  rewrite land_3, Z.shiftr_div_pow2 by lia.
  rewrite !Z.shiftl_mul_pow2 by lia.
  assert (0 <= b0 / 2 ^ 2 < 2 ^ 6) by (Z.div_mod_to_equations; lia).
  assert (0 <= b0 mod 2 ^ 2 < 2 ^ 2) by (apply Z.mod_pos_bound; lia).
  replace (Z.lor (b0 mod 2 ^ 2 * 2 ^ 16) (b1 * 2 ^ 8))
    with (b0 mod 2 ^ 2 * 2 ^ 16 + b1 * 2 ^ 8) by (rewrite lor_mul_add; lia).
  replace (b0 mod 2 ^ 2 * 2 ^ 16 + b1 * 2 ^ 8)
    with ((b0 mod 2 ^ 2 * 2 ^ 8 + b1) * 2 ^ 8) by ring.
  rewrite lor_mul_add by lia.
  set (M := (b0 mod 2 ^ 2 * 2 ^ 8 + b1) * 2 ^ 8 + b2).
  replace (b0 mod 2 ^ 2 * 2 ^ 16 + b1 * 2 ^ 8 + b2) with M by (unfold M; ring).
  assert (0 <= M < 2 ^ 18) by (unfold M; lia).
  unfold wrap8. rewrite (Z.mod_small (b0 / 2 ^ 2 + 127)) by lia.
  rewrite (Z.mod_small (b0 / 2 ^ 2 + 127 + 23)) by lia.
  unfold decode_fields. destruct (Z.eqb_spec M 0) as [-> | Hnz]; cbn [negb].
  - change (Z.land 0 mantissamax) with 0.
    rewrite Float32frombits_fields by lia. f_equal. f_equal. lia.
  - pose proof (Z.log2_spec M ltac:(lia)) as [Hlo Hhi].
    assert (0 <= Z.log2 M) by apply Z.log2_nonneg.
    assert (Z.log2 M < 18) by (apply Z.log2_lt_pow2; lia).
    set (k := 23 - Z.log2 M) in *.
    assert (Hk : 2 ^ 23 <= M * 2 ^ k < 2 ^ 24).
    { replace (2 ^ 23) with (2 ^ Z.log2 M * 2 ^ k)
        by (rewrite <- Z.pow_add_r by lia; f_equal; lia).
      replace (2 ^ 24) with (2 ^ Z.succ (Z.log2 M) * 2 ^ k)
        by (rewrite <- Z.pow_add_r by lia; f_equal; lia).
      assert (0 < 2 ^ k) by (apply Z.pow_pos_nonneg; lia). nia. }
    rewrite (loadBitrate_loop_spec (Z.to_nat k)) by (rewrite ?Z2Nat.id; lia).
    rewrite Z2Nat.id by lia.
    rewrite land_mantissamax, Float32frombits_fields.
    + f_equal. f_equal; [| lia]. f_equal. Z.div_mod_to_equations. lia.
    + lia.
    + apply Z.mod_pos_bound. lia.
Qed.

Lemma bytes3_eq (exp mantissa : Z) :
  0 <= exp < 2 ^ 6 -> 0 <= mantissa < 2 ^ 18 ->
  bytes3 exp mantissa
  = [exp * 2 ^ 2 + mantissa / 2 ^ 16; (mantissa / 2 ^ 8) mod 2 ^ 8; mantissa mod 2 ^ 8].
Proof.
  intros He Hm. unfold bytes3, byte, wrap8.
  rewrite Z.shiftl_mul_pow2, !Z.shiftr_div_pow2 by lia.
  assert (0 <= mantissa / 2 ^ 16 < 2 ^ 2) by (Z.div_mod_to_equations; lia).
  rewrite (Z.mod_small (exp * 2 ^ 2)) by lia.
  rewrite (Z.mod_small (mantissa / 2 ^ 16)) by lia.
  rewrite lor_mul_add by lia. reflexivity.
Qed.

Lemma loadBitrate_bytes3 (exp mantissa : Z) :
  0 <= exp < 2 ^ 6 -> 0 <= mantissa < 2 ^ 18 ->
  loadBitrate (bytes3 exp mantissa) = Ok (decode_fields exp mantissa).
Proof.
  intros He Hm. rewrite bytes3_eq by assumption.
  assert (0 <= mantissa / 2 ^ 16 < 2 ^ 2) by (Z.div_mod_to_equations; lia).
  rewrite loadBitrate_bytes.
  - f_equal. f_equal; Z.div_mod_to_equations; lia.
  - unfold is_byte. lia.
  - unfold is_byte. apply Z.mod_pos_bound. lia.
  - unfold is_byte. apply Z.mod_pos_bound. lia.
Qed.

Lemma SFcompare_finite (m1 m2 : positive) (e1 e2 : Z) :
  SFcompare (S754_finite false m1 e1) (S754_finite false m2 e2)
  = Some match e1 ?= e2 with
         | Lt => Lt
         | Gt => Gt
         | Eq => (m1 ?= m2)%positive
         end.
Proof. reflexivity. Qed.

Lemma clamp_below (m : positive) (e : Z) :
  f32_le (S754_finite false m e) bitratemax = true ->
  clamp (S754_finite false m e) = S754_finite false m e /\ e <= 57.
Proof.
  unfold clamp, f32_le, f32_ge, bitratemax, SFleb.
  rewrite !SFcompare_finite.
  generalize 16777152%positive. intros c.
  rewrite (Z.compare_antisym e 57), (Pos.compare_antisym m c).
  destruct (Z.compare_spec e 57) as [E | Hlt | Hgt]; cbn [CompOpp]; intros L;
    try discriminate L; try (split; [reflexivity | lia]).
  destruct (Pos.compare_spec m c) as [E' | Hlt | Hgt]; cbn [CompOpp] in *;
    try discriminate L; (split; [| lia]); try reflexivity.
  subst. reflexivity.
Qed.

Section Quantization.
Variable u : float32 -> Z.

(** The encoding of a float32 that is at least 1 and at most the ceiling:
    with [a] the number of low mantissa bits the 18-bit field drops, the
    fields are [e + a] and [m / 2^a], and they decode to [m] with its [a]
    low bits cleared, at the same exponent. *)
Lemma quantize_normal (m : positive) (e a : Z) :
  f32_valid (S754_finite false m e) = true ->
  f32_le (S754_finite false m e) bitratemax = true ->
  -23 <= e -> a = Z.max 6 (- e) ->
  encode u (S754_finite false m e) = Ok (bytes3 (e + a) (Z.pos m / 2 ^ a)) /\
  0 <= e + a < 2 ^ 6 /\ 0 < Z.pos m / 2 ^ a < 2 ^ 18 /\
  loadBitrate (bytes3 (e + a) (Z.pos m / 2 ^ a))
  = Ok (S754_finite false (Z.to_pos (Z.pos m / 2 ^ a * 2 ^ a)) e).
Proof.
  intros Hv Hle He Hdef.
  pose proof (f32_valid_finite _ _ _ Hv) as (_ & _ & Hn).
  pose proof (normal_bounds m (Hn ltac:(lia))) as Hm.
  destruct (clamp_below m e Hle) as [Hc He'].
  assert (Ha : 6 <= a <= 23) by lia.
  assert (Hp : 0 < 2 ^ a) by (apply Z.pow_pos_nonneg; lia).
  assert (Hq : 2 ^ (23 - a) <= Z.pos m / 2 ^ a < 2 ^ (24 - a)).
  { assert (2 ^ 23 = 2 ^ (23 - a) * 2 ^ a)
      by (rewrite <- Z.pow_add_r by lia; f_equal; lia).
    assert (2 ^ 24 = 2 ^ (24 - a) * 2 ^ a)
      by (rewrite <- Z.pow_add_r by lia; f_equal; lia).
    split.
    - apply Z.div_le_lower_bound; lia.
    - apply Z.div_lt_upper_bound; lia. }
  assert (H0 : 0 < 2 ^ (23 - a)) by (apply Z.pow_pos_nonneg; lia).
  assert (H18 : 2 ^ (24 - a) <= 2 ^ 18) by (apply Z.pow_le_mono_r; lia).
  assert (Hfields : 0 <= e + a < 2 ^ 6 /\ 0 < Z.pos m / 2 ^ a < 2 ^ 18) by lia.
  split; [| split; [apply Hfields | split; [apply Hfields |]]].
  - rewrite encode_eq, Hc.
    change (f32_lt (S754_finite false m e) f32_0) with false. cbv iota.
    rewrite putBitrate_loop_finite by assumption. unfold scaled.
    destruct (Z.leb_spec (-5) e) as [L | G].
    + replace (2 ^ 6 <=? e + 6) with false by (symmetry; apply Z.leb_gt; lia).
      cbn [floor_uint]. rewrite Z.shiftl_div_pow2 by lia.
      replace a with 6 in * by lia. change (- -6) with 6.
      replace (Z.pos m / 2 ^ 6 <? 2 ^ 64) with true
        by (symmetry; apply Z.ltb_lt; lia).
      reflexivity.
    + change (2 ^ 6 <=? 0) with false. cbv iota.
      cbn [floor_uint]. rewrite Z.shiftl_div_pow2 by lia.
      replace (- e) with a by lia.
      replace (Z.pos m / 2 ^ a <? 2 ^ 64) with true
        by (symmetry; apply Z.ltb_lt; lia).
      replace (e + a) with 0 by lia. reflexivity.
  - rewrite loadBitrate_bytes3 by lia.
    unfold decode_fields.
    replace (Z.pos m / 2 ^ a =? 0) with false by (symmetry; apply Z.eqb_neq; lia).
    assert (Z.log2 (Z.pos m / 2 ^ a) = 23 - a) as ->.
    { apply Z.log2_unique; [lia |].
      replace (Z.succ (23 - a)) with (24 - a) by lia. exact Hq. }
    replace (23 - (23 - a)) with a by lia.
    f_equal. f_equal. lia.
Qed.
End Quantization.

(** ** More on writes *)

Lemma write_app' (off k : nat) (a b : list Z) (st : store) :
  k = (off + length a)%nat -> (off + length a + length b <= length st)%nat ->
  write k b (write off a st) = write off (a ++ b) st.
Proof. intros ->. apply write_app. Qed.

Lemma write_all (bs st : list Z) : length bs = length st -> write 0 bs st = bs.
Proof.
  intros H. unfold write. cbn [take Nat.add app].
  rewrite H, drop_all. apply app_nil_r.
Qed.

Lemma write_nil (st : list Z) : write 0 [] st = st.
Proof. reflexivity. Qed.

(** Leaving a byte of a zeroed array alone is writing a zero to it. *)
Lemma write_zero (acc : list Z) (n : nat) :
  (length acc + 1 <= n)%nat ->
  write 0 acc (replicate n 0) = write 0 (acc ++ [0]) (replicate n 0).
Proof.
  intros H. unfold write. cbn [take Nat.add app]. rewrite <- app_assoc.
  f_equal. rewrite length_app. cbn [length app].
  rewrite !drop_replicate.
  replace (n - length acc)%nat with (S (n - (length acc + 1)))%nat by lia.
  reflexivity.
Qed.

Lemma length_be32 (v : Z) : length (be32 v) = 4%nat.
Proof. reflexivity. Qed.

Lemma length_flat_be32 (l : list Z) : length (flat_map be32 l) = (4 * length l)%nat.
Proof. induction l as [| x l IH]; cbn [flat_map length app be32]; lia. Qed.

(** ** Tactics *)

(** The side conditions of a write: the slice and the array are long enough. *)
Ltac side :=
  cbn [s_off s_len]; rewrite ?length_write; rewrite ?length_app;
  cbn [length app be16 be32]; lia.

(** One statement of a marshal routine: a slice expression or a write, the
    write merged with the bytes written before it. *)
Ltac write_step :=
  unfold bind at 1;
  first [ rewrite ssub_ok by (cbn [s_off s_len]; lia)
        | rewrite put_write by side
        | rewrite PutUint16_write by side
        | rewrite PutUint32_write by side ];
  try (cbn [s_off Nat.add]; rewrite write_app' by (cbn [length app be16 be32]; lia)).

(** One statement of an unmarshal routine: a read, or an assignment to the
    receiver. *)
Ltac ustep := unfold bind at 1; unfold lift at 1.
Ltac mstep := unfold bind at 1; unfold modify at 1.

(** ** [Marshal] *)

Section Marshal.
Variable u : float32 -> Z.

Lemma encode_length (x : float32) (bs : list Z) :
  encode u x = Ok bs -> length bs = 3%nat /\ Forall is_byte bs.
Proof.
  rewrite encode_eq. destruct (f32_lt _ _); [discriminate |].
  destruct (putBitrate_loop _ _ _) as [[r exp] |]; [| discriminate].
  destruct (2 ^ 6 <=? exp); [discriminate |].
  intros [= <-]. split; [apply bytes3_length | apply bytes3_bytes].
Qed.

Lemma REMB_wire_length (p : ReceiverEstimatedMaximumBitrate) (bs : list Z) :
  length bs = 3%nat -> length (REMB_wire p bs) = REMB_MarshalSize p.
Proof.
  intros H. unfold REMB_wire, REMB_MarshalSize.
  rewrite !length_app, H, length_flat_be32. cbn [length be16 be32]. lia.
Qed.

Lemma REMB_put_SSRCs_spec (buf : slice) (st0 : list Z) (ssrcs : list Z) :
  s_off buf = 0%nat ->
  forall (acc : list Z) (n : nat),
    n = length acc ->
    (n + 4 * length ssrcs <= s_len buf)%nat ->
    (n + 4 * length ssrcs <= length st0)%nat ->
    REMB_put_SSRCs buf n ssrcs (write 0 acc st0)
    = (Ok (n + 4 * length ssrcs)%nat, write 0 (acc ++ flat_map be32 ssrcs) st0).
Proof.
  intros Hoff. induction ssrcs as [| ssrc rest IH]; intros acc n Hn Hl Hs.
  - cbn [REMB_put_SSRCs flat_map length]. rewrite app_nil_r.
    unfold ret. do 2 f_equal. lia.
  - cbn [REMB_put_SSRCs flat_map length] in *. unfold bind at 1.
    rewrite ssub_ok by lia. unfold bind at 1.
    rewrite PutUint32_write
      by (cbn [s_off s_len]; rewrite ?length_write; lia).
    cbn [s_off]. rewrite Hoff.
    rewrite write_app' by (rewrite ?length_be32; lia).
    rewrite (IH (acc ++ be32 ssrc) (n + 4)%nat)
      by (rewrite ?length_app, ?length_be32; lia).
    rewrite <- app_assoc. do 2 f_equal. lia.
Qed.

Theorem REMB_Marshal_eq (p : ReceiverEstimatedMaximumBitrate) :
  REMB_Marshal u p =
  match encode u (remb_Bitrate p) with
  | Ok bs => Ok (REMB_wire p bs)
  | Err e => Err e
  | Panic => Panic
  | OutOfFuel => OutOfFuel
  end.
Proof.
  unfold REMB_Marshal, make, REMB_MarshalTo.
  cbn [s_len]. rewrite Nat.ltb_irrefl.
  set (size := REMB_MarshalSize p).
  set (st0 := replicate size 0).
  assert (Hsize : size = (20 + 4 * length (remb_SSRCs p))%nat) by reflexivity.
  assert (Hst : length st0 = size) by apply length_replicate.
  rewrite <- (write_nil st0).
  do 13 write_step.
  unfold bind at 1. rewrite ssub_ok by (cbn [s_off s_len]; lia).
  unfold bind at 1.
  rewrite putBitrate_frame by (cbn [s_off s_len]; rewrite ?length_write; cbn [length app be16 be32]; lia).
  destruct (encode u (remb_Bitrate p)) as [bs | e | |] eqn:Henc; try reflexivity.
  destruct (encode_length _ _ Henc) as [Hbs _].
  cbn [s_off Nat.add]. rewrite write_app' by (cbn [length app be16 be32]; lia).
  rewrite REMB_put_SSRCs_spec;
    try reflexivity; try (rewrite ?length_app, ?Hbs; cbn [length app be16 be32 s_len]; lia).
  replace (20 + 4 * length (remb_SSRCs p) =? size)%nat with true
    by (symmetry; apply Nat.eqb_eq; lia).
  cbn [negb]. f_equal.
  rewrite write_all.
  - unfold REMB_wire. cbn [app be16 be32]. rewrite <- ?app_assoc. reflexivity.
  - rewrite Hst, !length_app, Hbs, length_flat_be32. cbn [length be16 be32]. lia.
Qed.

End Marshal.

Section MarshalTMMB.
Variable u : float32 -> Z.

Lemma TMMB_wire_entries_length (entries : list TMMBEntry) (tl : list Z) :
  TMMB_wire_entries u entries = Ok tl -> length tl = (8 * length entries)%nat.
Proof.
  revert tl. induction entries as [| entry rest IH]; intros tl.
  - intros [= <-]. reflexivity.
  - cbn [TMMB_wire_entries].
    destruct (encode u (Bitrate entry)) as [bs | | |] eqn:Henc; try discriminate.
    destruct (TMMB_wire_entries u rest) as [tl' | | |]; try discriminate.
    intros [= <-]. destruct (encode_length u _ _ Henc) as [Hbs _].
    cbn [length]. rewrite length_app. cbn [length]. rewrite Hbs, (IH tl' eq_refl). lia.
Qed.

Lemma TMMB_put_Entries_spec (n : nat) (body : slice) (entries : list TMMBEntry) :
  s_off body = 4%nat ->
  forall (acc : list Z) (i : nat),
    length acc = (12 + 8 * i)%nat ->
    (4 + s_len body = n)%nat ->
    (12 + 8 * i + 8 * length entries <= n)%nat ->
    agrees (TMMB_put_Entries u body i entries (write 0 acc (replicate n 0)))
           (TMMB_wire_entries u entries)
           (fun tl => write 0 (acc ++ tl) (replicate n 0)).
Proof.
  intros Hoff. induction entries as [| entry rest IH]; intros acc i Hacc Hn Hle.
  - cbn. rewrite app_nil_r. reflexivity.
  - cbn [TMMB_put_Entries TMMB_wire_entries length] in *.
    assert (Hst : length (replicate n 0) = n) by apply length_replicate.
    unfold ssrcLength, sfrom in *.
    unfold bind at 1. rewrite ssub_ok by lia.
    unfold bind at 1. rewrite PutUint32_write by side.
    cbn [s_off]. rewrite Hoff.
    rewrite write_app' by (cbn [length be32]; lia).
    unfold bind at 1. rewrite ssub_ok by lia.
    unfold bind at 1. rewrite putBitrate_frame by side.
    destruct (encode u (Bitrate entry)) as [bs | e | |] eqn:Henc; try reflexivity.
    destruct (encode_length u _ _ Henc) as [Hbs _].
    cbn [s_off]. rewrite Hoff.
    rewrite write_app' by (rewrite ?length_app, ?Hbs; cbn [length be32]; lia).
    rewrite write_zero by (rewrite ?length_app, ?Hbs; cbn [length be32]; lia).
    specialize (IH (((acc ++ be32 (MediaSSRC entry)) ++ bs) ++ [0]) (S i)).
    specialize (IH ltac:(rewrite ?length_app, ?Hbs; cbn [length be32]; lia)
                   ltac:(lia) ltac:(lia)).
    unfold agrees in *.
    destruct (TMMB_wire_entries u rest) as [tl | e | |]; try exact IH.
    rewrite IH. rewrite <- !app_assoc. reflexivity.
Qed.

Theorem TMMB_Marshal_eq (format : Z) (p : TMMB) :
  TMMB_Marshal u format p =
  match TMMB_wire_entries u (Entries p) with
  | Ok tl =>
      Ok (TMMB_wire_header format p ++ be32 (SenderSSRC p) ++ be32 0 ++ tl)
  | Err e => Err e
  | Panic => Panic
  | OutOfFuel => OutOfFuel
  end.
Proof.
  unfold TMMB_Marshal, make, Header_Marshal, TMMB_Header, copy.
  cbn [Padding Count Type_ Length copy_from s_len].
  set (size := TMMB_MarshalSize p).
  assert (Hsize : size = (12 + 8 * length (Entries p))%nat)
    by (unfold size, TMMB_MarshalSize, headerLength, ssrcLength; lia).
  assert (Hst : length (replicate size 0) = size) by apply length_replicate.
  replace (0 <? size)%nat with true by (symmetry; apply Nat.ltb_lt; lia).
  replace (1 <? size)%nat with true by (symmetry; apply Nat.ltb_lt; lia).
  replace (2 <? size)%nat with true by (symmetry; apply Nat.ltb_lt; lia).
  replace (3 <? size)%nat with true by (symmetry; apply Nat.ltb_lt; lia).
  unfold headerLength, ssrcLength, sfrom.
  rewrite <- (write_nil (replicate size 0)) at 1.
  unfold bind at 1.
  do 4 (unfold bind at 1; rewrite put_write by side;
        cbn [s_off Nat.add]; rewrite write_app' by (cbn [length app]; lia)).
  unfold ret at 1.
  unfold bind at 1. rewrite ssub_ok by side.
  unfold bind at 1. rewrite PutUint32_write by side.
  cbn [s_off Nat.add]. rewrite write_app' by (cbn [length app be32]; lia).
  unfold bind at 1. rewrite ssub_ok by side.
  unfold bind at 1. rewrite PutUint32_write by side.
  cbn [s_off Nat.add]. rewrite write_app' by (cbn [length app be32]; lia).
  cbn [s_len].
  pose proof (TMMB_put_Entries_spec size (Slice 4 (size - 4)) (Entries p) eq_refl
                ((((((([] ++ [Z.lor (Z.lor (Z.shiftl 2 6) 0) (Z.land format 31)])
                     ++ [byte TypeTransportSpecificFeedback])
                    ++ [byte (Z.shiftr (wrap16 (Z.of_nat size / 4 - 1)) 8)])
                   ++ [byte (wrap16 (Z.of_nat size / 4 - 1))])
                  ++ be32 (SenderSSRC p)) ++ be32 0)) 0%nat) as H.
  specialize (H ltac:(cbn [length app be32]; lia) ltac:(cbn [s_len]; lia) ltac:(lia)).
  unfold agrees in H.
  pose proof (TMMB_wire_entries_length (Entries p)) as Hlen.
  destruct (TMMB_wire_entries u (Entries p)) as [tl | e | |].
  - rewrite H. f_equal. rewrite write_all.
    + unfold TMMB_wire_header. cbn [app be16 be32]. rewrite <- ?app_assoc. reflexivity.
    + rewrite Hst, !length_app, (Hlen tl eq_refl). cbn [length be32]. lia.
  - destruct (TMMB_put_Entries _ _ _ _ _) as [r st']. cbn [fst] in H. now subst r.
  - destruct (TMMB_put_Entries _ _ _ _ _) as [r st']. cbn [fst] in H. now subst r.
  - destruct (TMMB_put_Entries _ _ _ _ _) as [r st']. cbn [fst] in H. now subst r.
Qed.

End MarshalTMMB.

(** ** [Unmarshal] of what [Marshal] returned *)

Lemma sub_mid (pre mid post : list Z) (lo hi : nat) :
  lo = length pre -> hi = (lo + length mid)%nat ->
  sub (pre ++ mid ++ post) lo hi = Ok mid.
Proof.
  intros -> ->. unfold sub.
  replace (length pre <=? length pre + length mid)%nat with true
    by (symmetry; apply Nat.leb_le; lia).
  replace (length pre + length mid <=? length (pre ++ mid ++ post))%nat with true
    by (symmetry; apply Nat.leb_le; rewrite !length_app; lia).
  cbn [andb]. rewrite drop_app_length.
  replace (length pre + length mid - length pre)%nat with (length mid) by lia.
  rewrite take_app_length. reflexivity.
Qed.

Lemma from_app (pre post : list Z) (lo : nat) :
  lo = length pre -> from (pre ++ post) lo = Ok post.
Proof.
  intros ->. unfold from.
  rewrite <- (app_nil_r post) at 1.
  rewrite sub_mid; [reflexivity | reflexivity |].
  rewrite !length_app. cbn [length]. lia.
Qed.

Lemma Uint16_be16' (v : Z) : 0 <= v < 2 ^ 16 -> Uint16 (be16 v) = Ok v.
Proof. intros H. rewrite <- (app_nil_r (be16 v)). now apply Uint16_be16. Qed.

Lemma Uint32_be32' (v : Z) : is_uint32 v -> Uint32 (be32 v) = Ok v.
Proof. intros H. rewrite <- (app_nil_r (be32 v)). now apply Uint32_be32. Qed.

Lemma REMB_get_SSRCs_spec (buf : list Z) (size : nat) (sender : Z) (br : float32)
    (ssrcs : list Z) :
  Forall is_uint32 ssrcs ->
  size = length buf ->
  forall (pre acc : list Z) (fuel n : nat),
    buf = pre ++ flat_map be32 ssrcs ->
    n = length pre ->
    (length ssrcs <= fuel)%nat ->
    REMB_get_SSRCs fuel buf n size (REMB sender br acc)
    = (Ok tt, REMB sender br (acc ++ ssrcs)).
Proof.
  intros Hall Hsize. induction Hall as [| ssrc rest Hx Hrest IH];
    intros pre acc fuel n Hbuf Hn Hfuel.
  - cbn [flat_map] in Hbuf. rewrite app_nil_r in *. subst.
    destruct fuel; cbn [REMB_get_SSRCs]; rewrite Nat.ltb_irrefl; reflexivity.
  - destruct fuel as [| fuel]; [cbn [length] in Hfuel; lia |].
    cbn [REMB_get_SSRCs flat_map length] in *.
    replace (n <? size)%nat with true
      by (symmetry; apply Nat.ltb_lt; subst; rewrite !length_app; cbn [length be32]; lia).
    rewrite Hbuf at 1.
    rewrite (sub_mid pre (be32 ssrc)) by (try assumption; cbn [length be32]; lia).
    unfold bind at 1. unfold lift at 1.
    rewrite Uint32_be32' by assumption.
    unfold bind at 1. unfold lift at 1.
    unfold bind at 1. unfold modify at 1. cbn [remb_SenderSSRC remb_Bitrate remb_SSRCs].
    rewrite (IH (pre ++ be32 ssrc) (acc ++ [ssrc]) fuel (n + 4)%nat).
    + rewrite <- app_assoc. reflexivity.
    + rewrite Hbuf, <- app_assoc. reflexivity.
    + rewrite length_app. cbn [length be32]. lia.
    + lia.
Qed.

Section Roundtrip.
Variable u : float32 -> Z.

Lemma quantized_total (x : float32) :
  f32_valid x = true -> f32_lt x f32_0 = false ->
  exists b0 b1 b2 q,
    encode u x = Ok [b0; b1; b2] /\ loadBitrate [b0; b1; b2] = Ok q /\
    quantized u x = Ok q.
Proof.
  intros Hv Hn. pose proof (encode_total u x Hv) as H. rewrite Hn in H.
  destruct H as (bs & Henc & Hlen & Hb).
  destruct bs as [| b0 [| b1 [| b2 [| ? ?]]]]; try discriminate Hlen.
  inversion Hb as [| ? ? H0 Hb']; subst.
  inversion Hb' as [| ? ? H1 Hb'']; subst.
  inversion Hb'' as [| ? ? H2 _]; subst.
  exists b0, b1, b2. eexists. split; [exact Henc |].
  unfold quantized. rewrite Henc.
  rewrite loadBitrate_bytes by assumption. split; reflexivity.
Qed.

Theorem REMB_roundtrip (p p0 : ReceiverEstimatedMaximumBitrate) :
  is_uint32 (remb_SenderSSRC p) ->
  Forall is_uint32 (remb_SSRCs p) ->
  (length (remb_SSRCs p) <= 255)%nat ->
  f32_valid (remb_Bitrate p) = true ->
  f32_lt (remb_Bitrate p) f32_0 = false ->
  exists bytes q,
    REMB_Marshal u p = Ok bytes /\
    quantized u (remb_Bitrate p) = Ok q /\
    REMB_Unmarshal bytes p0 = (Ok tt, REMB (remb_SenderSSRC p) q (remb_SSRCs p)).
Proof.
  intros Hs Hall Hlen Hv Hn.
  destruct (quantized_total _ Hv Hn) as (b0 & b1 & b2 & q & Henc & Hload & Hq).
  rewrite REMB_Marshal_eq, Henc. eexists _, q. split; [reflexivity |]. split; [exact Hq |].
  destruct p as [sender br ssrcs]. cbn [remb_SenderSSRC remb_Bitrate remb_SSRCs] in *.
  set (n := length ssrcs) in *.
  assert (HL : wrap16 (Z.of_nat (REMB_MarshalSize (REMB sender br ssrcs)) / 4 - 1)
               = Z.of_nat n + 4).
  { unfold REMB_MarshalSize, wrap16. cbn [remb_SSRCs]. fold n.
    replace (Z.of_nat (20 + 4 * n) / 4 - 1) with (Z.of_nat n + 4)
      by (Z.div_mod_to_equations; lia).
    apply Z.mod_small. lia. }
  unfold REMB_wire. rewrite HL. cbn [remb_SenderSSRC remb_SSRCs]. fold n.
  set (wire := [143; 206] ++ be16 (Z.of_nat n + 4) ++ be32 sender ++ be32 0
               ++ [82; 69; 77; 66] ++ [byte (Z.of_nat n)] ++ [b0; b1; b2]
               ++ flat_map be32 ssrcs).
  assert (Hwl : length wire = (20 + 4 * n)%nat).
  { unfold wire. rewrite !length_app, length_flat_be32. cbn [length be16 be32]. lia. }
  assert (R0 : index wire 0 = Ok 143) by reflexivity.
  assert (R1 : index wire 1 = Ok 206) by reflexivity.
  assert (R2 : sub wire 2 4 = Ok (be16 (Z.of_nat n + 4))) by reflexivity.
  assert (R4 : sub wire 4 8 = Ok (be32 sender)) by reflexivity.
  assert (R8 : sub wire 8 12 = Ok (be32 0)) by reflexivity.
  assert (R12 : sub wire 12 16 = Ok [82; 69; 77; 66]) by reflexivity.
  assert (R16 : index wire 16 = Ok (byte (Z.of_nat n))) by reflexivity.
  assert (R17 : sub wire 17 20 = Ok [b0; b1; b2]) by reflexivity.
  unfold REMB_Unmarshal.
  rewrite R0, R1, R2, R4, R8, R12, R16, R17, Hwl.
  replace (20 + 4 * n <? 20)%nat with false by (symmetry; apply Nat.ltb_ge; lia).
  ustep. change (negb (Z.shiftr 143 6 =? 2)) with false. cbv iota.
  change (negb (Z.land (Z.shiftr 143 5) 1 =? 0)) with false. cbv iota.
  change (negb (Z.land 143 31 =? 15)) with false. cbv iota.
  ustep. change (negb (206 =? 206)) with false. cbv iota.
  ustep. rewrite Uint16_be16' by lia. ustep.
  assert (Hsz : Z.to_nat (wrap16 (wrap16 (Z.of_nat n + 4 + 1) * 4)) = (20 + 4 * n)%nat).
  { unfold wrap16. rewrite (Z.mod_small (Z.of_nat n + 4 + 1)) by lia.
    rewrite Z.mod_small by lia. lia. }
  rewrite Hsz.
  replace (20 + 4 * n <? 20)%nat with false by (symmetry; apply Nat.ltb_ge; lia).
  rewrite Nat.ltb_irrefl.
  ustep. rewrite Uint32_be32' by assumption. ustep. mstep.
  ustep. change (Uint32 (be32 0)) with (@Ok Z 0). ustep.
  change (negb (0 =? 0)) with false. cbv iota.
  ustep. rewrite bool_decide_eq_true_2 by reflexivity. cbn [negb].
  ustep.
  assert (Hnum : Z.to_nat (byte (Z.of_nat n)) = n).
  { unfold byte, wrap8. rewrite Z.mod_small by lia. lia. }
  rewrite Hnum, Nat.eqb_refl. cbn [negb].
  ustep. rewrite Hload. ustep. mstep. mstep.
  cbn [remb_SenderSSRC remb_Bitrate remb_SSRCs].
  rewrite (REMB_get_SSRCs_spec wire (20 + 4 * n) sender q ssrcs Hall (eq_sym Hwl)
             ([143; 206] ++ be16 (Z.of_nat n + 4) ++ be32 sender ++ be32 0
              ++ [82; 69; 77; 66] ++ [byte (Z.of_nat n)] ++ [b0; b1; b2]) []).
  - reflexivity.
  - unfold wire. rewrite <- !app_assoc. reflexivity.
  - reflexivity.
  - fold n. lia.
Qed.

End Roundtrip.

Lemma set_entry_middle (sender : Z) (done rest : list TMMBEntry) (entry : TMMBEntry)
    (i : nat) (f : TMMBEntry -> TMMBEntry) :
  i = length done ->
  set_entry i f (MkTMMB sender (done ++ entry :: rest))
  = (Ok tt, MkTMMB sender (done ++ f entry :: rest)).
Proof.
  intros ->. unfold set_entry. cbn [Entries SenderSSRC].
  rewrite list_lookup_middle by reflexivity.
  rewrite <- (Nat.add_0_r (length done)), insert_app_r. reflexivity.
Qed.

Section RoundtripTMMB.
Variable u : float32 -> Z.

Lemma TMMB_get_Entries_spec (sender : Z) (entries : list TMMBEntry) :
  Forall (fun entry => is_uint32 (MediaSSRC entry)) entries ->
  forall (tl pre : list Z) (done : list TMMBEntry) (i : nat),
    TMMB_wire_entries u entries = Ok tl ->
    length pre = (8 + 8 * i)%nat ->
    length done = i ->
    exists out,
      Forall2 (comes_back u) entries out /\
      TMMB_get_Entries (pre ++ tl) (length entries) i
        (MkTMMB sender (done ++ replicate (length entries) (Entry 0 f32_0)))
      = (Ok tt, MkTMMB sender (done ++ out)).
Proof.
  intros Hall. induction Hall as [| entry rest Hx Hrest IH];
    intros tl pre done i Hw Hpre Hdone.
  - exists []. split; [constructor | reflexivity].
  - cbn [TMMB_wire_entries] in Hw.
    destruct (encode u (Bitrate entry)) as [bs | | |] eqn:Henc; try discriminate Hw.
    destruct (TMMB_wire_entries u rest) as [tl' | | |] eqn:Hrec; try discriminate Hw.
    destruct (encode_length u _ _ Henc) as [Hlen Hb].
    destruct bs as [| b0 [| b1 [| b2 [| ? ?]]]]; try discriminate Hlen.
    assert (Htl : tl = be32 (MediaSSRC entry) ++ [b0; b1; b2] ++ [0] ++ tl')
      by congruence.
    clear Hw. subst tl.
    inversion Hb as [| ? ? H0 Hb']; subst.
    inversion Hb' as [| ? ? H1 Hb'']; subst.
    inversion Hb'' as [| ? ? H2 _]; subst.
    cbn [length TMMB_get_Entries replicate]. unfold ssrcLength.
    rewrite from_app by lia.
    ustep. rewrite Uint32_be32 by assumption. ustep.
    unfold bind at 1. rewrite set_entry_middle by reflexivity.
    rewrite (app_assoc pre (be32 (MediaSSRC entry))).
    rewrite from_app by (rewrite length_app; cbn [length be32]; lia).
    ustep. change ([b0; b1; b2] ++ [0] ++ tl') with (b0 :: b1 :: b2 :: [0] ++ tl').
    rewrite loadBitrate_bytes by assumption. ustep.
    unfold bind at 1. rewrite set_entry_middle by reflexivity.
    cbn [MediaSSRC Bitrate].
    set (q := decode_fields (b0 / 2 ^ 2) (b0 mod 2 ^ 2 * 2 ^ 16 + b1 * 2 ^ 8 + b2)).
    destruct (IH tl' ((pre ++ be32 (MediaSSRC entry)) ++ [b0; b1; b2] ++ [0])
                (done ++ [Entry (MediaSSRC entry) q]) (S (length done)) eq_refl)
      as (out & Hout & Hrun).
    + rewrite !length_app. cbn [length be32]. lia.
    + rewrite length_app. cbn [length]. lia.
    + exists (Entry (MediaSSRC entry) q :: out). split.
      * constructor; [| exact Hout]. split; [reflexivity |].
        unfold quantized. rewrite Henc. cbn [Bitrate].
        rewrite loadBitrate_bytes by assumption. reflexivity.
      * rewrite <- !app_assoc in Hrun. rewrite <- ?app_assoc.
        exact Hrun.
Qed.

Lemma TMMB_wire_entries_total (entries : list TMMBEntry) :
  Forall (fun entry => f32_valid (Bitrate entry) = true /\
                       f32_lt (Bitrate entry) f32_0 = false) entries ->
  exists tl, TMMB_wire_entries u entries = Ok tl.
Proof.
  induction 1 as [| entry rest [Hv Hn] _ [tl IH]].
  - exists []. reflexivity.
  - destruct (quantized_total u _ Hv Hn) as (b0 & b1 & b2 & q & Henc & _ & _).
    cbn [TMMB_wire_entries]. rewrite Henc, IH. eexists. reflexivity.
Qed.

Lemma format_byte (format : Z) :
  0 <= format < 2 ^ 5 ->
  Z.lor (Z.lor (Z.shiftl 2 6) 0) (Z.land format 31) = 2 * 2 ^ 6 + format.
Proof.
  intros H. rewrite land_31, Z.mod_small by lia.
  change (Z.lor (Z.shiftl 2 6) 0) with (2 * 2 ^ 6).
  apply lor_mul_add; lia.
Qed.

Theorem TMMB_roundtrip (format : Z) (p p0 : TMMB) :
  0 <= format < 2 ^ 5 ->
  is_uint32 (SenderSSRC p) ->
  Forall (fun entry => is_uint32 (MediaSSRC entry) /\
                       f32_valid (Bitrate entry) = true /\
                       f32_lt (Bitrate entry) f32_0 = false) (Entries p) ->
  Z.of_nat (length (Entries p)) <= 32766 ->
  exists bytes entries',
    TMMB_Marshal u format p = Ok bytes /\
    Forall2 (comes_back u) (Entries p) entries' /\
    TMMB_Unmarshal format bytes p0 = (Ok tt, MkTMMB (SenderSSRC p) entries').
Proof.
  intros Hf Hs Hall Hlen.
  destruct p as [sender entries]. cbn [SenderSSRC Entries] in *.
  assert (Hall1 : Forall (fun entry => is_uint32 (MediaSSRC entry)) entries)
    by (eapply Forall_impl; [exact Hall | intros ? (? & _); assumption]).
  assert (Hall2 : Forall (fun entry => f32_valid (Bitrate entry) = true /\
                                       f32_lt (Bitrate entry) f32_0 = false) entries)
    by (eapply Forall_impl; [exact Hall | intros ? (_ & ?); assumption]).
  destruct (TMMB_wire_entries_total entries Hall2) as [tl Htl].
  pose proof (TMMB_wire_entries_length u entries tl Htl) as Htll.
  set (n := length entries) in *.
  rewrite TMMB_Marshal_eq. cbn [Entries SenderSSRC]. rewrite Htl.
  assert (HL : wrap16 (Z.of_nat (TMMB_MarshalSize (MkTMMB sender entries)) / 4 - 1)
               = 2 * Z.of_nat n + 2).
  { unfold TMMB_MarshalSize, headerLength, ssrcLength, wrap16. cbn [Entries]. fold n.
    replace (Z.of_nat (4 + 4 * 2 + n * (2 * 4)) / 4 - 1) with (2 * Z.of_nat n + 2)
      by (Z.div_mod_to_equations; lia).
    apply Z.mod_small. lia. }
  unfold TMMB_wire_header. rewrite HL, format_byte by assumption.
  set (L := 2 * Z.of_nat n + 2) in *.
  set (body := be32 sender ++ be32 0 ++ tl).
  set (wire := ([2 * 2 ^ 6 + format; byte TypeTransportSpecificFeedback] ++ be16 L) ++ body).
  destruct (TMMB_get_Entries_spec sender entries Hall1 tl (be32 sender ++ be32 0) [] 0%nat
              Htl eq_refl eq_refl) as (out & Hout & Hrun).
  exists wire, out. split; [reflexivity |]. split; [exact Hout |].
  assert (Hwl : length wire = (12 + 8 * n)%nat).
  { unfold wire, body. rewrite !length_app, Htll. cbn [length be16 be32]. lia. }
  assert (Hhdr : Header_Unmarshal wire
                 = Ok (MkHeader false format TypeTransportSpecificFeedback L)).
  { unfold Header_Unmarshal. rewrite Hwl. unfold headerLength.
    replace (12 + 8 * n <? 4)%nat with false by (symmetry; apply Nat.ltb_ge; lia).
    change (index wire 0) with (@Ok Z (2 * 2 ^ 6 + format)).
    change (index wire 1) with (@Ok Z (byte TypeTransportSpecificFeedback)).
    replace (from wire 2) with (@Ok (list Z) (be16 L ++ body)).
    2: { symmetry. unfold wire. rewrite <- app_assoc.
         apply (from_app [2 * 2 ^ 6 + format; byte TypeTransportSpecificFeedback]).
         reflexivity. }
    rewrite Z.shiftr_div_pow2 by lia.
    replace ((2 * 2 ^ 6 + format) / 2 ^ 6) with 2 by (Z.div_mod_to_equations; lia).
    cbn [Z.eqb negb Pos.eqb].
    rewrite Uint16_be16 by (unfold L; lia).
    rewrite land_1, land_31, Z.shiftr_div_pow2 by lia.
    replace (((2 * 2 ^ 6 + format) / 2 ^ 5) mod 2 ^ 1) with 0
      by (Z.div_mod_to_equations; lia).
    replace ((2 * 2 ^ 6 + format) mod 2 ^ 5) with format
      by (Z.div_mod_to_equations; lia).
    reflexivity. }
  unfold TMMB_Unmarshal. rewrite Hwl, Hhdr. unfold headerLength, ssrcLength.
  replace (12 + 8 * n <? 4 + 4 * 2)%nat with false by (symmetry; apply Nat.ltb_ge; lia).
  ustep. cbn [Length Type_ Count].
  replace (12 + 8 * n <? Z.to_nat (wrap16 (wrap16 (L + 1) * 4)))%nat with false.
  2: { symmetry. apply Nat.ltb_ge. unfold wrap16.
       rewrite (Z.mod_small (L + 1)) by (unfold L; lia).
       pose proof (Z.mod_le ((L + 1) * 4) (2 ^ 16) ltac:(unfold L; lia) ltac:(lia)).
       pose proof (Z.mod_pos_bound ((L + 1) * 4) (2 ^ 16) ltac:(lia)).
       unfold L in *. lia. }
  rewrite !Z.eqb_refl. cbn [negb orb].
  replace (from wire 4) with (@Ok (list Z) body)
    by (symmetry; apply from_app; reflexivity).
  ustep. unfold body at 1. rewrite Uint32_be32 by assumption. ustep. mstep. mstep.
  cbn [SenderSSRC Entries].
  replace (Z.to_nat (wrap16 (L - 2) / 2)) with n.
  2: { unfold wrap16. rewrite Z.mod_small by (unfold L; lia).
       unfold L. Z.div_mod_to_equations. lia. }
  unfold body. rewrite (app_assoc (be32 sender)).
  exact Hrun.
Qed.

End RoundtripTMMB.

(** ** Facts the claims rest on *)

Lemma f32_ge_1 (x : float32) :
  f32_le f32_1 x = true -> f32_lt x bitratemax = true ->
  exists m e, x = S754_finite false m e /\ -23 <= e /\ f32_le x bitratemax = true.
Proof.
  intros H1 Hmax.
  destruct x as [s | [|] | | [|] m e]; try discriminate H1; try discriminate Hmax.
  exists m, e. split; [reflexivity |]. split.
  - unfold f32_le, f32_1, SFleb, SFcompare in H1.
    destruct (Z.compare_spec (-23) e); try discriminate H1; lia.
  - unfold f32_lt, SFltb in Hmax. unfold f32_le, SFleb.
    destruct (SFcompare _ _) as [[| |] |]; try discriminate Hmax; reflexivity.
Qed.

Lemma valid_entries (entries : list TMMBEntry) :
  Forall valid_bitrate (map Bitrate entries) ->
  Forall (fun entry => is_uint32 (MediaSSRC entry)) entries ->
  Forall (fun entry => is_uint32 (MediaSSRC entry) /\
                       f32_valid (Bitrate entry) = true /\
                       f32_lt (Bitrate entry) f32_0 = false) entries.
Proof.
  induction entries as [| entry rest IH]; intros Hb Hs; [constructor |].
  cbn [map] in Hb. inversion Hb as [| ? ? [Hv Hn] Hb']; subst.
  inversion Hs as [| ? ? Hx Hs']; subst.
  constructor; [auto | apply IH; assumption].
Qed.

Lemma REMB_wire_count (p : ReceiverEstimatedMaximumBitrate) (bs : list Z) :
  REMB_wire p bs !! 16%nat = Some (byte (Z.of_nat (length (remb_SSRCs p)))).
Proof. reflexivity. Qed.

Lemma REMB_wire_length_field (p : ReceiverEstimatedMaximumBitrate) (bs : list Z) :
  sub (REMB_wire p bs) 2 4
  = Ok (be16 (wrap16 (Z.of_nat (REMB_MarshalSize p) / 4 - 1))).
Proof. reflexivity. Qed.

(** The loop of [bitrateUnit] ends within its bound: it stops at the latest
    when [powers] reaches the length of the table. *)
Lemma bitrateUnit_loop_terminates (fuel : nat) :
  forall (x : float32) (powers : nat),
    (length bitUnits <= powers + fuel)%nat ->
    exists (r : float32) (powers' : nat),
      bitrateUnit_loop fuel x powers = Some (r, powers') /\
      (powers' <= Nat.max powers (length bitUnits))%nat.
Proof.
  induction fuel as [| fuel IH]; intros x powers Hf; cbn [bitrateUnit_loop].
  - replace (powers <? length bitUnits)%nat with false
      by (symmetry; apply Nat.ltb_ge; lia).
    rewrite andb_false_r. eexists _, _. split; [reflexivity | lia].
  - destruct (f32_ge x f32_1000 && (powers <? length bitUnits)%nat) eqn:C.
    + apply andb_true_iff in C as [_ C]. apply Nat.ltb_lt in C.
      destruct (IH (f32_div x f32_1000) (S powers) ltac:(lia)) as (r & k & -> & Hk).
      eexists _, _. split; [reflexivity | lia].
    + eexists _, _. split; [reflexivity | lia].
Qed.

Lemma bitrateUnit_terminates (x : float32) : bitrateUnit x <> OutOfFuel.
Proof.
  unfold bitrateUnit.
  destruct (bitrateUnit_loop_terminates 8 x 0 ltac:(cbn; lia)) as (r & k & -> & _).
  destruct (bitUnits !! k); discriminate.
Qed.

(** * The claims *)

(** ** C1: round trip *)

(** C1. For every valid REMB, TMMBR or TMMBN packet, [Marshal] succeeds, and
    [Unmarshal] of its bytes into any receiver of the same type succeeds and
    leaves the packet itself in the receiver, with each bitrate replaced by
    [loadBitrate] of what [putBitrate] wrote for it. *)
Theorem marshal_unmarshal_roundtrip (u : float32 -> Z) (pk receiver : Packet) :
  valid_packet pk ->
  same_type pk receiver ->
  exists bytes pk',
    Marshal u pk = Ok bytes /\
    Unmarshal bytes receiver = (Ok tt, pk') /\
    quantized_packet u pk pk'.
Proof.
  intros [Hb Hv] Hty.
  destruct pk as [p | p | p]; destruct receiver as [p0 | p0 | p0];
    try contradiction; cbn [Marshal Unmarshal bitrates] in *.
  - destruct Hv as (Hs & Hall & Hlen).
    inversion Hb as [| ? ? [Hbv Hbn] _]; subst.
    destruct (REMB_roundtrip u p p0 Hs Hall ltac:(lia) Hbv Hbn)
      as (bytes & q & HM & Hq & HU).
    exists bytes, (PacketREMB (REMB (remb_SenderSSRC p) q (remb_SSRCs p))).
    rewrite HM, HU. repeat split; assumption.
  - destruct Hv as (Hs & Hall & Hlen).
    destruct (TMMB_roundtrip u FormatTMMBR p p0 ltac:(unfold FormatTMMBR; lia) Hs
                (valid_entries _ Hb Hall) Hlen) as (bytes & entries' & HM & Hq & HU).
    exists bytes, (PacketTMMBR (MkTMMB (SenderSSRC p) entries')).
    unfold TMMBR_Marshal, TMMBR_Unmarshal. rewrite HM, HU. repeat split; assumption.
  - destruct Hv as (Hs & Hall & Hlen).
    destruct (TMMB_roundtrip u FormatTMMBN p p0 ltac:(unfold FormatTMMBN; lia) Hs
                (valid_entries _ Hb Hall) Hlen) as (bytes & entries' & HM & Hq & HU).
    exists bytes, (PacketTMMBN (MkTMMB (SenderSSRC p) entries')).
    unfold TMMBN_Marshal, TMMBN_Unmarshal. rewrite HM, HU. repeat split; assumption.
Qed.

(** C1 at the packet of [TestTMMBNMarshal]. *)
Lemma marshal_unmarshal_roundtrip_witness :
  valid_packet example_TMMBN /\
  same_type example_TMMBN (PacketTMMBN (MkTMMB 0 [])) /\
  exists bytes pk',
    Marshal uint_zero example_TMMBN = Ok bytes /\
    Unmarshal bytes (PacketTMMBN (MkTMMB 0 [])) = (Ok tt, pk') /\
    quantized_packet uint_zero example_TMMBN pk'.
Proof.
  assert (Hv : valid_packet example_TMMBN).
  { split.
    - constructor; [split; reflexivity | constructor].
    - split; [unfold is_uint32; cbn; lia |].
      split; [| cbn; lia].
      constructor; [unfold is_uint32; cbn; lia | constructor]. }
  split; [exact Hv |]. split; [exact I |].
  exact (marshal_unmarshal_roundtrip uint_zero example_TMMBN
           (PacketTMMBN (MkTMMB 0 [])) Hv I).
Defined.

(** ** C2: quantization *)

(** C2: the law fails at 0. [putBitrate] writes 0, 0, 0 for the bitrate 0,
    and [loadBitrate] decodes these bytes to [2^23], which is not at most 0. *)
Lemma bitrate_quantization_fails_at_zero :
  f32_valid f32_0 = true /\
  f32_le f32_0 f32_0 = true /\
  f32_lt f32_0 bitratemax = true /\
  putBitrate uint_zero f32_0 (Slice 0 3) [9; 9; 9] = (Ok tt, [0; 0; 0]) /\
  loadBitrate [0; 0; 0] = Ok (S754_finite false 8388608 0) /\
  f32_units (S754_finite false 8388608 0) = 2 ^ 23 * 2 ^ 149 /\
  f32_le (S754_finite false 8388608 0) f32_0 = false.
Proof. repeat split. Qed.

(** C2, as the code has it. For every float32 [v] with [1 <= v] strictly
    below the ceiling [0x3FFFF * 2^63], [putBitrate] returns no error, and
    [loadBitrate] of the three bytes it wrote is a finite value [d] with
    [d <= v] and [v - d < 2^e], where [e] is the exponent [putBitrate] chose,
    the top six bits of the first byte. The values are compared exactly, in
    units of [2^-149]. *)
Theorem bitrate_quantization (u : float32 -> Z) (v : float32) (b : slice) (st : store) :
  f32_valid v = true ->
  f32_le f32_1 v = true ->
  f32_lt v bitratemax = true ->
  (3 <= s_len b)%nat -> (s_off b + 3 <= length st)%nat ->
  exists b0 b1 b2 d,
    putBitrate u v b st = (Ok tt, write (s_off b) [b0; b1; b2] st) /\
    loadBitrate [b0; b1; b2] = Ok d /\
    f32_finite d = true /\
    f32_le d v = true /\
    f32_units d <= f32_units v /\
    f32_units v - f32_units d < 2 ^ (Z.shiftr b0 2 + 149).
Proof.
  intros Hv H1 Hmax Hl Hs.
  destruct (f32_ge_1 v H1 Hmax) as (m & e & -> & He & Hle).
  destruct (quantize_normal u m e (Z.max 6 (- e)) Hv Hle He eq_refl)
    as (Henc & HE & HM & Hdec).
  set (a := Z.max 6 (- e)) in *.
  assert (Ha : 6 <= a <= 23) by lia.
  assert (Hp : 0 < 2 ^ a) by (apply Z.pow_pos_nonneg; lia).
  pose proof (Z.div_mod (Z.pos m) (2 ^ a) ltac:(lia)) as Hdm.
  pose proof (Z.mod_pos_bound (Z.pos m) (2 ^ a) Hp) as Hr.
  set (q := Z.pos m / 2 ^ a) in *. set (r := Z.pos m mod 2 ^ a) in *.
  assert (Hqa : 0 < q * 2 ^ a) by nia.
  rewrite putBitrate_frame, Henc by assumption.
  unfold bytes3 in *.
  eexists _, _, _, _. split; [reflexivity |]. split; [exact Hdec |].
  assert (Hpos : Z.pos (Z.to_pos (q * 2 ^ a)) = q * 2 ^ a) by (apply Z2Pos.id; lia).
  split; [reflexivity |]. split; [| split].
  - unfold f32_le, SFleb, SFcompare. rewrite Z.compare_refl.
    change (Pos.compare_cont Eq (Z.to_pos (q * 2 ^ a)) m)
      with (Z.pos (Z.to_pos (q * 2 ^ a)) ?= Z.pos m).
    rewrite Hpos.
    destruct (Z.compare_spec (q * 2 ^ a) (Z.pos m)); try reflexivity. lia.
  - cbn [f32_units]. rewrite Hpos.
    assert (0 < 2 ^ (e + 149)) by (apply Z.pow_pos_nonneg; lia). nia.
  - cbn [f32_units]. rewrite Hpos.
    pose proof (bytes3_eq (e + a) q HE ltac:(lia)) as Hb.
    unfold bytes3 in Hb. injection Hb as Hb0 _. rewrite Hb0.
    rewrite Z.shiftr_div_pow2 by lia.
    replace ((((e + a) * 2 ^ 2 + q / 2 ^ 16)) / 2 ^ 2) with (e + a)
      by (Z.div_mod_to_equations; lia).
    replace (e + a + 149) with (a + (e + 149)) by lia.
    rewrite (Z.pow_add_r 2 a (e + 149)) by lia.
    assert (0 < 2 ^ (e + 149)) by (apply Z.pow_pos_nonneg; lia). nia.
Qed.

(** C2 at the bitrate 8927167 of [TestTMMBNTruncate]. *)
Lemma bitrate_quantization_witness :
  f32_valid (S754_finite false 8927167 0) = true /\
  f32_le f32_1 (S754_finite false 8927167 0) = true /\
  f32_lt (S754_finite false 8927167 0) bitratemax = true /\
  exists b0 b1 b2 d,
    putBitrate uint_zero (S754_finite false 8927167 0) (Slice 0 3) [0; 0; 0]
    = (Ok tt, write 0 [b0; b1; b2] [0; 0; 0]) /\
    loadBitrate [b0; b1; b2] = Ok d /\
    f32_finite d = true /\
    f32_le d (S754_finite false 8927167 0) = true /\
    f32_units d <= f32_units (S754_finite false 8927167 0) /\
    f32_units (S754_finite false 8927167 0) - f32_units d
    < 2 ^ (Z.shiftr b0 2 + 149).
Proof.
  split; [reflexivity |]. split; [reflexivity |]. split; [reflexivity |].
  apply (bitrate_quantization uint_zero (S754_finite false 8927167 0)
           (Slice 0 3) [0; 0; 0]);
    [reflexivity | reflexivity | reflexivity | cbn; lia | cbn; lia].
Defined.

(** ** C3: malformed TMMBR and TMMBN packets *)

(** C3. [Unmarshal] of [TMMBN] and of [TMMBR] panics on a 12-byte packet
    whose header length is 1: the entry count is [(1 - 2) / 2] in 16 bits,
    32767, and the first entry is read past the end of the body. *)
Theorem TMMB_Unmarshal_panics (p0 : TMMB) :
  fst (TMMBN_Unmarshal [132; 205; 0; 1; 0; 0; 0; 1; 0; 0; 0; 0] p0) = Panic /\
  fst (TMMBR_Unmarshal [131; 205; 0; 1; 0; 0; 0; 1; 0; 0; 0; 0] p0) = Panic /\
  Z.to_nat (wrap16 (1 - 2) / 2) = Z.to_nat 32767.
Proof. split; [| split]; reflexivity. Qed.

(** ** C4: saturation *)

(** C4. For every float32 at or above [0x3FFFF * 2^63], positive infinity
    included, [putBitrate] returns no error and writes the bytes
    [0xFF, 0xFF, 0xFF]: exponent 63 and mantissa [0x3FFFF], which decode to
    the ceiling itself. *)
Theorem putBitrate_saturates (u : float32 -> Z) (v : float32) (b : slice) (st : store) :
  f32_ge v bitratemax = true ->
  (3 <= s_len b)%nat -> (s_off b + 3 <= length st)%nat ->
  putBitrate u v b st = (Ok tt, write (s_off b) [255; 255; 255] st) /\
  Z.shiftr 255 2 = 63 /\
  Z.lor (Z.lor (Z.shiftl (Z.land 255 3) 16) (Z.shiftl 255 8)) 255 = 0x3FFFF /\
  loadBitrate [255; 255; 255] = Ok bitratemax.
Proof.
  intros Hge Hl Hs. split; [| repeat split].
  rewrite putBitrate_frame, encode_eq by assumption.
  unfold clamp. rewrite Hge. reflexivity.
Qed.

(** C4 at positive infinity. *)
Lemma putBitrate_saturates_witness :
  f32_ge (S754_infinity false) bitratemax = true /\
  putBitrate uint_zero (S754_infinity false) (Slice 0 3) [0; 0; 0]
  = (Ok tt, write 0 [255; 255; 255] [0; 0; 0]) /\
  Z.shiftr 255 2 = 63 /\
  Z.lor (Z.lor (Z.shiftl (Z.land 255 3) 16) (Z.shiftl 255 8)) 255 = 0x3FFFF /\
  loadBitrate [255; 255; 255] = Ok bitratemax.
Proof.
  split; [reflexivity |].
  apply (putBitrate_saturates uint_zero (S754_infinity false) (Slice 0 3) [0; 0; 0]);
    [reflexivity | cbn; lia | cbn; lia].
Defined.

(** ** C5: negative bitrates *)

(** C5. For every negative float32, [putBitrate] returns [errInvalidBitrate]
    and leaves the buffer as it was, and [Marshal] of any REMB, TMMBR or
    TMMBN packet holding that value in a bitrate field returns
    [errInvalidBitrate] and no bytes. *)
Theorem negative_bitrate_rejected (u : float32 -> Z) (v : float32) (b : slice) (st : store)
    (pk : Packet) :
  f32_lt v f32_0 = true ->
  In v (bitrates pk) ->
  Forall (fun x => f32_valid x = true) (bitrates pk) ->
  putBitrate u v b st = (Err errInvalidBitrate, st) /\
  Marshal u pk = Err errInvalidBitrate.
Proof.
  intros Hneg Hin Hvalid.
  assert (Henc : encode u v = Err errInvalidBitrate)
    by (rewrite encode_eq, f32_lt_clamp, Hneg; reflexivity).
  split.
  - unfold putBitrate. fold (clamp v). rewrite f32_lt_clamp, Hneg. reflexivity.
  - assert (Hentries : forall entries,
               In v (map Bitrate entries) ->
               Forall (fun x => f32_valid x = true) (map Bitrate entries) ->
               TMMB_wire_entries u entries = Err errInvalidBitrate).
    { induction entries as [| entry rest IH]; intros Hi Hf; [contradiction |].
      cbn [map] in Hi, Hf. inversion Hf as [| ? ? Hv Hf']; subst.
      cbn [TMMB_wire_entries].
      pose proof (encode_total u (Bitrate entry) Hv) as Ht.
      destruct (f32_lt (Bitrate entry) f32_0) eqn:Hlt.
      - rewrite Ht. reflexivity.
      - destruct Ht as (bs & -> & _).
        destruct Hi as [Heq | Hi]; [rewrite Heq in Hlt; congruence |].
        rewrite (IH Hi Hf'). reflexivity. }
    destruct pk as [p | p | p]; cbn [Marshal bitrates] in *.
    + destruct Hin as [<- | []]. rewrite REMB_Marshal_eq, Henc. reflexivity.
    + unfold TMMBR_Marshal. rewrite TMMB_Marshal_eq, Hentries by assumption. reflexivity.
    + unfold TMMBN_Marshal. rewrite TMMB_Marshal_eq, Hentries by assumption. reflexivity.
Qed.

(** C5 at the bitrate -1, in the second entry of a TMMBR. *)
Lemma negative_bitrate_rejected_witness :
  f32_lt f32_minus_1 f32_0 = true /\
  In f32_minus_1 (bitrates example_negative) /\
  Forall (fun x => f32_valid x = true) (bitrates example_negative) /\
  putBitrate uint_zero f32_minus_1 (Slice 0 3) [9; 9; 9]
  = (Err errInvalidBitrate, [9; 9; 9]) /\
  Marshal uint_zero example_negative = Err errInvalidBitrate.
Proof.
  assert (Hin : In f32_minus_1 (bitrates example_negative))
    by (right; left; reflexivity).
  assert (Hv : Forall (fun x => f32_valid x = true) (bitrates example_negative))
    by (repeat constructor).
  split; [reflexivity |]. split; [exact Hin |]. split; [exact Hv |].
  exact (negative_bitrate_rejected uint_zero f32_minus_1 (Slice 0 3) [9; 9; 9]
           example_negative eq_refl Hin Hv).
Defined.

(** ** C6: more than 255 SSRCs *)

(** C6: [Marshal] of a REMB with 256 SSRCs returns no error; the count byte
    is 0. *)
Lemma REMB_Marshal_256_SSRCs :
  exists bytes,
    REMB_Marshal uint_zero (REMB 1 f32_0 (replicate 256 7)) = Ok bytes /\
    length bytes = 1044%nat /\
    bytes !! 16%nat = Some 0.
Proof. eexists. split; [vm_compute; reflexivity | split; reflexivity]. Qed.

(** C6, as the code has it. For every REMB with a valid bitrate, whatever
    the length of its SSRC list, [Marshal] returns no error: it returns
    [MarshalSize] bytes, and the count byte holds the length of the list
    modulo 256. *)
Theorem REMB_Marshal_truncates_count (u : float32 -> Z) (p : ReceiverEstimatedMaximumBitrate) :
  valid_bitrate (remb_Bitrate p) ->
  exists bytes,
    REMB_Marshal u p = Ok bytes /\
    length bytes = REMB_MarshalSize p /\
    bytes !! 16%nat = Some (Z.of_nat (length (remb_SSRCs p)) mod 2 ^ 8).
Proof.
  intros [Hv Hn].
  destruct (quantized_total u _ Hv Hn) as (b0 & b1 & b2 & q & Henc & _ & _).
  rewrite REMB_Marshal_eq, Henc. eexists. split; [reflexivity |]. split.
  - apply REMB_wire_length. reflexivity.
  - apply REMB_wire_count.
Qed.

(** C6 at a REMB with 257 SSRCs. *)
Lemma REMB_Marshal_truncates_count_witness :
  valid_bitrate f32_0 /\
  exists bytes,
    REMB_Marshal uint_zero (REMB 1 f32_0 (replicate 257 7)) = Ok bytes /\
    length bytes = REMB_MarshalSize (REMB 1 f32_0 (replicate 257 7)) /\
    bytes !! 16%nat = Some (Z.of_nat (length (replicate 257 7)) mod 2 ^ 8).
Proof.
  assert (Hv : valid_bitrate f32_0) by (split; reflexivity).
  split; [exact Hv |].
  exact (REMB_Marshal_truncates_count uint_zero (REMB 1 f32_0 (replicate 257 7)) Hv).
Defined.

(** ** C7: the size REMB derives from the length field *)

(** C7. [Unmarshal] accepts a 20-byte REMB whose length field is [0x4004]:
    the size it derives is 20, where [(0x4004 + 1) * 4] is 65556. *)
Theorem REMB_Unmarshal_size_wraps (p0 : ReceiverEstimatedMaximumBitrate) :
  REMB_Unmarshal
    [143; 206; 0x40; 0x04; 0; 0; 0; 1; 0; 0; 0; 0; 82; 69; 77; 66; 0; 0; 0; 0] p0
  = (Ok tt, REMB 1 (S754_finite false 8388608 0) []) /\
  wrap16 (wrap16 (0x4004 + 1) * 4) = 20 /\
  (0x4004 + 1) * 4 = 65556.
Proof. split; [| split]; reflexivity. Qed.

(** ** C8: the size and the length field of REMB *)

(** C8: with 65532 destination SSRCs the length field on the wire is 0. *)
Lemma REMB_length_field_wraps :
  exists bytes field,
    REMB_Marshal uint_zero (REMB 1 f32_0 (replicate (Z.to_nat 65532) 0)) = Ok bytes /\
    sub bytes 2 4 = Ok field /\
    Uint16 field = Ok 0 /\
    4 + 65532 <> 0.
Proof.
  rewrite REMB_Marshal_eq.
  change (encode uint_zero (remb_Bitrate (REMB 1 f32_0 (replicate (Z.to_nat 65532) 0))))
    with (@Ok (list Z) [0; 0; 0]).
  eexists _, _. split; [reflexivity |]. split; [apply REMB_wire_length_field |].
  split; [vm_compute; reflexivity | lia].
Qed.

(** C8, as the code has it. A REMB with [SenderSSRC = 1], [Bitrate = 0] and
    no SSRC marshals to 20 bytes that begin 143, 206, 0, 4, 0, 0, 0, 1. With
    [N] destination SSRCs, whatever [N] is, [Marshal] succeeds, [MarshalSize]
    and the marshaled length are [4 * N] more, and the length field on the
    wire is [(4 + N) mod 2^16]; it is [4 + N] when [N <= 65531]. *)
Theorem REMB_size_and_length_field (u : float32 -> Z) (ssrcs : list Z) :
  exists bytes0 bytes field,
    REMB_Marshal u (REMB 1 f32_0 []) = Ok bytes0 /\
    length bytes0 = 20%nat /\
    take 8 bytes0 = [143; 206; 0; 4; 0; 0; 0; 1] /\
    REMB_Marshal u (REMB 1 f32_0 ssrcs) = Ok bytes /\
    REMB_MarshalSize (REMB 1 f32_0 ssrcs)
    = (REMB_MarshalSize (REMB 1 f32_0 []) + 4 * length ssrcs)%nat /\
    length bytes = (length bytes0 + 4 * length ssrcs)%nat /\
    sub bytes 2 4 = Ok field /\
    Uint16 field = Ok ((4 + Z.of_nat (length ssrcs)) mod 2 ^ 16) /\
    (Z.of_nat (length ssrcs) <= 65531 ->
     Uint16 field = Ok (4 + Z.of_nat (length ssrcs))).
Proof.
  assert (Henc : encode u f32_0 = Ok [0; 0; 0]) by reflexivity.
  rewrite !REMB_Marshal_eq. cbn [remb_Bitrate]. rewrite Henc.
  eexists _, _, _. split; [reflexivity |].
  split; [reflexivity |]. split; [reflexivity |]. split; [reflexivity |].
  split; [reflexivity |]. split.
  - rewrite REMB_wire_length by reflexivity. reflexivity.
  - split; [apply REMB_wire_length_field |].
    unfold REMB_MarshalSize. cbn [remb_SSRCs].
    assert (Hfield : wrap16 (Z.of_nat (20 + 4 * length ssrcs) / 4 - 1)
                     = (4 + Z.of_nat (length ssrcs)) mod 2 ^ 16).
    { unfold wrap16. f_equal. Z.div_mod_to_equations. lia. }
    rewrite Hfield.
    assert (Hrange : 0 <= (4 + Z.of_nat (length ssrcs)) mod 2 ^ 16 < 2 ^ 16)
      by (apply Z.mod_pos_bound; lia).
    split; [apply Uint16_be16'; exact Hrange |].
    intros Hn. rewrite Uint16_be16' by exact Hrange.
    rewrite Z.mod_small by lia. reflexivity.
Qed.

(** C8 at three destination SSRCs: 32 bytes, and 7 in the length field. *)
Lemma REMB_size_and_length_field_witness :
  exists bytes0 bytes field,
    REMB_Marshal uint_zero (REMB 1 f32_0 []) = Ok bytes0 /\
    length bytes0 = 20%nat /\
    take 8 bytes0 = [143; 206; 0; 4; 0; 0; 0; 1] /\
    REMB_Marshal uint_zero (REMB 1 f32_0 [11; 12; 13]) = Ok bytes /\
    REMB_MarshalSize (REMB 1 f32_0 [11; 12; 13])
    = (REMB_MarshalSize (REMB 1 f32_0 []) + 4 * length [11; 12; 13])%nat /\
    length bytes = (length bytes0 + 4 * length [11; 12; 13])%nat /\
    sub bytes 2 4 = Ok field /\
    Uint16 field = Ok ((4 + Z.of_nat (length [11; 12; 13])) mod 2 ^ 16) /\
    (Z.of_nat (length [11; 12; 13]) <= 65531 ->
     Uint16 field = Ok (4 + Z.of_nat (length [11; 12; 13]))).
Proof.
  exact (REMB_size_and_length_field uint_zero [11; 12; 13]).
Defined.

(** ** C9: the header length and the marshal size *)

(** C9: the [Length] of the [Header] of a REMB with 65532 SSRCs is 0, and
    its [MarshalSize / 4 - 1] is 65536. *)
Lemma Header_Length_wraps :
  Length (Header_of (PacketREMB (REMB 1 f32_0 (replicate (Z.to_nat 65532) 0)))) = 0 /\
  Z.of_nat (MarshalSize (PacketREMB (REMB 1 f32_0 (replicate (Z.to_nat 65532) 0)))) / 4 - 1
  = 65536.
Proof. split; vm_compute; reflexivity. Qed.

(** C9, as the code has it. For every REMB, TMMBR and TMMBN, whatever the
    length of its list, [MarshalSize] is a positive multiple of 4 and the
    [Length] of its [Header] is [MarshalSize / 4 - 1] modulo [2^16]; it is
    [MarshalSize / 4 - 1] itself when [MarshalSize] is at most [2^18] bytes.
    *)
Theorem Header_Length_MarshalSize (pk : Packet) :
  0 < Z.of_nat (MarshalSize pk) /\
  Z.of_nat (MarshalSize pk) mod 4 = 0 /\
  Length (Header_of pk) = (Z.of_nat (MarshalSize pk) / 4 - 1) mod 2 ^ 16 /\
  (Z.of_nat (MarshalSize pk) <= 2 ^ 18 ->
   Length (Header_of pk) = Z.of_nat (MarshalSize pk) / 4 - 1).
Proof.
  assert (H : Length (Header_of pk) = wrap16 (Z.of_nat (MarshalSize pk) / 4 - 1))
    by (destruct pk; reflexivity).
  assert (Hs : exists k, Z.of_nat (MarshalSize pk) = 4 * k /\ 3 <= k).
  { destruct pk as [p | p | p]; cbn [MarshalSize];
      unfold REMB_MarshalSize, TMMBR_MarshalSize, TMMBN_MarshalSize, TMMB_MarshalSize,
        headerLength, ssrcLength.
    - exists (5 + Z.of_nat (length (remb_SSRCs p))). lia.
    - exists (3 + 2 * Z.of_nat (length (Entries p))). lia.
    - exists (3 + 2 * Z.of_nat (length (Entries p))). lia. }
  destruct Hs as (k & Hk & Hk3). rewrite H, Hk in *.
  replace (4 * k / 4) with k by (Z.div_mod_to_equations; lia).
  split; [lia |]. split; [Z.div_mod_to_equations; lia |].
  split; [reflexivity |].
  intros Hle. unfold wrap16. apply Z.mod_small. lia.
Qed.

(** C9 at the packet of [TestTMMBNMarshal]: 20 bytes, and a [Length] of 4. *)
Lemma Header_Length_MarshalSize_witness :
  0 < Z.of_nat (MarshalSize example_TMMBN) /\
  Z.of_nat (MarshalSize example_TMMBN) mod 4 = 0 /\
  Length (Header_of example_TMMBN)
  = (Z.of_nat (MarshalSize example_TMMBN) / 4 - 1) mod 2 ^ 16 /\
  (Z.of_nat (MarshalSize example_TMMBN) <= 2 ^ 18 ->
   Length (Header_of example_TMMBN) = Z.of_nat (MarshalSize example_TMMBN) / 4 - 1).
Proof.
  exact (Header_Length_MarshalSize example_TMMBN).
Defined.

(** ** C10: the unit of a bitrate *)

(** C10. [bitrateUnit] panics on the largest bitrate [loadBitrate] returns:
    after seven divisions by 1000 the index is 7, one past the table. *)
Theorem bitrateUnit_panics_at_max :
  loadBitrate [255; 255; 255] = Ok bitratemax /\
  bitrateUnit_loop 8 bitratemax 0 = Some (S754_finite false 9903483 (-12), 7%nat) /\
  bitUnits !! 7%nat = None /\
  bitrateUnit bitratemax = Panic.
Proof. repeat split; vm_compute; reflexivity. Qed.

(** * Further properties *)

(** ** [getPadding] *)

(** X1. For a length that is not negative, [getPadding] returns the least
    number of bytes, from 0 to 3, that brings the length to a multiple of 4.
    *)
Theorem getPadding_aligns (packetLen : Z) :
  0 <= packetLen ->
  0 <= getPadding packetLen < 4 /\
  (packetLen + getPadding packetLen) mod 4 = 0 /\
  forall k, 0 <= k -> (packetLen + k) mod 4 = 0 -> getPadding packetLen <= k.
Proof.
  intros H. unfold getPadding. rewrite Z.rem_mod_nonneg by lia.
  destruct (Z.eqb_spec (packetLen mod 4) 0) as [E | N].
  - split; [lia |]. split; [rewrite Z.add_0_r; exact E | intros; lia].
  - pose proof (Z.mod_pos_bound packetLen 4 ltac:(lia)).
    split; [lia |]. split.
    + Z.div_mod_to_equations. lia.
    + intros k Hk. Z.div_mod_to_equations. lia.
Qed.

(** ** Bit utilities *)

(** Case analysis on every comparison of the goal. *)
Ltac split_cmp :=
  repeat match goal with
         | |- context [?a <? ?b] => destruct (Z.ltb_spec a b)
         | |- context [?a <=? ?b] => destruct (Z.leb_spec a b)
         end.

(** The bits at negative positions are unset; then the booleans decide. *)
Ltac bits_done :=
  repeat match goal with
         | |- context [Z.testbit ?a ?j] => rewrite (Z.testbit_neg_r a j) by lia
         end;
  cbn [andb orb]; rewrite ?andb_false_r, ?andb_true_r, ?orb_false_r;
  first [reflexivity | lia | f_equal; lia].

Lemma lor_bound (a b n : Z) :
  0 <= n -> 0 <= a < 2 ^ n -> 0 <= b < 2 ^ n -> 0 <= Z.lor a b < 2 ^ n.
Proof.
  intros Hn Ha Hb.
  assert (E : Z.lor a b = Z.lor a b mod 2 ^ n).
  { apply Z.bits_inj'. intros i Hi.
    rewrite Z.testbit_mod_pow2 by lia. destruct (Z.ltb_spec i n); [reflexivity |].
    rewrite Z.lor_spec, (testbit_small a n i), (testbit_small b n i) by lia.
    reflexivity. }
  rewrite E. apply Z.mod_pos_bound. apply Z.pow_pos_nonneg; lia.
Qed.

Lemma mask16 (size : Z) :
  0 <= size <= 16 -> wrap16 (wrap16 (Z.shiftl 1 size) - 1) = Z.ones size.
Proof.
  intros H. rewrite Z.ones_equiv, Z.shiftl_1_l. unfold wrap16.
  destruct (Z.eq_dec size 16) as [-> | N]; [reflexivity |].
  assert (2 ^ size < 2 ^ 16) by (apply Z.pow_lt_mono_r; lia).
  assert (0 < 2 ^ size) by (apply Z.pow_pos_nonneg; lia).
  rewrite (Z.mod_small (2 ^ size)) by lia. rewrite Z.mod_small by lia. lia.
Qed.

(** X2. When the field fits, [startIndex + size <= 16], [setNBitsOfUint16]
    returns no error and a 16-bit value: each bit of the field, [size] bits
    wide and [startIndex] bits from the top, is the bit of [src] or-ed with
    the matching one of the [size] low bits of [val]; every other bit is the
    bit of [src]. *)
Theorem setNBitsOfUint16_bits (src size startIndex val : Z) :
  0 <= src < 2 ^ 16 -> 0 <= size -> 0 <= startIndex -> startIndex + size <= 16 ->
  exists r,
    setNBitsOfUint16 src size startIndex val = Ok r /\
    0 <= r < 2 ^ 16 /\
    forall i, 0 <= i ->
      Z.testbit r i =
      Z.testbit src i ||
      ((16 - size - startIndex <=? i) && (i <? 16 - startIndex) &&
       Z.testbit val (i - (16 - size - startIndex))).
Proof.
  intros Hsrc Hsize Hstart Hsum. unfold setNBitsOfUint16.
  set (k := 16 - size - startIndex).
  assert (Hk : 0 <= k <= 16) by (unfold k; lia).
  assert (E1 : wrap16 (startIndex + size) = startIndex + size)
    by (apply Z.mod_small; lia).
  assert (E2 : wrap16 (wrap16 (16 - size) - startIndex) = k).
  { unfold wrap16. rewrite (Z.mod_small (16 - size)) by lia.
    apply Z.mod_small. unfold k. lia. }
  rewrite E1, E2, mask16, Z.land_ones by lia.
  replace (16 <? startIndex + size) with false by (symmetry; apply Z.ltb_ge; lia).
  assert (Hv : 0 <= val mod 2 ^ size < 2 ^ size)
    by (apply Z.mod_pos_bound; apply Z.pow_pos_nonneg; lia).
  assert (Hx : 0 <= Z.shiftl (val mod 2 ^ size) k < 2 ^ 16).
  { rewrite Z.shiftl_mul_pow2 by lia.
    assert (0 < 2 ^ k) by (apply Z.pow_pos_nonneg; lia).
    assert (2 ^ size * 2 ^ k <= 2 ^ 16).
    { rewrite <- Z.pow_add_r by lia. apply Z.pow_le_mono_r; unfold k; lia. }
    nia. }
  unfold wrap16 at 1. rewrite (Z.mod_small _ (2 ^ 16)) by exact Hx.
  eexists. split; [reflexivity |]. split; [apply lor_bound; lia |].
  intros i Hi. rewrite Z.lor_spec, Z.shiftl_spec, Z.testbit_mod_pow2 by lia.
  f_equal. replace (16 - startIndex) with (k + size) by (unfold k; lia).
  split_cmp; bits_done.
Qed.

(** X3. [setNBitsOfUint16] returns [errInvalidSizeOrStartIndex] exactly when
    [startIndex + size], computed in 16 bits, is above 16: a sum from 65536 to
    65552 wraps to at most 16 and is let through. *)
Theorem setNBitsOfUint16_error (src size startIndex val : Z) :
  0 <= size < 2 ^ 16 -> 0 <= startIndex < 2 ^ 16 ->
  setNBitsOfUint16 src size startIndex val = Err errInvalidSizeOrStartIndex <->
  16 < startIndex + size < 2 ^ 16 \/ 2 ^ 16 + 16 < startIndex + size.
Proof.
  intros Hsize Hstart. unfold setNBitsOfUint16, wrap16 at 1.
  destruct (Z.ltb_spec 16 ((startIndex + size) mod 2 ^ 16)) as [L | G].
  - split; [intros _ | reflexivity]. revert L. Z.div_mod_to_equations. lia.
  - split; [discriminate |]. intros H. exfalso. revert G. Z.div_mod_to_equations. lia.
Qed.

Lemma appendNBitsToUint32_testbit (src n val i : Z) :
  0 <= n <= 32 -> 0 <= i ->
  Z.testbit (appendNBitsToUint32 src n val) i =
  (i <? 32) && (if i <? n then Z.testbit val i else Z.testbit src (i - n)).
Proof.
  intros Hn Hi. unfold appendNBitsToUint32, wrap32.
  rewrite (Z.mod_small (32 - n)) by lia.
  change 4294967295 with (Z.ones 32).
  rewrite Z.lor_spec, Z.land_spec, Z.testbit_mod_pow2, Z.shiftl_spec, Z.shiftr_spec,
    Z.testbit_ones_nonneg by lia.
  split_cmp; bits_done.
Qed.

(** X4. For [n] from 0 to 32, [appendNBitsToUint32] returns a 32-bit value
    whose [n] low bits are those of [val] and whose bits above are the bits of
    [src], moved up by [n]. *)
Theorem appendNBitsToUint32_bits (src n val : Z) :
  0 <= n <= 32 ->
  is_uint32 (appendNBitsToUint32 src n val) /\
  forall i, 0 <= i < 32 ->
    Z.testbit (appendNBitsToUint32 src n val) i =
    if i <? n then Z.testbit val i else Z.testbit src (i - n).
Proof.
  intros Hn. split.
  - unfold is_uint32.
    assert (E : appendNBitsToUint32 src n val = appendNBitsToUint32 src n val mod 2 ^ 32).
    { apply Z.bits_inj'. intros i Hi.
      rewrite Z.testbit_mod_pow2, appendNBitsToUint32_testbit by lia.
      destruct (i <? 32); reflexivity. }
    rewrite E. apply Z.mod_pos_bound. lia.
  - intros i Hi. rewrite appendNBitsToUint32_testbit by lia.
    replace (i <? 32) with true by (symmetry; apply Z.ltb_lt; lia). reflexivity.
Qed.

(** X5. Appending [n] bits and then [m] bits is appending the [n + m] bits
    made of the two, as long as [n + m <= 32]. *)
Theorem appendNBitsToUint32_assoc (src n v m w : Z) :
  0 <= n -> 0 <= m -> n + m <= 32 ->
  appendNBitsToUint32 (appendNBitsToUint32 src n v) m w
  = appendNBitsToUint32 src (n + m) (appendNBitsToUint32 v m w).
Proof.
  intros Hn Hm Hs. apply Z.bits_inj'. intros i Hi.
  rewrite (appendNBitsToUint32_testbit _ m w i),
    (appendNBitsToUint32_testbit src (n + m) _ i) by lia.
  destruct (Z.ltb_spec i 32) as [L | G]; [| reflexivity]. cbn [andb].
  destruct (Z.ltb_spec i m) as [Lm | Gm].
  - replace (i <? n + m) with true by (symmetry; apply Z.ltb_lt; lia).
    rewrite appendNBitsToUint32_testbit by lia.
    replace (i <? 32) with true by (symmetry; apply Z.ltb_lt; lia).
    replace (i <? m) with true by (symmetry; apply Z.ltb_lt; lia). reflexivity.
  - rewrite appendNBitsToUint32_testbit by lia.
    replace (i - m <? 32) with true by (symmetry; apply Z.ltb_lt; lia). cbn [andb].
    destruct (Z.ltb_spec (i - m) n) as [Ln | Gn].
    + replace (i <? n + m) with true by (symmetry; apply Z.ltb_lt; lia).
      rewrite appendNBitsToUint32_testbit by lia.
      replace (i <? 32) with true by (symmetry; apply Z.ltb_lt; lia).
      replace (i <? m) with false by (symmetry; apply Z.ltb_ge; lia). reflexivity.
    + replace (i <? n + m) with false by (symmetry; apply Z.ltb_ge; lia).
      f_equal. lia.
Qed.

(** X6. When [begin + n <= 8], [getNBitsFromByte] returns the [n] bits of the
    byte that start [begin] bits from the top, as a number. *)
Theorem getNBitsFromByte_value (b begin n : Z) :
  0 <= begin -> 0 <= n -> begin + n <= 8 ->
  getNBitsFromByte b begin n = (b / 2 ^ (8 - begin - n)) mod 2 ^ n.
Proof.
  intros Hb Hn Hs. unfold getNBitsFromByte.
  unfold wrap16. rewrite (Z.mod_small (begin + n)) by lia.
  rewrite (Z.mod_small (8 - (begin + n))) by lia.
  set (s := 8 - (begin + n)). replace (8 - begin - n) with s by (unfold s; lia).
  assert (0 <= s <= 8) by (unfold s; lia).
  apply Z.bits_inj'. intros i Hi.
  change 255 with (Z.ones 8). unfold wrap8.
  rewrite <- Z.shiftr_div_pow2 by lia.
  repeat rewrite ?Z.shiftr_spec, ?Z.land_spec, ?Z.testbit_mod_pow2, ?Z.shiftl_spec,
    ?Z.testbit_ones_nonneg by lia.
  unfold s. split_cmp; bits_done.
Qed.

(** X7. When [begin + n] is above 8, [getNBitsFromByte] returns 0 and does not
    fail: the shift count wraps in 16 bits and the mask is empty. *)
Theorem getNBitsFromByte_out_of_range (b begin n : Z) :
  0 <= begin -> 0 <= n -> 8 < begin + n < 2 ^ 16 ->
  getNBitsFromByte b begin n = 0.
Proof.
  intros Hb Hn Hs. unfold getNBitsFromByte.
  unfold wrap16. rewrite (Z.mod_small (begin + n)) by lia.
  replace ((8 - (begin + n)) mod 2 ^ 16) with (2 ^ 16 + 8 - (begin + n))
    by (apply Z.mod_unique with (q := -1); lia).
  set (s := 2 ^ 16 + 8 - (begin + n)).
  assert (8 <= s) by (unfold s; lia).
  unfold wrap8. rewrite Z.shiftl_mul_pow2 by lia.
  replace (255 * 2 ^ s) with (255 * 2 ^ (s - 8) * 2 ^ 8)
    by (rewrite <- Z.mul_assoc, <- Z.pow_add_r by lia; do 2 f_equal; lia).
  rewrite Z.mod_mul by lia.
  rewrite !Z.land_0_r. apply Z.shiftr_0_l.
Qed.

Lemma get24_value (b0 b1 b2 : Z) (rest : list Z) :
  is_byte b0 -> is_byte b1 -> is_byte b2 ->
  get24BitsFromBytes (b0 :: b1 :: b2 :: rest) = Ok (b0 * 2 ^ 16 + b1 * 2 ^ 8 + b2) /\
  0 <= b0 * 2 ^ 16 + b1 * 2 ^ 8 + b2 < 2 ^ 24.
Proof.
  unfold is_byte. intros H0 H1 H2. split; [| lia].
  unfold get24BitsFromBytes. cbn [index lookup list_lookup].
  rewrite !Z.shiftl_mul_pow2 by lia. unfold wrap32.
  rewrite (Z.mod_small (b0 * 2 ^ 16)), (Z.mod_small (b1 * 2 ^ 8)) by lia.
  rewrite (Z.mod_small (b0 * 2 ^ 16 + b1 * 2 ^ 8)) by lia.
  rewrite Z.mod_small by lia. reflexivity.
Qed.

Lemma get24_short (b : list Z) :
  (length b < 3)%nat -> get24BitsFromBytes b = Panic.
Proof.
  intros H. destruct b as [| b0 [| b1 [| b2 rest]]]; try reflexivity.
  cbn [length] in H. lia.
Qed.

(** X8. [get24BitsFromBytes] reads the first three bytes as a big-endian
    24-bit number, and panics on fewer than three bytes. *)
Theorem get24BitsFromBytes_spec (b : list Z) :
  Forall is_byte b ->
  match b with
  | b0 :: b1 :: b2 :: _ =>
      get24BitsFromBytes b = Ok (b0 * 2 ^ 16 + b1 * 2 ^ 8 + b2) /\
      0 <= b0 * 2 ^ 16 + b1 * 2 ^ 8 + b2 < 2 ^ 24
  | _ => get24BitsFromBytes b = Panic
  end.
Proof.
  intros Hb. destruct b as [| b0 [| b1 [| b2 rest]]]; try reflexivity.
  inversion Hb as [| ? ? H0 Hb']; subst.
  inversion Hb' as [| ? ? H1 Hb'']; subst.
  inversion Hb'' as [| ? ? H2 _]; subst.
  apply get24_value; assumption.
Qed.

(** ** [bitrateUnit] *)

(** The loop of [bitrateUnit] never lowers [powers]. *)
Lemma bitrateUnit_loop_grows (fuel : nat) :
  forall (x r : float32) (powers powers' : nat),
    bitrateUnit_loop fuel x powers = Some (r, powers') -> (powers <= powers')%nat.
Proof.
  induction fuel as [| fuel IH]; intros x r powers powers'; cbn [bitrateUnit_loop];
    destruct (f32_ge x f32_1000 && (powers <? length bitUnits)%nat);
    try discriminate; try (intros [= _ <-]; lia).
  intros H. apply IH in H. lia.
Qed.

(** X9. [bitrateUnit] returns the unit ["b"] exactly for the bitrates that are
    not at least 1000, NaN among them. *)
Theorem bitrateUnit_b (x : float32) :
  bitrateUnit x = Ok "b"%string <-> f32_ge x f32_1000 = false.
Proof.
  unfold bitrateUnit. change (bitrateUnit_loop 8 x 0)
    with (if f32_ge x f32_1000 && (0 <? length bitUnits)%nat
          then bitrateUnit_loop 7 (f32_div x f32_1000) 1 else Some (x, 0%nat)).
  destruct (f32_ge x f32_1000); cbn [andb]; [| split; reflexivity].
  change (0 <? length bitUnits)%nat with true. cbv iota.
  split; [| discriminate].
  destruct (bitrateUnit_loop 7 (f32_div x f32_1000) 1) as [[r powers] |] eqn:E;
    [| discriminate].
  apply bitrateUnit_loop_grows in E.
  destruct powers as [| [| [| [| [| [| [| powers]]]]]]]; try discriminate; lia.
Qed.

(** ** The values [loadBitrate] returns *)

Lemma f32_valid_normal (s : bool) (m : positive) (e : Z) :
  2 ^ 23 <= Z.pos m < 2 ^ 24 -> -149 <= e <= 104 ->
  f32_valid (S754_finite s m e) = true.
Proof.
  intros Hm He. unfold f32_valid, valid_binary, bounded, canonical_mantissa.
  rewrite (digits2_pos_unique m 24) by lia. rewrite fexp32.
  apply andb_true_iff. split; [apply Z.eqb_eq | apply Z.leb_le]; lia.
Qed.

(** The normalized mantissa and the exponent of a decoded value. *)
Lemma decode_fields_normal (exp mantissa : Z) :
  0 <= exp < 2 ^ 6 -> 0 <= mantissa < 2 ^ 18 ->
  exists (m : positive) (k : Z),
    decode_fields exp mantissa = S754_finite false m (exp - k) /\
    2 ^ 23 <= Z.pos m < 2 ^ 24 /\
    (if mantissa =? 0 then k = 0 /\ Z.pos m = 2 ^ 23
     else 6 <= k <= 23 /\ Z.pos m = mantissa * 2 ^ k).
Proof.
  intros He Hm. unfold decode_fields.
  destruct (Z.eqb_spec mantissa 0) as [-> | Hnz].
  - exists 8388608%positive, 0. rewrite Z.sub_0_r. repeat split; lia.
  - pose proof (Z.log2_spec mantissa ltac:(lia)) as [Hlo Hhi].
    assert (0 <= Z.log2 mantissa) by apply Z.log2_nonneg.
    assert (Z.log2 mantissa < 18) by (apply Z.log2_lt_pow2; lia).
    set (k := 23 - Z.log2 mantissa) in *.
    assert (Hk : 2 ^ 23 <= mantissa * 2 ^ k < 2 ^ 24).
    { replace (2 ^ 23) with (2 ^ Z.log2 mantissa * 2 ^ k)
        by (rewrite <- Z.pow_add_r by lia; f_equal; lia).
      replace (2 ^ 24) with (2 ^ Z.succ (Z.log2 mantissa) * 2 ^ k)
        by (rewrite <- Z.pow_add_r by lia; f_equal; lia).
      assert (0 < 2 ^ k) by (apply Z.pow_pos_nonneg; lia). nia. }
    exists (Z.to_pos (mantissa * 2 ^ k)), k.
    rewrite Z2Pos.id by lia. repeat split; lia.
Qed.

Lemma f32_le_1_normal (m : positive) (e : Z) :
  2 ^ 23 <= Z.pos m -> -23 <= e -> f32_le f32_1 (S754_finite false m e) = true.
Proof.
  intros Hm He. unfold f32_le, f32_1, SFleb. rewrite SFcompare_finite.
  destruct (Z.compare_spec (-23) e) as [E | L | G]; try reflexivity; try lia.
  change (8388608 ?= m)%positive with (Z.pos 8388608 ?= Z.pos m).
  destruct (Z.compare_spec (Z.pos 8388608) (Z.pos m)); try reflexivity. lia.
Qed.

Lemma loadBitrate_short (buf : list Z) :
  (length buf < 3)%nat -> loadBitrate buf = Panic.
Proof.
  intros H. destruct buf as [| b0 [| b1 [| b2 rest]]]; try reflexivity.
  cbn [length] in H. lia.
Qed.

Lemma fields_of_bytes (b0 b1 b2 : Z) :
  is_byte b0 -> is_byte b1 -> is_byte b2 ->
  0 <= b0 / 2 ^ 2 < 2 ^ 6 /\ 0 <= b0 mod 2 ^ 2 * 2 ^ 16 + b1 * 2 ^ 8 + b2 < 2 ^ 18.
Proof. unfold is_byte. intros. split; Z.div_mod_to_equations; lia. Qed.

(** What [loadBitrate] returns is a float32, finite and at least 1. *)
Lemma loadBitrate_valid (b0 b1 b2 : Z) (rest : list Z) (q : float32) :
  is_byte b0 -> is_byte b1 -> is_byte b2 ->
  loadBitrate (b0 :: b1 :: b2 :: rest) = Ok q ->
  f32_valid q = true /\ f32_finite q = true /\ f32_le f32_1 q = true /\
  f32_lt q f32_0 = false.
Proof.
  intros H0 H1 H2. rewrite loadBitrate_bytes by assumption. intros [= <-].
  destruct (fields_of_bytes b0 b1 b2 H0 H1 H2) as [He Hm].
  destruct (decode_fields_normal _ _ He Hm) as (m & k & -> & Hn & Hk).
  assert (0 <= k <= 23) by (destruct (_ =? 0); lia).
  split; [apply f32_valid_normal; lia |]. split; [reflexivity |].
  split; [apply f32_le_1_normal; lia | reflexivity].
Qed.

(** X10. On fewer than three bytes [loadBitrate] panics; on three bytes or
    more it returns a finite float32 that is at least 1: no bytes decode to 0,
    to a negative number, to an infinity or to NaN. *)
Theorem loadBitrate_outcome (buf : list Z) :
  Forall is_byte buf ->
  if (length buf <? 3)%nat then loadBitrate buf = Panic
  else exists d, loadBitrate buf = Ok d /\ f32_valid d = true /\
                 f32_finite d = true /\ f32_le f32_1 d = true.
Proof.
  intros Hb. destruct (Nat.ltb_spec (length buf) 3) as [L | G].
  - apply loadBitrate_short. exact L.
  - destruct buf as [| b0 [| b1 [| b2 rest]]]; try (cbn [length] in G; lia).
    inversion Hb as [| ? ? H0 Hb']; subst.
    inversion Hb' as [| ? ? H1 Hb'']; subst.
    inversion Hb'' as [| ? ? H2 _]; subst.
    destruct (loadBitrate (b0 :: b1 :: b2 :: rest)) as [d | | |] eqn:E;
      try (rewrite loadBitrate_bytes in E by assumption; discriminate E).
    destruct (loadBitrate_valid b0 b1 b2 rest d H0 H1 H2 E) as (Hv & Hf & H1' & _).
    exists d. repeat split; assumption.
Qed.

(** X11. The value [loadBitrate] returns is [mantissa * 2^exp], exactly, where
    [exp] is the top 6 bits and [mantissa] the low 18 bits of the 24-bit
    number that [get24BitsFromBytes] reads from the same bytes, when the
    mantissa is not 0; when it is 0 the value is [2^(exp + 23)]. Values are in
    units of [2^-149]. *)
Theorem loadBitrate_value (b0 b1 b2 : Z) (rest : list Z) :
  is_byte b0 -> is_byte b1 -> is_byte b2 ->
  exists (word : Z) (d : float32),
    get24BitsFromBytes (b0 :: b1 :: b2 :: rest) = Ok word /\
    loadBitrate (b0 :: b1 :: b2 :: rest) = Ok d /\
    f32_finite d = true /\
    f32_units d =
    if word mod 2 ^ 18 =? 0 then 2 ^ (word / 2 ^ 18 + 23 + 149)
    else word mod 2 ^ 18 * 2 ^ (word / 2 ^ 18 + 149).
Proof.
  intros H0 H1 H2.
  destruct (get24_value b0 b1 b2 rest H0 H1 H2) as [Hw Hr].
  destruct (fields_of_bytes b0 b1 b2 H0 H1 H2) as [He Hm].
  exists (b0 * 2 ^ 16 + b1 * 2 ^ 8 + b2),
    (decode_fields (b0 / 2 ^ 2) (b0 mod 2 ^ 2 * 2 ^ 16 + b1 * 2 ^ 8 + b2)).
  split; [exact Hw |].
  rewrite loadBitrate_bytes by assumption.
  replace ((b0 * 2 ^ 16 + b1 * 2 ^ 8 + b2) mod 2 ^ 18)
    with (b0 mod 2 ^ 2 * 2 ^ 16 + b1 * 2 ^ 8 + b2)
    by (unfold is_byte in *; Z.div_mod_to_equations; lia).
  replace ((b0 * 2 ^ 16 + b1 * 2 ^ 8 + b2) / 2 ^ 18) with (b0 / 2 ^ 2)
    by (unfold is_byte in *; Z.div_mod_to_equations; lia).
  destruct (decode_fields_normal _ _ He Hm) as (m & k & -> & Hn & Hk).
  split; [reflexivity |]. split; [reflexivity |].
  cbn [f32_units]. rewrite Z.mul_1_l.
  destruct (_ =? 0).
  - destruct Hk as [-> ->]. rewrite Z.sub_0_r, <- Z.pow_add_r by lia. f_equal. lia.
  - destruct Hk as [Hk ->]. rewrite <- Z.mul_assoc, <- Z.pow_add_r by lia.
    do 2 f_equal. lia.
Qed.

(** ** What [putBitrate] writes and what it leaves alone *)

Lemma write_lookup_outside (off : nat) (bs : list Z) (st : store) (i : nat) :
  (off + length bs <= length st)%nat ->
  (i < off \/ off + length bs <= i)%nat ->
  write off bs st !! i = st !! i.
Proof.
  intros Hl Hi. unfold write. destruct Hi as [L | G].
  - rewrite lookup_app_l by (rewrite length_take; lia).
    rewrite lookup_take. destruct (decide (i < off)%nat); [reflexivity | lia].
  - rewrite lookup_app_r by (rewrite length_take; lia).
    rewrite lookup_app_r by (rewrite length_take; lia).
    rewrite lookup_drop, length_take. f_equal. lia.
Qed.

Lemma write_lookup_inside (off : nat) (bs : list Z) (st : store) (i : nat) :
  (off + length bs <= length st)%nat -> (i < length bs)%nat ->
  write off bs st !! (off + i)%nat = bs !! i.
Proof.
  intros Hl Hi. unfold write.
  rewrite lookup_app_r by (rewrite length_take; lia).
  rewrite length_take. replace (off + i - off `min` length st)%nat with i by lia.
  apply lookup_app_l. exact Hi.
Qed.

(** A write through an index returns, when the index is in the slice, or
    panics. *)
Lemma put_fst (b : slice) (i : nat) (v : Z) (st : store) :
  fst (put b i v st) = Ok tt /\ (i < s_len b)%nat \/ fst (put b i v st) = Panic.
Proof.
  unfold put. destruct (Nat.ltb_spec i (s_len b)); cbn [andb]; [| right; reflexivity].
  destruct (_ <? _)%nat; [left; split; [reflexivity | assumption] | right; reflexivity].
Qed.

Section PutBitrate.
Variable u : float32 -> Z.

(** X12. On a slice with room for three bytes [putBitrate] returns
    [errInvalidBitrate] for the negative bitrates and leaves the array as it
    was; for every other float32, NaN and the infinities included, it returns
    no error, writes three bytes at the start of the slice and leaves every
    other byte of the array as it was. *)
Theorem putBitrate_outcome (x : float32) (b : slice) (st : store) :
  f32_valid x = true ->
  (3 <= s_len b)%nat -> (s_off b + 3 <= length st)%nat ->
  if f32_lt x f32_0 then putBitrate u x b st = (Err errInvalidBitrate, st)
  else exists bs st',
      putBitrate u x b st = (Ok tt, st') /\
      length bs = 3%nat /\ Forall is_byte bs /\
      length st' = length st /\
      (forall i, (i < 3)%nat -> st' !! (s_off b + i)%nat = bs !! i) /\
      (forall i, (i < s_off b \/ s_off b + 3 <= i)%nat -> st' !! i = st !! i).
Proof.
  intros Hv Hl Hs. rewrite putBitrate_frame by assumption.
  pose proof (encode_total u x Hv) as H.
  destruct (f32_lt x f32_0); [rewrite H; reflexivity |].
  destruct H as (bs & -> & Hlen & Hb).
  exists bs, (write (s_off b) bs st). split; [reflexivity |].
  split; [exact Hlen |]. split; [exact Hb |]. split; [| split].
  - apply length_write. lia.
  - intros i Hi. apply write_lookup_inside; lia.
  - intros i Hi. apply write_lookup_outside; lia.
Qed.

(** X13. On a slice of fewer than three bytes [putBitrate] panics, unless the
    bitrate is negative: the sign is tested before the slice is touched, and
    the call returns [errInvalidBitrate]. *)
Theorem putBitrate_short_buffer (x : float32) (b : slice) (st : store) :
  f32_valid x = true -> (s_len b < 3)%nat ->
  fst (putBitrate u x b st) =
  if f32_lt x f32_0 then Err errInvalidBitrate else Panic.
Proof.
  intros Hv Hl. unfold putBitrate. fold (clamp x). rewrite f32_lt_clamp.
  destruct (f32_lt x f32_0); [reflexivity |].
  destruct (putBitrate_loop_terminates x Hv) as (r & exp & -> & He).
  replace (2 ^ 6 <=? exp) with false by (symmetry; apply Z.leb_gt; lia).
  unfold bind.
  repeat match goal with
         | |- context [put b ?i ?v ?s] =>
             let H := fresh "H" in
             pose proof (put_fst b i v s) as H;
             destruct (put b i v s) as [? ?]; cbn [fst] in H;
             destruct H as [[-> ?] | ->]; [| reflexivity]
         end.
  lia.
Qed.

End PutBitrate.

(** ** Quantization *)

Lemma f32_le_max (m : positive) (e : Z) :
  e < 57 \/ e = 57 /\ Z.pos m <= 16777152 ->
  f32_le (S754_finite false m e) bitratemax = true.
Proof.
  intros H. unfold f32_le, bitratemax, SFleb. rewrite SFcompare_finite.
  revert H. generalize 16777152%positive. intros c H.
  destruct (Z.compare_spec e 57); try reflexivity; try lia.
  change (m ?= c)%positive with (Z.pos m ?= Z.pos c).
  destruct (Z.compare_spec (Z.pos m) (Z.pos c)); try reflexivity. lia.
Qed.

Lemma f32_ge_max_small (m : positive) (e : Z) :
  e < 57 -> f32_ge (S754_finite false m e) bitratemax = false.
Proof.
  intros H. unfold f32_ge, bitratemax, SFleb. rewrite SFcompare_finite.
  generalize 16777152%positive. intros c.
  destruct (Z.compare_spec 57 e); try reflexivity; lia.
Qed.

Lemma f32_le_of_not_ge (m : positive) (e : Z) :
  f32_ge (S754_finite false m e) bitratemax = false ->
  f32_le (S754_finite false m e) bitratemax = true.
Proof.
  unfold f32_ge, f32_le, bitratemax, SFleb. rewrite !SFcompare_finite.
  generalize 16777152%positive. intros c.
  rewrite (Z.compare_antisym e 57), (Pos.compare_antisym m c).
  destruct (e ?= 57); cbn [CompOpp]; try discriminate; try reflexivity.
  destruct (m ?= c)%positive; cbn [CompOpp]; try discriminate; reflexivity.
Qed.

(** A float32 that is at least 0 and below 1 is a zero or has an exponent
    below -23. *)
Lemma f32_below_1 (v : float32) :
  f32_valid v = true -> f32_le f32_0 v = true -> f32_lt v f32_1 = true ->
  match v with
  | S754_zero _ => True
  | S754_finite false m e => e < -23 /\ Z.pos m < 2 ^ 24
  | _ => False
  end.
Proof.
  intros Hv H0 H1. destruct v as [s | [|] | | [|] m e];
    try exact I; try discriminate H0; try discriminate H1.
  pose proof (f32_valid_finite _ _ _ Hv) as (Hr & Hd & Hn).
  pose proof (digits2_pos_bounds m) as B.
  assert (Z.pos m < 2 ^ 24).
  { assert (2 ^ Z.pos (digits2_pos m) <= 2 ^ 24) by (apply Z.pow_le_mono_r; lia). lia. }
  split; [| assumption].
  unfold f32_lt, f32_1, SFltb in H1. rewrite SFcompare_finite in H1.
  destruct (Z.compare_spec e (-23)) as [E | L | G]; try discriminate H1; [| lia].
  subst e. pose proof (normal_bounds m (Hn ltac:(lia))) as Hm.
  assert (Hc : Z.pos 8388608 = 2 ^ 23) by reflexivity.
  revert Hc H1. generalize 8388608%positive. intros c Hc H1.
  destruct (Pos.compare_spec m c); try discriminate H1. lia.
Qed.

Section Quantized.
Variable u : float32 -> Z.

Lemma encode_below_1 (v : float32) :
  f32_valid v = true -> f32_le f32_0 v = true -> f32_lt v f32_1 = true ->
  encode u v = Ok [0; 0; 0] /\
  quantized u v = Ok (S754_finite false 8388608 0).
Proof.
  intros Hv H0 H1. pose proof (f32_below_1 v Hv H0 H1) as H.
  assert (Henc : encode u v = Ok [0; 0; 0]).
  { destruct v as [s | [|] | | [|] m e]; try contradiction.
    - destruct s; reflexivity.
    - destruct H as [He Hm]. rewrite encode_eq. unfold clamp.
      rewrite f32_ge_max_small by lia.
      change (f32_lt (S754_finite false m e) f32_0) with false. cbv iota.
      rewrite putBitrate_loop_finite by (assumption || lia). unfold scaled.
      replace (-5 <=? e) with false by (symmetry; apply Z.leb_gt; lia).
      change (2 ^ 6 <=? 0) with false. cbv iota. cbn [floor_uint].
      rewrite Z.shiftl_div_pow2 by lia.
      assert (2 ^ 24 <= 2 ^ (- e)) by (apply Z.pow_le_mono_r; lia).
      rewrite Z.div_small by lia. reflexivity. }
  split; [exact Henc |]. unfold quantized. rewrite Henc. reflexivity.
Qed.

(** X14. Every float32 from 0 up to, but not including, 1 is written as the
    bytes 0, 0, 0, which [loadBitrate] reads as [2^23 = 8388608]. *)
Theorem quantized_below_1 (v : float32) (b : slice) (st : store) :
  f32_valid v = true -> f32_le f32_0 v = true -> f32_lt v f32_1 = true ->
  (3 <= s_len b)%nat -> (s_off b + 3 <= length st)%nat ->
  putBitrate u v b st = (Ok tt, write (s_off b) [0; 0; 0] st) /\
  loadBitrate [0; 0; 0] = Ok (S754_finite false 8388608 0) /\
  f32_units (S754_finite false 8388608 0) = 2 ^ 23 * 2 ^ 149.
Proof.
  intros Hv H0 H1 Hl Hs. destruct (encode_below_1 v Hv H0 H1) as [Henc _].
  rewrite putBitrate_frame, Henc by assumption. repeat split.
Qed.

(** What [loadBitrate] returns is encoded and decoded to itself, except the
    values from [2^81] that a zero mantissa with an exponent of 58 or more
    stands for: these are above the ceiling. *)
Lemma decode_fixed (exp mantissa : Z) :
  0 <= exp < 2 ^ 6 -> 0 <= mantissa < 2 ^ 18 ->
  mantissa <> 0 \/ exp < 58 ->
  quantized u (decode_fields exp mantissa) = Ok (decode_fields exp mantissa).
Proof.
  intros He Hm Hfix.
  destruct (decode_fields_normal exp mantissa He Hm) as (m & k & -> & Hn & Hk).
  assert (Hdiv : exists c j, Z.pos m = c * 2 ^ j /\ 0 <= k <= j /\ 6 <= j <= 23 /\
                             (exp - k = 57 -> Z.pos m <= 16777152) /\ exp - k <= 57).
  { destruct (Z.eqb_spec mantissa 0) as [-> | Hnz].
    - destruct Hk as [-> Hm']. exists 1, 23. rewrite Hm'.
      destruct Hfix as [Hfix | Hfix]; [contradiction |].
      change (2 ^ 23) with 8388608. lia.
    - destruct Hk as [Hk Hm']. exists mantissa, k. repeat split; try lia.
      intros E. replace k with 6 in * by lia. lia. }
  destruct Hdiv as (c & j & Hc & Hj & Hj6 & Hmax & He57).
  assert (Hv : f32_valid (S754_finite false m (exp - k)) = true)
    by (apply f32_valid_normal; lia).
  assert (Hle : f32_le (S754_finite false m (exp - k)) bitratemax = true)
    by (apply f32_le_max; lia).
  set (e := exp - k) in *.
  destruct (quantize_normal u m e (Z.max 6 (- e)) Hv Hle ltac:(unfold e; lia) eq_refl)
    as (Henc & _ & _ & Hdec).
  unfold quantized. rewrite Henc, Hdec. do 2 f_equal.
  set (a := Z.max 6 (- e)) in *.
  assert (Ha : 0 <= a <= j) by (unfold a, e; lia).
  replace (Z.pos m) with (c * 2 ^ (j - a) * 2 ^ a)
    by (rewrite Hc, <- Z.mul_assoc, <- Z.pow_add_r by lia; do 2 f_equal; lia).
  rewrite Z.div_mul by (apply Z.pow_nonzero; lia).
  rewrite <- Z.mul_assoc, <- Z.pow_add_r by lia.
  replace (j - a + a) with j by lia. rewrite <- Hc. reflexivity.
Qed.

(** The fields [putBitrate] writes for any float32 that is at least 0. *)
Lemma encode_fields (v : float32) :
  f32_valid v = true -> f32_le f32_0 v = true ->
  exists exp mantissa,
    0 <= exp < 2 ^ 6 /\ 0 <= mantissa < 2 ^ 18 /\
    (mantissa <> 0 \/ exp < 58) /\
    encode u v = Ok (bytes3 exp mantissa) /\
    quantized u v = Ok (decode_fields exp mantissa).
Proof.
  intros Hv H0.
  assert (Hq : forall exp mantissa,
             0 <= exp < 2 ^ 6 -> 0 <= mantissa < 2 ^ 18 ->
             encode u v = Ok (bytes3 exp mantissa) ->
             quantized u v = Ok (decode_fields exp mantissa)).
  { intros exp mantissa He Hm Henc. unfold quantized. rewrite Henc.
    apply loadBitrate_bytes3; assumption. }
  destruct (f32_lt v f32_1) eqn:H1.
  - destruct (encode_below_1 v Hv H0 H1) as [Henc _].
    exists 0, 0. repeat split; try lia; [exact Henc | apply Hq; [lia | lia | exact Henc]].
  - destruct (f32_ge v bitratemax) eqn:Hge.
    + assert (Henc : encode u v = Ok (bytes3 63 262143))
        by (rewrite encode_eq; unfold clamp; rewrite Hge; reflexivity).
      exists 63, 262143. repeat split; try lia; [exact Henc | apply Hq; [lia | lia | exact Henc]].
    + destruct v as [s | [|] | | [|] m e];
        try discriminate H0; try discriminate H1; try discriminate Hge.
      assert (He : -23 <= e).
      { unfold f32_lt, f32_1, SFltb in H1. rewrite SFcompare_finite in H1.
        destruct (Z.compare_spec e (-23)); try discriminate H1; lia. }
      destruct (quantize_normal u m e (Z.max 6 (- e)) Hv (f32_le_of_not_ge m e Hge) He eq_refl)
        as (Henc & HE & HM & _).
      exists (e + Z.max 6 (- e)), (Z.pos m / 2 ^ Z.max 6 (- e)).
      split; [exact HE |]. split; [lia |]. split; [left; lia |].
      split; [exact Henc | apply Hq; [exact HE | lia | exact Henc]].
Qed.

(** X15. Quantization is idempotent on the bitrates that are at least 0: the
    value [loadBitrate] reads from the bytes [putBitrate] wrote is written and
    read back as itself. *)
Theorem quantized_idempotent (v : float32) :
  f32_valid v = true -> f32_le f32_0 v = true ->
  exists q, quantized u v = Ok q /\ quantized u q = Ok q.
Proof.
  intros Hv H0.
  destruct (encode_fields v Hv H0) as (exp & mantissa & He & Hm & Hfix & _ & Hq).
  exists (decode_fields exp mantissa). split; [exact Hq |].
  apply decode_fixed; assumption.
Qed.

(** X16. The value [loadBitrate] reads from any three bytes is written by
    [putBitrate] as bytes that [loadBitrate] reads as the same value, unless
    the mantissa is 0 and the exponent is 58 or more (such bytes stand for
    [2^81] and more, above the ceiling). *)
Theorem loadBitrate_fixed_point (b0 b1 b2 : Z) (rest : list Z) (q : float32) :
  is_byte b0 -> is_byte b1 -> is_byte b2 ->
  b0 mod 2 ^ 2 * 2 ^ 16 + b1 * 2 ^ 8 + b2 <> 0 \/ b0 / 2 ^ 2 < 58 ->
  loadBitrate (b0 :: b1 :: b2 :: rest) = Ok q ->
  quantized u q = Ok q.
Proof.
  intros H0 H1 H2 Hfix. rewrite loadBitrate_bytes by assumption. intros [= <-].
  destruct (fields_of_bytes b0 b1 b2 H0 H1 H2) as [He Hm].
  apply decode_fixed; assumption.
Qed.

End Quantized.

(** ** Order *)

Lemma f32_le_finite (m1 m2 : positive) (e1 e2 : Z) :
  f32_le (S754_finite false m1 e1) (S754_finite false m2 e2) = true <->
  e1 < e2 \/ e1 = e2 /\ Z.pos m1 <= Z.pos m2.
Proof.
  unfold f32_le, SFleb. rewrite SFcompare_finite.
  destruct (Z.compare_spec e1 e2); [destruct (Pos.compare_spec m1 m2) | |];
    split; intros H'; try reflexivity; try discriminate H'; lia.
Qed.

Section Monotone.
Variable u : float32 -> Z.

(** The two ways [putBitrate] treats a float32 that is at least 1: at or
    above the ceiling it stands for the ceiling; below, its mantissa loses
    its [a] low bits, where [a] is 6 or, for an exponent below -6, what
    brings the exponent to 0. *)
Lemma quantized_cases (v : float32) :
  f32_valid v = true -> f32_le f32_1 v = true ->
  (f32_ge v bitratemax = true /\ quantized u v = Ok bitratemax) \/
  (exists (m m' : positive) (e : Z),
      v = S754_finite false m e /\ -23 <= e /\
      f32_le v bitratemax = true /\
      quantized u v = Ok (S754_finite false m' e) /\
      Z.pos m' = Z.pos m / 2 ^ Z.max 6 (- e) * 2 ^ Z.max 6 (- e) /\
      2 ^ 23 <= Z.pos m' <= Z.pos m).
Proof.
  intros Hv H1. destruct (f32_ge v bitratemax) eqn:Hge.
  - left. split; [reflexivity |]. unfold quantized.
    rewrite encode_eq. unfold clamp. rewrite Hge. reflexivity.
  - right. destruct v as [s | [|] | | [|] m e];
      try discriminate H1; try discriminate Hge.
    assert (He : -23 <= e).
    { unfold f32_le, f32_1, SFleb in H1. rewrite SFcompare_finite in H1.
      destruct (Z.compare_spec (-23) e); try discriminate H1; lia. }
    pose proof (f32_le_of_not_ge m e Hge) as Hle.
    destruct (quantize_normal u m e (Z.max 6 (- e)) Hv Hle He eq_refl)
      as (Henc & HE & HM & Hdec).
    pose proof (f32_valid_finite _ _ _ Hv) as (_ & _ & Hn).
    pose proof (normal_bounds m (Hn ltac:(lia))) as Hm.
    set (a := Z.max 6 (- e)) in *.
    assert (Ha : 6 <= a <= 23) by (unfold a; lia).
    assert (Hp : 0 < 2 ^ a) by (apply Z.pow_pos_nonneg; lia).
    assert (Hlow : 2 ^ 23 <= Z.pos m / 2 ^ a * 2 ^ a <= Z.pos m).
    { split.
      - replace (2 ^ 23) with (2 ^ (23 - a) * 2 ^ a)
          by (rewrite <- Z.pow_add_r by lia; f_equal; lia).
        apply Z.mul_le_mono_nonneg_r; [lia |].
        apply Z.div_le_lower_bound; [lia |].
        rewrite Z.mul_comm, <- Z.pow_add_r by lia.
        replace (23 - a + a) with 23 by lia. lia.
      - rewrite Z.mul_comm. apply Z.mul_div_le. lia. }
    exists m, (Z.to_pos (Z.pos m / 2 ^ a * 2 ^ a)), e.
    rewrite Z2Pos.id by lia.
    split; [reflexivity |]. split; [exact He |]. split; [exact Hle |].
    split; [| split; [reflexivity | exact Hlow]].
    unfold quantized. rewrite Henc. exact Hdec.
Qed.

(** X17. Quantization keeps the order of the bitrates that are at least 1: if
    [1 <= v <= w], the value read back for [v] is at most the value read back
    for [w]. *)
Theorem quantized_monotone (v w : float32) :
  f32_valid v = true -> f32_valid w = true ->
  f32_le f32_1 v = true -> f32_le v w = true ->
  exists qv qw,
    quantized u v = Ok qv /\ quantized u w = Ok qw /\ f32_le qv qw = true.
Proof.
  intros Hv Hw H1 Hvw.
  assert (H1w : f32_le f32_1 w = true).
  { destruct v as [s | [|] | | [|] m1 e1]; try discriminate H1;
      destruct w as [s' | [|] | | [|] m2 e2]; try discriminate Hvw; try reflexivity.
    unfold f32_1 in *. apply f32_le_finite. apply f32_le_finite in H1, Hvw. lia. }
  destruct (quantized_cases w Hw H1w) as [[Gw Qw] | (m2 & m2' & e2 & -> & He2 & Lw & Qw & Em2 & Bm2)].
  - destruct (quantized_cases v Hv H1) as [[Gv Qv] | (m1 & m1' & e1 & -> & He1 & Lv & Qv & Em1 & Bm1)].
    + exists bitratemax, bitratemax. repeat split; assumption.
    + exists (S754_finite false m1' e1), bitratemax. split; [exact Qv |]. split; [exact Qw |].
      unfold bitratemax in *. apply f32_le_finite. apply f32_le_finite in Lv. lia.
  - destruct (quantized_cases v Hv H1) as [[Gv Qv] | (m1 & m1' & e1 & -> & He1 & Lv & Qv & Em1 & Bm1)].
    + exists bitratemax, (S754_finite false m2' e2). split; [exact Qv |]. split; [exact Qw |].
      destruct v as [s | [|] | | [|] m1 e1]; try discriminate Gv; try discriminate Hvw.
      unfold f32_ge, bitratemax in *. apply f32_le_finite.
      apply f32_le_finite in Gv, Hvw, Lw.
      assert (e2 = 57 /\ Z.pos m2 = 16777152) as [-> Hm2] by lia.
      right. split; [reflexivity |]. rewrite Em2, Hm2. reflexivity.
    + exists (S754_finite false m1' e1), (S754_finite false m2' e2).
      split; [exact Qv |]. split; [exact Qw |].
      apply f32_le_finite. apply f32_le_finite in Hvw.
      destruct Hvw as [L | [-> Hm]]; [left; exact L | right].
      split; [reflexivity |]. rewrite Em1, Em2.
      set (a := Z.max 6 (- e2)).
      assert (0 < 2 ^ a) by (apply Z.pow_pos_nonneg; unfold a; lia).
      apply Z.mul_le_mono_nonneg_r; [lia |]. apply Z.div_le_mono; lia.
Qed.

End Monotone.

(** ** Decoding, then encoding *)

Section Canonical.
Variable u : float32 -> Z.

(** The fields [putBitrate] writes for a decoded value are the fields it was
    decoded from when the mantissa has its top bit set, or the exponent is 0
    and the mantissa is not. *)
Lemma encode_decode_fields (exp mantissa : Z) :
  0 <= exp < 2 ^ 6 -> 0 < mantissa < 2 ^ 18 ->
  2 ^ 17 <= mantissa \/ exp = 0 ->
  encode u (decode_fields exp mantissa) = Ok (bytes3 exp mantissa).
Proof.
  intros He Hm Hcanon.
  destruct (decode_fields_normal exp mantissa He ltac:(lia)) as (m & k & -> & Hn & Hk).
  replace (mantissa =? 0) with false in Hk by (symmetry; apply Z.eqb_neq; lia).
  destruct Hk as [Hk Hmk].
  assert (Hk17 : 2 ^ 17 <= mantissa -> k = 6).
  { intros H17. destruct (Z.eq_dec k 6) as [E | N]; [exact E | exfalso].
    assert (2 ^ 7 <= 2 ^ k) by (apply Z.pow_le_mono_r; lia). nia. }
  assert (Hmax : exp - k = 57 -> Z.pos m <= 16777152).
  { intros E. replace k with 6 in * by lia. lia. }
  assert (Hv : f32_valid (S754_finite false m (exp - k)) = true)
    by (apply f32_valid_normal; lia).
  assert (Hle : f32_le (S754_finite false m (exp - k)) bitratemax = true)
    by (apply f32_le_max; lia).
  destruct (quantize_normal u m (exp - k) (Z.max 6 (- (exp - k))) Hv Hle ltac:(lia) eq_refl)
    as (Henc & _ & _ & _).
  rewrite Henc. f_equal.
  assert (Ha : Z.max 6 (- (exp - k)) = k) by (destruct Hcanon as [H17 | ->]; [rewrite (Hk17 H17) |]; lia).
  rewrite Ha, Hmk, Z.div_mul by (apply Z.pow_nonzero; lia).
  f_equal. lia.
Qed.

Lemma encode_loaded (b0 b1 b2 : Z) (rest : list Z) (q : float32) :
  is_byte b0 -> is_byte b1 -> is_byte b2 ->
  b0 mod 2 ^ 2 * 2 ^ 16 + b1 * 2 ^ 8 + b2 <> 0 ->
  2 <= b0 mod 2 ^ 2 \/ b0 / 2 ^ 2 = 0 ->
  loadBitrate (b0 :: b1 :: b2 :: rest) = Ok q ->
  encode u q = Ok [b0; b1; b2].
Proof.
  intros H0 H1 H2 Hnz Hcanon. rewrite loadBitrate_bytes by assumption. intros [= <-].
  destruct (fields_of_bytes b0 b1 b2 H0 H1 H2) as [He Hm].
  rewrite encode_decode_fields; try assumption.
  - rewrite bytes3_eq by assumption. unfold is_byte in *.
    f_equal. f_equal; [Z.div_mod_to_equations; lia |].
    f_equal; [Z.div_mod_to_equations; lia |].
    f_equal. Z.div_mod_to_equations. lia.
  - lia.
  - unfold is_byte in *. destruct Hcanon as [H | H]; [left | right; exact H].
    Z.div_mod_to_equations. lia.
Qed.

(** X18. Three bytes in canonical form are written back as they were read:
    [putBitrate] of the value [loadBitrate] read from them writes the same
    three bytes. The form is canonical when the mantissa is not 0 and either
    has its top bit set or comes with the exponent 0. *)
Theorem putBitrate_loadBitrate (b0 b1 b2 : Z) (rest : list Z) (q : float32)
    (b : slice) (st : store) :
  is_byte b0 -> is_byte b1 -> is_byte b2 ->
  b0 mod 2 ^ 2 * 2 ^ 16 + b1 * 2 ^ 8 + b2 <> 0 ->
  2 <= b0 mod 2 ^ 2 \/ b0 / 2 ^ 2 = 0 ->
  loadBitrate (b0 :: b1 :: b2 :: rest) = Ok q ->
  (3 <= s_len b)%nat -> (s_off b + 3 <= length st)%nat ->
  putBitrate u q b st = (Ok tt, write (s_off b) [b0; b1; b2] st).
Proof.
  intros H0 H1 H2 Hnz Hcanon Hload Hl Hs.
  rewrite putBitrate_frame by assumption.
  rewrite (encode_loaded b0 b1 b2 rest q) by assumption. reflexivity.
Qed.

End Canonical.

(** ** [Unmarshal] of REMB on any bytes *)

(** Four bytes are the big-endian encoding of the word they are read as. *)
Lemma Uint32_bytes (a b c d : Z) :
  is_byte a -> is_byte b -> is_byte c -> is_byte d ->
  exists v, Uint32 [a; b; c; d] = Ok v /\ is_uint32 v /\ be32 v = [a; b; c; d].
Proof.
  unfold is_byte, is_uint32. intros Ha Hb Hc Hd.
  exists (a * 2 ^ 24 + b * 2 ^ 16 + c * 2 ^ 8 + d).
  split; [| split; [lia |]].
  - cbn [Uint32]. f_equal.
    rewrite (lor_add_shiftl c d 8) by lia.
    rewrite (lor_add_shiftl b _ 16) by lia.
    rewrite (lor_add_shiftl a _ 24) by lia. ring.
  - unfold be32, byte, wrap8. rewrite !Z.shiftr_div_pow2 by lia.
    repeat f_equal; Z.div_mod_to_equations; lia.
Qed.

Lemma four_bytes (l : list Z) :
  length l = 4%nat -> Forall is_byte l ->
  exists v, Uint32 l = Ok v /\ is_uint32 v /\ be32 v = l.
Proof.
  intros Hl Hb. destruct l as [| a [| b [| c [| d [| ? ?]]]]]; try discriminate Hl.
  inversion Hb as [| ? ? Ha Hb1]; subst. inversion Hb1 as [| ? ? Hb' Hb2]; subst.
  inversion Hb2 as [| ? ? Hc Hb3]; subst. inversion Hb3 as [| ? ? Hd _]; subst.
  apply Uint32_bytes; assumption.
Qed.

Lemma sub_ok (buf : list Z) (lo hi : nat) :
  (lo <= hi <= length buf)%nat -> sub buf lo hi = Ok (take (hi - lo) (drop lo buf)).
Proof.
  intros H. unfold sub.
  replace (lo <=? hi)%nat with true by (symmetry; apply Nat.leb_le; lia).
  replace (hi <=? length buf)%nat with true by (symmetry; apply Nat.leb_le; lia).
  reflexivity.
Qed.

(** The loop over the SSRCs reads [k] words when they are in the buffer. *)
Lemma REMB_get_SSRCs_total (buf : list Z) (k : nat) :
  Forall is_byte buf ->
  forall (fuel n : nat) (sender : Z) (br : float32) (acc : list Z),
    (k <= fuel)%nat -> (n + 4 * k <= length buf)%nat ->
    exists ssrcs,
      REMB_get_SSRCs fuel buf n (n + 4 * k) (REMB sender br acc)
      = (Ok tt, REMB sender br (acc ++ ssrcs)) /\
      length ssrcs = k /\ Forall is_uint32 ssrcs /\
      flat_map be32 ssrcs = take (4 * k) (drop n buf).
Proof.
  intros Hb. induction k as [| k IH]; intros fuel n sender br acc Hf Hl.
  - exists []. rewrite Nat.mul_0_r, Nat.add_0_r, app_nil_r.
    split; [| split; [reflexivity | split; [constructor | reflexivity]]].
    destruct fuel; cbn [REMB_get_SSRCs]; rewrite Nat.ltb_irrefl; reflexivity.
  - destruct fuel as [| fuel]; [lia |]. cbn [REMB_get_SSRCs].
    replace (n <? n + 4 * S k)%nat with true by (symmetry; apply Nat.ltb_lt; lia).
    rewrite sub_ok by lia. replace (n + 4 - n)%nat with 4%nat by lia.
    destruct (four_bytes (take 4 (drop n buf))) as (v & Hv & Hu & Hbe).
    { rewrite length_take, length_drop. lia. }
    { apply Forall_take, Forall_drop, Hb. }
    ustep. rewrite Hv. ustep. mstep. cbn [remb_SenderSSRC remb_Bitrate remb_SSRCs].
    destruct (IH fuel (n + 4)%nat sender br (acc ++ [v]) ltac:(lia) ltac:(lia))
      as (rest & Hrun & Hlen & Hall & Hflat).
    replace (n + 4 * S k)%nat with (n + 4 + 4 * k)%nat by lia.
    exists (v :: rest). rewrite Hrun, <- app_assoc.
    split; [reflexivity |]. split; [cbn [length]; lia |].
    split; [constructor; assumption |].
    cbn [flat_map]. rewrite Hbe, Hflat.
    replace (4 * S k)%nat with (4 + 4 * k)%nat by lia.
    rewrite <- take_take_drop, drop_drop. reflexivity.
Qed.

Lemma Uint16_bytes (a b : Z) :
  is_byte a -> is_byte b ->
  exists v, Uint16 [a; b] = Ok v /\ 0 <= v < 2 ^ 16 /\ be16 v = [a; b].
Proof.
  unfold is_byte. intros Ha Hb. exists (a * 2 ^ 8 + b).
  split; [| split; [lia |]].
  - cbn [Uint16]. f_equal. apply lor_add_shiftl; lia.
  - unfold be16, byte, wrap8. rewrite Z.shiftr_div_pow2 by lia.
    repeat f_equal; Z.div_mod_to_equations; lia.
Qed.

Ltac early_error e :=
  unfold REMB_outcome; left; exists e; split; [reflexivity | simpl; tauto].
Ltac late_error e :=
  unfold REMB_outcome; right; left; exists e; eexists;
  split; [reflexivity | simpl; tauto].

Lemma REMB_Unmarshal_cases (buf : list Z) (p0 : ReceiverEstimatedMaximumBitrate) :
  Forall is_byte buf -> REMB_outcome buf p0 (REMB_Unmarshal buf p0).
Proof.
  intros Hb. unfold REMB_Unmarshal. cbv zeta.
  destruct (Nat.ltb_spec (length buf) 20) as [Hshort | Hlen];
    [early_error errPacketTooShort |].
  do 20 (destruct buf as [| ? buf]; [cbn [length] in Hlen; lia |]).
  repeat match goal with
         | H : Forall _ (_ :: _) |- _ => inversion H; subst; clear H
         end.
  match goal with
  | |- context [index (?b0 :: ?b1 :: ?l0 :: ?l1 :: ?s0 :: ?s1 :: ?s2 :: ?s3 ::
                       ?m0 :: ?m1 :: ?m2 :: ?m3 :: ?i0 :: ?i1 :: ?i2 :: ?i3 ::
                       ?num :: ?x0 :: ?x1 :: ?x2 :: ?rest) 0] =>
      set (wire := b0 :: b1 :: l0 :: l1 :: s0 :: s1 :: s2 :: s3 ::
                   m0 :: m1 :: m2 :: m3 :: i0 :: i1 :: i2 :: i3 ::
                   num :: x0 :: x1 :: x2 :: rest) in *;
      assert (R0 : index wire 0 = Ok b0) by reflexivity;
      assert (R1 : index wire 1 = Ok b1) by reflexivity;
      assert (R2 : sub wire 2 4 = Ok [l0; l1]) by reflexivity;
      assert (R4 : sub wire 4 8 = Ok [s0; s1; s2; s3]) by reflexivity;
      assert (R8 : sub wire 8 12 = Ok [m0; m1; m2; m3]) by reflexivity;
      assert (R12 : sub wire 12 16 = Ok [i0; i1; i2; i3]) by reflexivity;
      assert (R16 : index wire 16 = Ok num) by reflexivity;
      assert (R17 : sub wire 17 20 = Ok [x0; x1; x2]) by reflexivity;
      assert (R816 : sub wire 8 16 = Ok [m0; m1; m2; m3; i0; i1; i2; i3]) by reflexivity;
      assert (T2 : take 2 wire = [b0; b1]) by reflexivity;
      assert (L16 : wire !! 16%nat = Some num) by reflexivity;
      assert (D20 : drop 20 wire = rest) by reflexivity;
      rename b0 into B0, b1 into B1, l0 into L0, l1 into L1, num into NUM,
        x0 into X0, x1 into X1, x2 into X2,
        s0 into S0, s1 into S1, s2 into S2, s3 into S3,
        m0 into M0, m1 into M1, m2 into M2, m3 into M3,
        i0 into I0, i1 into I1, i2 into I2, i3 into I3
  end.
  rewrite R0, R1, R2, R4, R8, R12, R16, R17.
  ustep.
  destruct (Z.eqb_spec (Z.shiftr B0 6) 2) as [Ever | ?]; cbn [negb];
    [| early_error errBadVersion].
  destruct (Z.eqb_spec (Z.land (Z.shiftr B0 5) 1) 0) as [Epad | ?]; cbn [negb];
    [| early_error errWrongPadding].
  destruct (Z.eqb_spec (Z.land B0 31) 15) as [Efmt | ?]; cbn [negb];
    [| early_error errWrongFeedbackType].
  ustep.
  destruct (Z.eqb_spec B1 206) as [-> | ?]; cbn [negb];
    [| early_error errWrongPayloadType].
  ustep.
  destruct (Uint16_bytes L0 L1) as (len & -> & Hlenr & Hbe16); [assumption | assumption |].
  ustep.
  set (size := Z.to_nat (wrap16 (wrap16 (len + 1) * 4))).
  destruct (Nat.ltb_spec size 20) as [? | Hsize20]; [early_error errHeaderTooSmall |].
  destruct (Nat.ltb_spec (length wire) size) as [? | Hfits];
    [early_error errPacketTooShort |].
  ustep.
  destruct (Uint32_bytes S0 S1 S2 S3) as (sender & -> & Hsender & Hbe32);
    [assumption | assumption | assumption | assumption |].
  ustep. mstep.
  ustep.
  destruct (Uint32_bytes M0 M1 M2 M3) as (media & -> & _ & Hmedia);
    [assumption | assumption | assumption | assumption |].
  ustep.
  destruct (Z.eqb_spec media 0) as [-> | ?]; cbn [negb];
    [| late_error errSSRCMustBeZero].
  ustep.
  destruct (bool_decide_reflect ([I0; I1; I2; I3] = [82; 69; 77; 66])) as [Eid | ?];
    cbn [negb]; [| late_error errMissingREMBidentifier].
  ustep.
  destruct (Nat.eqb_spec size (20 + 4 * Z.to_nat NUM)) as [Esize | ?]; cbn [negb];
    [| late_error errSSRCNumAndLengthMismatch].
  ustep.
  rewrite loadBitrate_bytes by assumption.
  set (q := decode_fields _ _).
  ustep. mstep. mstep. cbn [remb_SenderSSRC remb_Bitrate remb_SSRCs].
  rewrite Esize at 2.
  destruct (REMB_get_SSRCs_total wire (Z.to_nat NUM)
              ltac:(repeat (constructor; [assumption |]); assumption)
              size 20%nat sender q [] ltac:(lia) ltac:(lia))
    as (ssrcs & -> & Hcount & Huint & Hflat).
  unfold REMB_outcome. right; right. exists (REMB sender q ssrcs). split; [reflexivity |].
  unfold REMB_accepted. cbn [remb_SenderSSRC remb_Bitrate remb_SSRCs app].
  assert (HNUM : is_byte NUM) by assumption. unfold is_byte in HNUM.
  assert (HB0 : is_byte B0) by assumption. unfold is_byte in HB0.
  rewrite Hcount.
  split; [lia |].
  split.
  { rewrite T2. do 2 f_equal.
    rewrite Z.shiftr_div_pow2 in Ever by lia.
    rewrite land_1, Z.shiftr_div_pow2 in Epad by lia.
    rewrite land_31 in Efmt.
    revert Ever Epad Efmt. Z.div_mod_to_equations. lia. }
  split.
  { exists len. rewrite R2, Hbe16. split; [reflexivity |]. split; [exact Hlenr |].
    fold size in Esize. unfold size in Esize.
    pose proof (Z.mod_pos_bound (wrap16 (len + 1) * 4) (2 ^ 16) ltac:(lia)).
    unfold wrap16 in *. lia. }
  split; [rewrite R4, Hbe32; reflexivity |].
  split; [exact Hsender |].
  split.
  { rewrite R816. change (be32 0) with [0; 0; 0; 0] in Hmedia.
    injection Hmedia as <- <- <- <-. injection Eid as -> -> -> ->. reflexivity. }
  split; [rewrite L16; f_equal; lia |].
  split; [lia |].
  split.
  { exists X0, X1, X2. split; [exact R17 |].
    split; [assumption |]. split; [assumption |]. split; [assumption |].
    apply loadBitrate_bytes; assumption. }
  split; [exact Huint |].
  rewrite D20 in *. rewrite Hflat. reflexivity.
Qed.

(** X19. [Unmarshal] of REMB never panics, whatever the bytes. An error leaves
    the bitrate and the SSRCs of the receiver as they were, and the receiver
    as a whole unless the error is one of the three found after the sender
    SSRC was assigned. *)
Theorem REMB_Unmarshal_total (buf : list Z) (p0 : ReceiverEstimatedMaximumBitrate) :
  Forall is_byte buf ->
  exists r p',
    REMB_Unmarshal buf p0 = (r, p') /\
    match r with
    | Ok _ => True
    | Err e =>
        remb_Bitrate p' = remb_Bitrate p0 /\ remb_SSRCs p' = remb_SSRCs p0 /\
        (p' = p0 \/ In e REMB_late_errors)
    | Panic | OutOfFuel => False
    end.
Proof.
  intros Hb.
  destruct (REMB_Unmarshal_cases buf p0 Hb)
    as [(e & -> & He) | [(e & sender & -> & He) | (p & -> & _)]];
    eexists _, _; (split; [reflexivity |]); cbn [remb_Bitrate remb_SSRCs]; auto.
Qed.

(** X20. What [Unmarshal] of REMB accepts: the buffer starts with 143, 206;
    the size derived from its length field, in 16 bits, is [20 + 4 * n] and
    within the buffer, where [n] is byte 16 and the number of SSRCs returned;
    bytes 8 to 15 are four zeros and ["REMB"]; the sender SSRC, the bitrate
    and the SSRCs are the big-endian words at 4, the three bytes at 17 and the
    words from 20. *)
Theorem REMB_Unmarshal_accepts (buf : list Z) (p0 p : ReceiverEstimatedMaximumBitrate) :
  Forall is_byte buf ->
  REMB_Unmarshal buf p0 = (Ok tt, p) ->
  REMB_accepted buf p.
Proof.
  intros Hb Hrun.
  destruct (REMB_Unmarshal_cases buf p0 Hb)
    as [(e & E & _) | [(e & sender & E & _) | (p' & E & Hacc)]];
    rewrite E in Hrun; try discriminate Hrun.
  injection Hrun as <-. exact Hacc.
Qed.

(** ** [Marshal] of what [Unmarshal] accepted *)

Lemma sub_inv (buf x : list Z) (lo hi : nat) :
  sub buf lo hi = Ok x -> x = take (hi - lo) (drop lo buf).
Proof. unfold sub. destruct (_ && _)%bool; [intros [= <-]; reflexivity | discriminate]. Qed.

Lemma take_1_drop (buf : list Z) (i : nat) (x : Z) :
  buf !! i = Some x -> take 1 (drop i buf) = [x].
Proof. intros H. rewrite (drop_S _ _ _ H). reflexivity. Qed.

Section Remarshal.
Variable u : float32 -> Z.

Lemma REMB_accepted_valid (buf : list Z) (p : ReceiverEstimatedMaximumBitrate) :
  REMB_accepted buf p -> valid_packet (PacketREMB p).
Proof.
  intros (Hfit & _ & _ & _ & Hs & _ & _ & Hn & (b0 & b1 & b2 & _ & H0 & H1 & H2 & Hq)
          & Hall & _).
  destruct (loadBitrate_valid b0 b1 b2 [] _ H0 H1 H2 Hq) as (Hv & _ & _ & Hneg).
  split.
  - cbn [bitrates]. constructor; [split; assumption | constructor].
  - split; [exact Hs |]. split; [exact Hall | lia].
Qed.

(** X21. Whatever [Unmarshal] of REMB accepts is a valid packet; [Marshal] of
    it succeeds with [MarshalSize] bytes, no more than the buffer had; and
    [Unmarshal] of these bytes gives the same packet again, unless the bitrate
    field had a zero mantissa with an exponent of 58 or more. *)
Theorem REMB_Unmarshal_then_Marshal (buf : list Z)
    (p0 p : ReceiverEstimatedMaximumBitrate) :
  Forall is_byte buf ->
  REMB_Unmarshal buf p0 = (Ok tt, p) ->
  valid_packet (PacketREMB p) /\
  exists bytes,
    REMB_Marshal u p = Ok bytes /\
    length bytes = REMB_MarshalSize p /\
    (length bytes <= length buf)%nat /\
    forall b0 b1 b2,
      sub buf 17 20 = Ok [b0; b1; b2] ->
      b0 mod 2 ^ 2 * 2 ^ 16 + b1 * 2 ^ 8 + b2 <> 0 \/ b0 / 2 ^ 2 < 58 ->
      forall p1, REMB_Unmarshal bytes p1 = (Ok tt, p).
Proof.
  intros Hb Hrun.
  assert (Hacc : REMB_accepted buf p).
  { destruct (REMB_Unmarshal_cases buf p0 Hb)
      as [(e & E & _) | [(e & sender & E & _) | (p' & E & Hacc)]];
      rewrite E in Hrun; try discriminate Hrun.
    injection Hrun as <-. exact Hacc. }
  pose proof (REMB_accepted_valid buf p Hacc) as Hvalid.
  split; [exact Hvalid |].
  destruct Hacc as (Hfit & _ & _ & _ & _ & _ & _ & _ &
                    (x0 & x1 & x2 & Hsub & H0 & H1 & H2 & Hq) & _ & _).
  destruct Hvalid as [Hbit (Hs & Hall & Hn)]. cbn [bitrates] in Hbit.
  inversion Hbit as [| ? ? [Hv Hneg] _]; subst.
  destruct (REMB_roundtrip u p p Hs Hall ltac:(lia) Hv Hneg) as (bytes & q' & HM & _ & _).
  exists bytes. split; [exact HM |].
  assert (Hlen : length bytes = REMB_MarshalSize p).
  { rewrite REMB_Marshal_eq in HM.
    destruct (encode u (remb_Bitrate p)) as [bs | | |] eqn:Henc; try discriminate HM.
    injection HM as <-. apply REMB_wire_length. apply (encode_length u _ _ Henc). }
  split; [exact Hlen |]. split; [rewrite Hlen; unfold REMB_MarshalSize; lia |].
  intros b0 b1 b2 Hsub' Hfix p1. rewrite Hsub in Hsub'. injection Hsub' as -> -> ->.
  destruct (REMB_roundtrip u p p1 Hs Hall ltac:(lia) Hv Hneg) as (bytes' & q & HM' & Hquant & HU).
  rewrite HM in HM'. injection HM' as <-.
  rewrite HU. f_equal. destruct p as [sender br ssrcs].
  cbn [remb_SenderSSRC remb_Bitrate remb_SSRCs] in *. f_equal.
  rewrite loadBitrate_bytes in Hq by assumption. injection Hq as <-.
  destruct (fields_of_bytes b0 b1 b2 H0 H1 H2) as [He Hm].
  rewrite decode_fixed in Hquant by assumption. congruence.
Qed.

(** X22. A REMB packet in canonical form is marshalled back to the bytes it
    was read from: when the high byte of the length field is below 64, so that
    the size does not wrap, and the bitrate field is in canonical form,
    [Marshal] of the packet [Unmarshal] returned is the first [MarshalSize]
    bytes of the buffer. *)
Theorem REMB_Marshal_Unmarshal_bytes (buf : list Z)
    (p0 p : ReceiverEstimatedMaximumBitrate) (l0 l1 b0 b1 b2 : Z) :
  Forall is_byte buf ->
  REMB_Unmarshal buf p0 = (Ok tt, p) ->
  sub buf 2 4 = Ok [l0; l1] -> l0 < 2 ^ 6 ->
  sub buf 17 20 = Ok [b0; b1; b2] ->
  b0 mod 2 ^ 2 * 2 ^ 16 + b1 * 2 ^ 8 + b2 <> 0 ->
  2 <= b0 mod 2 ^ 2 \/ b0 / 2 ^ 2 = 0 ->
  REMB_Marshal u p = Ok (take (REMB_MarshalSize p) buf).
Proof.
  intros Hb Hrun Hl Hl0 Hbr Hnz Hcanon.
  assert (Hacc : REMB_accepted buf p).
  { destruct (REMB_Unmarshal_cases buf p0 Hb)
      as [(e & E & _) | [(e & sender & E & _) | (p' & E & Hacc)]];
      rewrite E in Hrun; try discriminate Hrun.
    injection Hrun as <-. exact Hacc. }
  destruct Hacc as (Hfit & Ht2 & (len & Hlen & Hlenr & Hsize) & Hsender & _ & Hmid &
                    Hnum & Hn & (x0 & x1 & x2 & Hsub & H0 & H1 & H2 & Hq) & _ & Hflat).
  rewrite Hsub in Hbr. injection Hbr as -> -> ->.
  rewrite Hlen in Hl. injection Hl as Hl0' Hl1'.
  assert (Hlen4 : len = 4 + Z.of_nat (length (remb_SSRCs p))).
  { assert (len < 2 ^ 14).
    { unfold byte, wrap8 in Hl0'. rewrite Z.shiftr_div_pow2 in Hl0' by lia.
      revert Hl0' Hl0. Z.div_mod_to_equations. lia. }
    unfold wrap16 in Hsize. rewrite (Z.mod_small (len + 1)) in Hsize by lia.
    destruct (Z.eq_dec len (2 ^ 14 - 1)) as [-> | Hne];
      [change ((2 ^ 14 - 1 + 1) * 4 mod 2 ^ 16) with 0 in Hsize; lia |].
    rewrite Z.mod_small in Hsize by lia. lia. }
  rewrite REMB_Marshal_eq, (encode_loaded u b0 b1 b2 [] _ H0 H1 H2 Hnz Hcanon Hq).
  f_equal. unfold REMB_wire, REMB_MarshalSize.
  replace (wrap16 (Z.of_nat (20 + 4 * length (remb_SSRCs p)) / 4 - 1)) with len.
  2: { unfold wrap16. rewrite Hlen4.
       replace (Z.of_nat (20 + 4 * length (remb_SSRCs p)) / 4 - 1)
         with (4 + Z.of_nat (length (remb_SSRCs p))) by (Z.div_mod_to_equations; lia).
       symmetry. apply Z.mod_small. lia. }
  replace (byte (Z.of_nat (length (remb_SSRCs p)))) with (Z.of_nat (length (remb_SSRCs p)))
    by (unfold byte, wrap8; symmetry; apply Z.mod_small; lia).
  apply sub_inv in Hlen, Hsender, Hmid, Hsub. apply take_1_drop in Hnum.
  cbn [Nat.sub] in Hlen, Hsender, Hmid, Hsub.
  change (be32 0 ++ [82; 69; 77; 66] ++ ?x) with ([0; 0; 0; 0; 82; 69; 77; 66] ++ x).
  rewrite <- Ht2, Hlen, Hsender, Hmid, <- Hnum, Hsub, Hflat.
  rewrite !app_assoc.
  repeat (rewrite take_take_drop; cbn [Nat.add]).
  reflexivity.
Qed.

End Remarshal.

(** ** [MarshalTo] on any buffer *)

Lemma write_nothing (off : nat) (st : store) : write off [] st = st.
Proof. unfold write. cbn [app length]. rewrite Nat.add_0_r. apply take_drop. Qed.

Section MarshalTo.
Variable u : float32 -> Z.

Lemma REMB_put_SSRCs_frame (buf : slice) (st0 : list Z) (ssrcs : list Z) :
  forall (acc : list Z) (n : nat),
    n = length acc ->
    (n + 4 * length ssrcs <= s_len buf)%nat ->
    (s_off buf + n + 4 * length ssrcs <= length st0)%nat ->
    REMB_put_SSRCs buf n ssrcs (write (s_off buf) acc st0)
    = (Ok (n + 4 * length ssrcs)%nat,
       write (s_off buf) (acc ++ flat_map be32 ssrcs) st0).
Proof.
  induction ssrcs as [| ssrc rest IH]; intros acc n Hn Hl Hs.
  - cbn [REMB_put_SSRCs flat_map length]. rewrite app_nil_r.
    unfold ret. do 2 f_equal. lia.
  - cbn [REMB_put_SSRCs flat_map length] in *. unfold bind at 1.
    rewrite ssub_ok by lia. unfold bind at 1.
    rewrite PutUint32_write
      by (cbn [s_off s_len]; rewrite ?length_write; lia).
    cbn [s_off].
    rewrite write_app' by (rewrite ?length_be32; lia).
    rewrite (IH (acc ++ be32 ssrc) (n + 4)%nat)
      by (rewrite ?length_app, ?length_be32; lia).
    rewrite <- app_assoc. do 2 f_equal. lia.
Qed.

Lemma REMB_MarshalTo_eq (p : ReceiverEstimatedMaximumBitrate) (buf : slice) (st : store) :
  (REMB_MarshalSize p <= s_len buf)%nat ->
  (s_off buf + s_len buf <= length st)%nat ->
  REMB_MarshalTo u p buf st =
  match encode u (remb_Bitrate p) with
  | Ok bs => (Ok (REMB_MarshalSize p), write (s_off buf) (REMB_wire p bs) st)
  | Err e => (Err e, write (s_off buf) (REMB_wire_prefix p) st)
  | Panic => (Panic, write (s_off buf) (REMB_wire_prefix p) st)
  | OutOfFuel => (OutOfFuel, write (s_off buf) (REMB_wire_prefix p) st)
  end.
Proof.
  intros Hfit Hst. unfold REMB_MarshalTo.
  replace (s_len buf <? REMB_MarshalSize p)%nat with false
    by (symmetry; apply Nat.ltb_ge; lia).
  destruct buf as [off len]. cbn [s_off s_len] in *.
  set (size := REMB_MarshalSize p) in *.
  assert (Hsize : size = (20 + 4 * length (remb_SSRCs p))%nat) by reflexivity.
  rewrite <- (write_nothing off st) at 1.
  do 13 write_step.
  unfold bind at 1. rewrite ssub_ok by (cbn [s_off s_len]; lia).
  unfold bind at 1.
  rewrite putBitrate_frame by (cbn [s_off s_len]; rewrite ?length_write; cbn [length app be16 be32]; lia).
  unfold REMB_wire_prefix. fold size.
  destruct (encode u (remb_Bitrate p)) as [bs | e | |] eqn:Henc;
    try (cbn [app be16 be32]; rewrite <- ?app_assoc; reflexivity).
  destruct (encode_length _ _ _ Henc) as [Hbs _].
  cbn [s_off Nat.add]. rewrite write_app' by (cbn [length app be16 be32]; lia).
  rewrite (REMB_put_SSRCs_frame (Slice off len));
    try reflexivity; try (rewrite ?length_app, ?Hbs; cbn [length app be16 be32 s_len s_off]; lia).
Qed.

(** X23. [MarshalTo] of REMB on any buffer. A buffer shorter than
    [MarshalSize] is refused with [errPacketTooShort] and left alone.
    Otherwise a negative bitrate is refused with [errInvalidBitrate] after the
    first 17 bytes of the buffer were overwritten, and any other packet is
    written at the start of the buffer as the bytes [Marshal] returns, with
    [MarshalSize] as the count. *)
Theorem REMB_MarshalTo_outcome (p : ReceiverEstimatedMaximumBitrate) (buf : slice)
    (st : store) :
  f32_valid (remb_Bitrate p) = true ->
  (s_off buf + s_len buf <= length st)%nat ->
  if (s_len buf <? REMB_MarshalSize p)%nat
  then REMB_MarshalTo u p buf st = (Err errPacketTooShort, st)
  else if f32_lt (remb_Bitrate p) f32_0
  then REMB_MarshalTo u p buf st
       = (Err errInvalidBitrate, write (s_off buf) (REMB_wire_prefix p) st) /\
       length (REMB_wire_prefix p) = 17%nat
  else exists bytes,
      REMB_Marshal u p = Ok bytes /\
      length bytes = REMB_MarshalSize p /\
      REMB_MarshalTo u p buf st
      = (Ok (REMB_MarshalSize p), write (s_off buf) bytes st).
Proof.
  intros Hv Hst.
  destruct (Nat.ltb_spec (s_len buf) (REMB_MarshalSize p)) as [Hshort | Hfit].
  - unfold REMB_MarshalTo.
    replace (s_len buf <? REMB_MarshalSize p)%nat with true
      by (symmetry; apply Nat.ltb_lt; lia).
    reflexivity.
  - rewrite REMB_MarshalTo_eq by assumption.
    pose proof (encode_total u (remb_Bitrate p) Hv) as H.
    destruct (f32_lt (remb_Bitrate p) f32_0).
    + rewrite H. split; reflexivity.
    + destruct H as (bs & Henc & Hlen & _). rewrite Henc.
      exists (REMB_wire p bs). rewrite REMB_Marshal_eq, Henc.
      split; [reflexivity |]. split; [apply REMB_wire_length; exact Hlen | reflexivity].
Qed.

End MarshalTo.

(** ** [Unmarshal] of TMMBR and TMMBN on any bytes *)

Lemma from_ok (b : list Z) (lo : nat) :
  (lo <= length b)%nat -> from b lo = Ok (drop lo b).
Proof.
  intros H. unfold from. rewrite sub_ok by lia.
  rewrite take_ge by (rewrite length_drop; lia). reflexivity.
Qed.

Lemma from_panic (b : list Z) (lo : nat) :
  (length b < lo)%nat -> from b lo = Panic.
Proof.
  intros H. unfold from, sub.
  replace (lo <=? length b)%nat with false by (symmetry; apply Nat.leb_gt; lia).
  reflexivity.
Qed.

Lemma Uint32_ok (l : list Z) :
  Forall is_byte l -> (4 <= length l)%nat ->
  exists v, Uint32 l = Ok v /\ is_uint32 v /\ be32 v = take 4 l.
Proof.
  intros Hb Hl. destruct l as [| a [| b [| c [| d rest]]]]; try (cbn [length] in Hl; lia).
  inversion Hb as [| ? ? Ha Hb1]; subst. inversion Hb1 as [| ? ? Hb' Hb2]; subst.
  inversion Hb2 as [| ? ? Hc Hb3]; subst. inversion Hb3 as [| ? ? Hd _]; subst.
  destruct (Uint32_bytes a b c d Ha Hb' Hc Hd) as (v & Hv & Hu & Hbe).
  exists v. split; [exact Hv |]. split; [exact Hu | exact Hbe].
Qed.

Lemma Uint32_panic (l : list Z) : (length l < 4)%nat -> Uint32 l = Panic.
Proof.
  intros Hl. destruct l as [| a [| b [| c [| d rest]]]]; try reflexivity.
  cbn [length] in Hl. lia.
Qed.

Lemma loadBitrate_ok (l : list Z) :
  Forall is_byte l -> (3 <= length l)%nat ->
  exists q, loadBitrate l = Ok q /\ f32_valid q = true /\ f32_lt q f32_0 = false.
Proof.
  intros Hb Hl. destruct l as [| b0 [| b1 [| b2 rest]]]; try (cbn [length] in Hl; lia).
  inversion Hb as [| ? ? H0 Hb1]; subst. inversion Hb1 as [| ? ? H1 Hb2]; subst.
  inversion Hb2 as [| ? ? H2 _]; subst.
  destruct (loadBitrate (b0 :: b1 :: b2 :: rest)) as [q | | |] eqn:E;
    try (rewrite loadBitrate_bytes in E by assumption; discriminate E).
  destruct (loadBitrate_valid b0 b1 b2 rest q H0 H1 H2 E) as (Hv & _ & _ & Hn).
  exists q. repeat split; assumption.
Qed.

Lemma TMMB_get_Entries_ok (body : list Z) (sender : Z) :
  Forall is_byte body ->
  forall (todo i : nat) (done : list TMMBEntry),
    length done = i ->
    todo = 0%nat \/ (8 * (i + todo) + 7 <= length body)%nat ->
    exists out,
      TMMB_get_Entries body todo i
        (MkTMMB sender (done ++ replicate todo (Entry 0 f32_0)))
      = (Ok tt, MkTMMB sender (done ++ out)) /\
      length out = todo /\
      forall k entry, out !! k = Some entry -> TMMB_entry_read body (i + k) entry.
Proof.
  intros Hb. induction todo as [| todo IH]; intros i done Hdone Hfit.
  - exists []. split; [reflexivity |]. split; [reflexivity |].
    intros k entry Hk. discriminate Hk.
  - destruct Hfit as [Hz | Hfit]; [discriminate Hz |].
    cbn [TMMB_get_Entries replicate]. unfold ssrcLength.
    replace (4 * 2 + i * (2 * 4))%nat with (8 + 8 * i)%nat by lia.
    rewrite from_ok by lia.
    destruct (Uint32_ok (drop (8 + 8 * i) body)) as (ssrc & Hssrc & Hu & Hbe);
      [apply Forall_drop, Hb | rewrite length_drop; lia |].
    ustep. rewrite Hssrc. ustep.
    unfold bind at 1. rewrite set_entry_middle by (symmetry; exact Hdone).
    rewrite from_ok by lia.
    destruct (loadBitrate_ok (drop (8 + 8 * i + 4) body)) as (q & Hq & Hv & Hn);
      [apply Forall_drop, Hb | rewrite length_drop; lia |].
    ustep. rewrite Hq. ustep.
    unfold bind at 1. rewrite set_entry_middle by (symmetry; exact Hdone).
    cbn [MediaSSRC Bitrate].
    destruct (IH (S i) (done ++ [Entry ssrc q])) as (out & Hrun & Hlen & Hout).
    { rewrite length_app. cbn [length]. lia. }
    { destruct todo; [left; reflexivity | right; lia]. }
    rewrite <- app_assoc in Hrun. cbn [app] in Hrun.
    exists (Entry ssrc q :: out). split; [rewrite Hrun, <- app_assoc; reflexivity |].
    split; [cbn [length]; lia |].
    intros [| k] entry Hk.
    + injection Hk as <-. rewrite Nat.add_0_r. unfold TMMB_entry_read.
      cbn [MediaSSRC Bitrate].
      replace (12 + 8 * i)%nat with (8 + 8 * i + 4)%nat by lia.
      split; [exact Hu |]. split; [exact Hbe |]. split; [exact Hq |].
      split; [exact Hv | exact Hn].
    + replace (i + S k)%nat with (S i + k)%nat by lia. apply Hout. exact Hk.
Qed.

Lemma TMMB_get_Entries_panic (body : list Z) (sender : Z) :
  Forall is_byte body ->
  forall (todo i : nat) (done : list TMMBEntry),
    length done = i ->
    (0 < todo)%nat -> (length body < 8 * (i + todo) + 7)%nat ->
    fst (TMMB_get_Entries body todo i
           (MkTMMB sender (done ++ replicate todo (Entry 0 f32_0)))) = Panic.
Proof.
  intros Hb. induction todo as [| todo IH]; intros i done Hdone Hpos Hshort; [lia |].
  cbn [TMMB_get_Entries replicate]. unfold ssrcLength.
  replace (4 * 2 + i * (2 * 4))%nat with (8 + 8 * i)%nat by lia.
  destruct (Nat.le_gt_cases (8 + 8 * i) (length body)) as [H1 | H1];
    [| rewrite from_panic by lia; reflexivity].
  rewrite from_ok by lia. ustep.
  destruct (Nat.le_gt_cases (8 + 8 * i + 4) (length body)) as [H2 | H2];
    [| rewrite Uint32_panic by (rewrite length_drop; lia); reflexivity].
  destruct (Uint32_ok (drop (8 + 8 * i) body)) as (ssrc & Hssrc & Hu & Hbe);
    [apply Forall_drop, Hb | rewrite length_drop; lia |].
  rewrite Hssrc. ustep.
  unfold bind at 1. rewrite set_entry_middle by (symmetry; exact Hdone).
  rewrite from_ok by lia. ustep.
  destruct (Nat.le_gt_cases (8 + 8 * i + 7) (length body)) as [H3 | H3];
    [| rewrite loadBitrate_short by (rewrite length_drop; lia); reflexivity].
  destruct (loadBitrate_ok (drop (8 + 8 * i + 4) body)) as (q & Hq & Hv & Hn);
    [apply Forall_drop, Hb | rewrite length_drop; lia |].
  rewrite Hq. ustep.
  unfold bind at 1. rewrite set_entry_middle by (symmetry; exact Hdone).
  cbn [MediaSSRC Bitrate].
  pose proof (IH (S i) (done ++ [Entry ssrc q])) as H.
  rewrite <- app_assoc in H. cbn [app] in H. apply H.
  - rewrite length_app. cbn [length]. lia.
  - lia.
  - lia.
Qed.

Lemma from_not_error (b : list Z) (lo : nat) (e : Error) : from b lo <> Err e.
Proof. unfold from, sub. destruct (_ && _)%bool; discriminate. Qed.

Lemma Uint32_not_error (l : list Z) (e : Error) : Uint32 l <> Err e.
Proof. destruct l as [| a [| b [| c [| d rest]]]]; discriminate. Qed.

Lemma loadBitrate_not_error (l : list Z) (e : Error) : loadBitrate l <> Err e.
Proof.
  unfold loadBitrate.
  destruct (index l 0); try discriminate.
  destruct (index l 1); try discriminate.
  destruct (index l 2); try discriminate.
  destruct (if negb _ then _ else _) as [[? ?] |]; discriminate.
Qed.

Lemma set_entry_not_error (i : nat) (f : TMMBEntry -> TMMBEntry) (p : TMMB) (e : Error) :
  fst (set_entry i f p) <> Err e.
Proof. unfold set_entry. destruct (Entries p !! i); discriminate. Qed.

Lemma TMMB_get_Entries_not_error (body : list Z) (e : Error) :
  forall (todo i : nat) (p : TMMB), fst (TMMB_get_Entries body todo i p) <> Err e.
Proof.
  induction todo as [| todo IH]; intros i p; cbn [TMMB_get_Entries]; [discriminate |].
  unfold bind, lift.
  destruct (from body (ssrcLength * 2 + i * (2 * ssrcLength))) as [b | e1 | |] eqn:E1;
    cbn [fst]; try discriminate; [| destruct (from_not_error _ _ _ E1)].
  destruct (Uint32 b) as [ssrc | e2 | |] eqn:E2;
    cbn [fst]; try discriminate; [| destruct (Uint32_not_error _ _ E2)].
  destruct (set_entry i (fun entry => Entry ssrc (Bitrate entry)) p) as [r3 p1] eqn:E3.
  pose proof (set_entry_not_error i (fun entry => Entry ssrc (Bitrate entry)) p) as H3.
  rewrite E3 in H3. cbn [fst] in H3.
  destruct r3 as [[] | e3 | |]; cbn [fst]; try discriminate; [| destruct (H3 e3 eq_refl)].
  destruct (from body (ssrcLength * 2 + i * (2 * ssrcLength) + ssrcLength))
    as [b' | e4 | |] eqn:E4;
    cbn [fst]; try discriminate; [| destruct (from_not_error _ _ _ E4)].
  destruct (loadBitrate b') as [q | e5 | |] eqn:E5;
    cbn [fst]; try discriminate; [| destruct (loadBitrate_not_error _ _ E5)].
  destruct (set_entry i (fun entry => Entry (MediaSSRC entry) q) p1) as [r6 p2] eqn:E6.
  pose proof (set_entry_not_error i (fun entry => Entry (MediaSSRC entry) q) p1) as H6.
  rewrite E6 in H6. cbn [fst] in H6.
  destruct r6 as [[] | e6 | |]; cbn [fst]; try discriminate; [| destruct (H6 e6 eq_refl)].
  apply IH.
Qed.

(** On four bytes or more the header parser returns an error or a header
    whose [Length] is the big-endian number in bytes 2 and 3. *)
Lemma Header_Unmarshal_length (rawPacket : list Z) (l0 l1 : Z) :
  Forall is_byte rawPacket ->
  sub rawPacket 2 4 = Ok [l0; l1] ->
  (exists e, Header_Unmarshal rawPacket = Err e) \/
  (exists header, Header_Unmarshal rawPacket = Ok header /\
                  Length header = l0 * 2 ^ 8 + l1).
Proof.
  intros Hb Hsub.
  destruct rawPacket as [| b0 [| b1 [| c0 [| c1 rest]]]]; try discriminate Hsub.
  injection Hsub as <- <-.
  assert (Hc1 : is_byte c1).
  { do 3 apply Forall_cons_1, proj2 in Hb. apply Forall_cons_1 in Hb. tauto. }
  unfold Header_Unmarshal.
  change (length (b0 :: b1 :: c0 :: c1 :: rest) <? headerLength)%nat with false.
  change (index (b0 :: b1 :: c0 :: c1 :: rest) 0) with (@Ok Z b0).
  change (index (b0 :: b1 :: c0 :: c1 :: rest) 1) with (@Ok Z b1).
  rewrite from_ok by (cbn [length]; lia). cbn [drop Uint16].
  destruct (negb (Z.shiftr b0 6 =? 2)).
  - left. eexists. reflexivity.
  - right. eexists. split; [reflexivity |]. cbn [Length].
    apply lor_add_shiftl; [lia | exact Hc1].
Qed.

Section UnmarshalTMMB.
Variable format : Z.

(** X24. When [Unmarshal] of TMMBR or TMMBN returns an error, the receiver is
    as it was: every check comes before the first assignment. *)
Theorem TMMB_Unmarshal_error_keeps_receiver (rawPacket : list Z) (p0 p : TMMB)
    (e : Error) :
  TMMB_Unmarshal format rawPacket p0 = (Err e, p) -> p = p0.
Proof.
  unfold TMMB_Unmarshal. cbv zeta.
  destruct (_ <? _)%nat; [intros [= _ <-]; reflexivity |].
  unfold bind at 1. unfold lift at 1.
  destruct (Header_Unmarshal rawPacket) as [header | e' | |];
    [| intros [= _ <-]; reflexivity | discriminate | discriminate].
  destruct (_ <? _)%nat; [intros [= _ <-]; reflexivity |].
  destruct (_ || _)%bool; [intros [= _ <-]; reflexivity |].
  unfold bind at 1. unfold lift at 1.
  destruct (from rawPacket headerLength) as [body | e1 | |] eqn:E1; try discriminate;
    [| destruct (from_not_error _ _ _ E1)].
  unfold bind at 1. unfold lift at 1.
  destruct (Uint32 body) as [sender | e2 | |] eqn:E2; try discriminate;
    [| destruct (Uint32_not_error _ _ E2)].
  unfold bind at 1. unfold modify at 1. unfold bind at 1. unfold modify at 1.
  intros H. exfalso.
  match type of H with
  | TMMB_get_Entries ?b ?todo ?i ?s = _ =>
      apply (TMMB_get_Entries_not_error b e todo i s)
  end.
  rewrite H. reflexivity.
Qed.

(** What [Unmarshal] does once the header passed its checks. *)
Lemma TMMB_Unmarshal_checked (rawPacket : list Z) (p0 : TMMB) (header : Header) :
  Forall is_byte rawPacket ->
  (12 <= length rawPacket)%nat ->
  Header_Unmarshal rawPacket = Ok header ->
  (Z.to_nat (wrap16 (wrap16 (Length header + 1) * 4)) <= length rawPacket)%nat ->
  Type_ header = TypeTransportSpecificFeedback -> Count header = format ->
  if ((Z.to_nat (wrap16 (Length header - 2) / 2) =? 0)%nat
      || (8 * Z.to_nat (wrap16 (Length header - 2) / 2) + 11 <=? length rawPacket)%nat)%bool
  then exists p,
      TMMB_Unmarshal format rawPacket p0 = (Ok tt, p) /\
      length (Entries p) = Z.to_nat (wrap16 (Length header - 2) / 2) /\
      is_uint32 (SenderSSRC p) /\
      be32 (SenderSSRC p) = take 4 (drop 4 rawPacket) /\
      forall k entry, Entries p !! k = Some entry ->
                      TMMB_entry_read (drop 4 rawPacket) k entry
  else fst (TMMB_Unmarshal format rawPacket p0) = Panic.
Proof.
  intros Hb Hlen Hhdr Hexp Hty Hcnt.
  destruct (Uint32_ok (drop 4 rawPacket)) as (sender & Hs & Hu & Hbe);
    [apply Forall_drop, Hb | rewrite length_drop; lia |].
  set (entryCount := Z.to_nat (wrap16 (Length header - 2) / 2)).
  assert (Heq : TMMB_Unmarshal format rawPacket p0
                = TMMB_get_Entries (drop 4 rawPacket) entryCount 0
                    (MkTMMB sender (replicate entryCount (Entry 0 f32_0)))).
  { unfold TMMB_Unmarshal. cbv zeta.
    unfold headerLength, ssrcLength. rewrite Hhdr.
    replace (length rawPacket <? 4 + 4 * 2)%nat with false
      by (symmetry; apply Nat.ltb_ge; lia).
    ustep.
    replace (length rawPacket <? Z.to_nat (wrap16 (wrap16 (Length header + 1) * 4)))%nat
      with false by (symmetry; apply Nat.ltb_ge; lia).
    rewrite Hty, Hcnt, !Z.eqb_refl. cbn [negb orb].
    rewrite from_ok by lia. ustep.
    rewrite Hs. ustep. mstep. mstep. reflexivity. }
  rewrite Heq. clear Heq.
  assert (Hbody : length (drop 4 rawPacket) = (length rawPacket - 4)%nat)
    by apply length_drop.
  destruct (Nat.eqb_spec entryCount 0) as [Hz | Hnz]; cbn [orb].
  - destruct (TMMB_get_Entries_ok (drop 4 rawPacket) sender ltac:(apply Forall_drop, Hb)
                entryCount 0%nat [] eq_refl ltac:(left; exact Hz))
      as (out & Hrun & Hout & Hread).
    cbn [app] in Hrun. rewrite Hrun. exists (MkTMMB sender out).
    cbn [SenderSSRC Entries]. split; [reflexivity |]. split; [exact Hout |].
    split; [exact Hu |]. split; [exact Hbe | exact Hread].
  - destruct (Nat.leb_spec (8 * entryCount + 11) (length rawPacket)) as [Hfit | Hshort].
    + destruct (TMMB_get_Entries_ok (drop 4 rawPacket) sender ltac:(apply Forall_drop, Hb)
                  entryCount 0%nat [] eq_refl ltac:(right; lia))
        as (out & Hrun & Hout & Hread).
      cbn [app] in Hrun. rewrite Hrun. exists (MkTMMB sender out).
      cbn [SenderSSRC Entries]. split; [reflexivity |]. split; [exact Hout |].
    split; [exact Hu |]. split; [exact Hbe | exact Hread].
    + apply (TMMB_get_Entries_panic (drop 4 rawPacket) sender ltac:(apply Forall_drop, Hb)
               entryCount 0%nat [] eq_refl); lia.
Qed.

(** X25. Once the header of a TMMBR or TMMBN packet has passed the checks,
    [Unmarshal] returns [entryCount] entries read from the buffer, each a
    32-bit SSRC and a bitrate that is at least 1, if [entryCount] is 0 or the
    buffer holds [11 + 8 * entryCount] bytes, and it panics otherwise;
    [entryCount] is [(Length - 2) / 2] computed in 16 bits. *)
Theorem TMMB_Unmarshal_outcome (rawPacket : list Z) (p0 : TMMB) (header : Header) :
  Forall is_byte rawPacket ->
  (12 <= length rawPacket)%nat ->
  Header_Unmarshal rawPacket = Ok header ->
  (Z.to_nat (wrap16 (wrap16 (Length header + 1) * 4)) <= length rawPacket)%nat ->
  Type_ header = TypeTransportSpecificFeedback -> Count header = format ->
  if ((Z.to_nat (wrap16 (Length header - 2) / 2) =? 0)%nat
      || (8 * Z.to_nat (wrap16 (Length header - 2) / 2) + 11 <=? length rawPacket)%nat)%bool
  then exists p,
      TMMB_Unmarshal format rawPacket p0 = (Ok tt, p) /\
      length (Entries p) = Z.to_nat (wrap16 (Length header - 2) / 2) /\
      is_uint32 (SenderSSRC p) /\
      be32 (SenderSSRC p) = take 4 (drop 4 rawPacket) /\
      forall k entry, Entries p !! k = Some entry ->
                      TMMB_entry_read (drop 4 rawPacket) k entry
  else fst (TMMB_Unmarshal format rawPacket p0) = Panic.
Proof. apply TMMB_Unmarshal_checked. Qed.

(** No panic once the header is parsed and its length is at least 2 and at
    most [0x3FFE]. *)
Lemma TMMB_Unmarshal_in_range (rawPacket : list Z) (p0 : TMMB) (header : Header) :
  Forall is_byte rawPacket ->
  Header_Unmarshal rawPacket = Ok header ->
  2 <= Length header <= 16382 ->
  (exists e, TMMB_Unmarshal format rawPacket p0 = (Err e, p0)) \/
  (exists p, TMMB_Unmarshal format rawPacket p0 = (Ok tt, p) /\
             Z.of_nat (length (Entries p)) = (Length header - 2) / 2).
Proof.
  intros Hb Hhdr HL.
  assert (Hec : Z.to_nat (wrap16 (Length header - 2) / 2)
                = Z.to_nat ((Length header - 2) / 2)).
  { unfold wrap16. rewrite Z.mod_small by lia. reflexivity. }
  assert (Hexp : Z.to_nat (wrap16 (wrap16 (Length header + 1) * 4))
                 = Z.to_nat (4 * Length header + 4)).
  { unfold wrap16. rewrite (Z.mod_small (Length header + 1)) by lia.
    rewrite Z.mod_small by lia. f_equal. lia. }
  destruct (Nat.lt_ge_cases (length rawPacket) 12) as [Hshort | Hlen].
  { left. exists errPacketTooShort. unfold TMMB_Unmarshal, headerLength, ssrcLength.
    replace (length rawPacket <? 4 + 4 * 2)%nat with true
      by (symmetry; apply Nat.ltb_lt; lia).
    reflexivity. }
  destruct (Nat.lt_ge_cases (length rawPacket)
              (Z.to_nat (wrap16 (wrap16 (Length header + 1) * 4)))) as [Hbad | Hfit].
  { left. exists errBadLength. unfold TMMB_Unmarshal, headerLength, ssrcLength.
    cbv zeta. rewrite Hhdr.
    replace (length rawPacket <? 4 + 4 * 2)%nat with false
      by (symmetry; apply Nat.ltb_ge; lia).
    ustep.
    replace (length rawPacket <? Z.to_nat (wrap16 (wrap16 (Length header + 1) * 4)))%nat
      with true by (symmetry; apply Nat.ltb_lt; lia).
    reflexivity. }
  destruct (negb (Type_ header =? TypeTransportSpecificFeedback)
            || negb (Count header =? format))%bool eqn:Hty.
  { left. exists errWrongType. unfold TMMB_Unmarshal, headerLength, ssrcLength.
    cbv zeta. rewrite Hhdr.
    replace (length rawPacket <? 4 + 4 * 2)%nat with false
      by (symmetry; apply Nat.ltb_ge; lia).
    ustep.
    replace (length rawPacket <? Z.to_nat (wrap16 (wrap16 (Length header + 1) * 4)))%nat
      with false by (symmetry; apply Nat.ltb_ge; lia).
    rewrite Hty. reflexivity. }
  apply orb_false_iff in Hty as [Ht Hc].
  apply negb_false_iff, Z.eqb_eq in Ht, Hc.
  pose proof (TMMB_Unmarshal_checked rawPacket p0 header Hb Hlen Hhdr Hfit Ht Hc) as H.
  replace (8 * Z.to_nat (wrap16 (Length header - 2) / 2) + 11 <=? length rawPacket)%nat
    with true in H.
  2: { symmetry. apply Nat.leb_le. rewrite Hec. rewrite Hexp in Hfit.
       assert (0 <= (Length header - 2) / 2) by (apply Z.div_pos; lia).
       assert (2 * ((Length header - 2) / 2) <= Length header - 2)
         by (apply Z.mul_div_le; lia).
       lia. }
  rewrite orb_true_r in H. destruct H as (p & Hrun & Hcount & _).
  right. exists p. split; [exact Hrun |]. rewrite Hcount, Hec.
  apply Z2Nat.id. apply Z.div_pos; lia.
Qed.

(** X26. [Unmarshal] of TMMBR or TMMBN does not panic on a buffer whose length
    field, the big-endian number in bytes 2 and 3, is at least 2 and at most
    [0x3FFE], whatever the other bytes are, the version bits among them:
    neither the entry count nor the expected size wraps in 16 bits there. It
    returns an error and leaves the receiver alone, or it returns
    [(length field - 2) / 2] entries. *)
Theorem TMMB_Unmarshal_safe (rawPacket : list Z) (p0 : TMMB) (l0 l1 : Z) :
  Forall is_byte rawPacket ->
  sub rawPacket 2 4 = Ok [l0; l1] ->
  2 <= l0 * 2 ^ 8 + l1 <= 16382 ->
  (exists e, TMMB_Unmarshal format rawPacket p0 = (Err e, p0)) \/
  (exists p, TMMB_Unmarshal format rawPacket p0 = (Ok tt, p) /\
             Z.of_nat (length (Entries p)) = (l0 * 2 ^ 8 + l1 - 2) / 2).
Proof.
  intros Hb Hsub HL.
  destruct (Header_Unmarshal_length rawPacket l0 l1 Hb Hsub)
    as [[e He] | (header & Hhdr & Hlen)].
  - left. unfold TMMB_Unmarshal. cbv zeta.
    destruct (_ <? _)%nat; [exists errPacketTooShort; reflexivity |].
    exists e. ustep. rewrite He. reflexivity.
  - rewrite <- Hlen in *.
    exact (TMMB_Unmarshal_in_range rawPacket p0 header Hb Hhdr HL).
Qed.

End UnmarshalTMMB.

(** ** [DestinationSSRC] *)

Lemma TMMB_fill_SSRCs_spec (entries : list TMMBEntry) :
  forall (done rest : list Z),
    length rest = length entries ->
    TMMB_fill_SSRCs (length done) entries (done ++ rest)
    = (Ok tt, done ++ map MediaSSRC entries).
Proof.
  induction entries as [| entry entries IH]; intros done rest Hlen.
  - destruct rest; [reflexivity | discriminate Hlen].
  - destruct rest as [| x rest]; [discriminate Hlen |].
    cbn [TMMB_fill_SSRCs map]. unfold bind at 1. unfold set_word.
    replace (length done <? length (done ++ x :: rest))%nat with true
      by (symmetry; apply Nat.ltb_lt; rewrite length_app; cbn [length]; lia).
    rewrite insert_app_r_alt, Nat.sub_diag by lia. cbn [insert list_insert].
    rewrite (cons_middle (MediaSSRC entry) done rest), app_assoc.
    replace (S (length done)) with (length (done ++ [MediaSSRC entry]))
      by (rewrite length_app; cbn [length]; lia).
    rewrite (IH (done ++ [MediaSSRC entry]) rest) by (cbn [length] in Hlen; lia).
    rewrite <- app_assoc. reflexivity.
Qed.

Lemma TMMB_DestinationSSRC_map (p : TMMB) :
  TMMB_DestinationSSRC p = Ok (map MediaSSRC (Entries p)).
Proof.
  unfold TMMB_DestinationSSRC. cbv zeta.
  pose proof (TMMB_fill_SSRCs_spec (Entries p) [] (replicate (length (Entries p)) 0)
                (length_replicate _ _)) as H.
  cbn [app length] in H. rewrite H. reflexivity.
Qed.

(** X27. [DestinationSSRC] of TMMBR and of TMMBN never panics and returns the
    media SSRCs of the entries, in their order. *)
Theorem TMMB_DestinationSSRC_eq (p : TMMB) :
  TMMB_DestinationSSRC p = Ok (map MediaSSRC (Entries p)).
Proof. apply TMMB_DestinationSSRC_map. Qed.

Lemma comes_back_ssrcs (u : float32 -> Z) (entries entries' : list TMMBEntry) :
  Forall2 (comes_back u) entries entries' ->
  map MediaSSRC entries' = map MediaSSRC entries.
Proof.
  induction 1 as [| entry entry' rest rest' [Hs _] _ IH]; [reflexivity |].
  cbn [map]. rewrite Hs, IH. reflexivity.
Qed.

(** X28. The destination SSRCs of a valid packet are those of the packet that
    [Unmarshal] returns for the bytes [Marshal] wrote. *)
Theorem DestinationSSRC_roundtrip (u : float32 -> Z) (pk receiver : Packet) :
  valid_packet pk -> same_type pk receiver ->
  exists bytes pk' ssrcs,
    Marshal u pk = Ok bytes /\
    Unmarshal bytes receiver = (Ok tt, pk') /\
    DestinationSSRC pk = Ok ssrcs /\
    DestinationSSRC pk' = Ok ssrcs.
Proof.
  intros [Hb Hv] Hty.
  destruct pk as [p | p | p]; destruct receiver as [p0 | p0 | p0];
    try contradiction; cbn [Marshal Unmarshal bitrates DestinationSSRC] in *.
  - destruct Hv as (Hs & Hall & Hlen).
    inversion Hb as [| ? ? [Hbv Hbn] _]; subst.
    destruct (REMB_roundtrip u p p0 Hs Hall ltac:(lia) Hbv Hbn)
      as (bytes & q & HM & Hq & HU).
    exists bytes, (PacketREMB (REMB (remb_SenderSSRC p) q (remb_SSRCs p))), (remb_SSRCs p).
    rewrite HM, HU. repeat split.
  - destruct Hv as (Hs & Hall & Hlen).
    destruct (TMMB_roundtrip u FormatTMMBR p p0 ltac:(unfold FormatTMMBR; lia) Hs
                (valid_entries _ Hb Hall) Hlen) as (bytes & entries' & HM & Hq & HU).
    exists bytes, (PacketTMMBR (MkTMMB (SenderSSRC p) entries')), (map MediaSSRC (Entries p)).
    unfold TMMBR_Marshal, TMMBR_Unmarshal. cbn [DestinationSSRC].
    rewrite HM, HU, !TMMB_DestinationSSRC_map.
    cbn [Entries]. rewrite (comes_back_ssrcs u _ _ Hq). repeat split.
  - destruct Hv as (Hs & Hall & Hlen).
    destruct (TMMB_roundtrip u FormatTMMBN p p0 ltac:(unfold FormatTMMBN; lia) Hs
                (valid_entries _ Hb Hall) Hlen) as (bytes & entries' & HM & Hq & HU).
    exists bytes, (PacketTMMBN (MkTMMB (SenderSSRC p) entries')), (map MediaSSRC (Entries p)).
    unfold TMMBN_Marshal, TMMBN_Unmarshal. cbn [DestinationSSRC].
    rewrite HM, HU, !TMMB_DestinationSSRC_map.
    cbn [Entries]. rewrite (comes_back_ssrcs u _ _ Hq). repeat split.
Qed.

(** ** [Marshal] of TMMBR and TMMBN with any number of entries *)

Section MarshalAny.
Variable u : float32 -> Z.

Lemma TMMB_wire_entries_error (entries : list TMMBEntry) :
  Forall (fun entry => f32_valid (Bitrate entry) = true) entries ->
  existsb (fun entry => f32_lt (Bitrate entry) f32_0) entries = true ->
  TMMB_wire_entries u entries = Err errInvalidBitrate.
Proof.
  induction 1 as [| entry rest Hv _ IH]; [discriminate |].
  cbn [existsb TMMB_wire_entries]. pose proof (encode_total u _ Hv) as Ht.
  destruct (f32_lt (Bitrate entry) f32_0); cbn [orb].
  - intros _. rewrite Ht. reflexivity.
  - intros Hrest. destruct Ht as (bs & -> & _). rewrite (IH Hrest). reflexivity.
Qed.

Lemma TMMB_wire_entries_ok (entries : list TMMBEntry) :
  Forall (fun entry => f32_valid (Bitrate entry) = true) entries ->
  existsb (fun entry => f32_lt (Bitrate entry) f32_0) entries = false ->
  exists tl,
    TMMB_wire_entries u entries = Ok tl /\
    length tl = (8 * length entries)%nat /\
    forall k entry,
      entries !! k = Some entry ->
      exists bs,
        encode u (Bitrate entry) = Ok bs /\
        take 8 (drop (8 * k) tl) = be32 (MediaSSRC entry) ++ bs ++ [0].
Proof.
  induction 1 as [| entry rest Hv _ IH].
  - intros _. exists []. split; [reflexivity |]. split; [reflexivity |].
    intros k entry Hk. discriminate Hk.
  - cbn [existsb]. intros Hneg. apply orb_false_iff in Hneg as [Hn Hrest].
    destruct (IH Hrest) as (tl & Htl & Hlen & Hat).
    pose proof (encode_total u _ Hv) as Ht. rewrite Hn in Ht.
    destruct Ht as (bs & Henc & Hbs & _).
    cbn [TMMB_wire_entries]. rewrite Henc, Htl.
    eexists. split; [reflexivity |]. split.
    + rewrite !length_app, Hbs, Hlen. cbn [length be32]. lia.
    + intros [| k] entry' Hk.
      * injection Hk as <-. exists bs. split; [exact Henc |].
        rewrite Nat.mul_0_r, drop_0, !app_assoc.
        rewrite take_app_length'; [reflexivity |].
        rewrite !length_app, Hbs. reflexivity.
      * destruct (Hat k entry' Hk) as (bs' & Henc' & Htake).
        exists bs'. split; [exact Henc' |].
        replace (8 * S k)%nat with (8 + 8 * k)%nat by lia.
        rewrite <- drop_drop, !app_assoc.
        rewrite drop_app_length'; [exact Htake |].
        rewrite !length_app, Hbs. reflexivity.
Qed.

(** X29. [Marshal] of TMMBR and of TMMBN, for any number of entries: it
    returns [errInvalidBitrate] when an entry has a negative bitrate;
    otherwise it returns [MarshalSize] bytes, which are the header, the sender
    SSRC, four zero bytes, and for each entry its media SSRC, the three bytes
    [putBitrate] writes for its bitrate, and a zero byte. *)
Theorem TMMB_Marshal_outcome (format : Z) (p : TMMB) :
  Forall (fun entry => f32_valid (Bitrate entry) = true) (Entries p) ->
  if existsb (fun entry => f32_lt (Bitrate entry) f32_0) (Entries p)
  then TMMB_Marshal u format p = Err errInvalidBitrate
  else exists tl,
      TMMB_Marshal u format p
      = Ok (TMMB_wire_header format p ++ be32 (SenderSSRC p) ++ [0; 0; 0; 0] ++ tl) /\
      length (TMMB_wire_header format p ++ be32 (SenderSSRC p) ++ [0; 0; 0; 0] ++ tl)
      = TMMB_MarshalSize p /\
      forall k entry,
        Entries p !! k = Some entry ->
        exists bs,
          encode u (Bitrate entry) = Ok bs /\
          take 8 (drop (8 * k) tl) = be32 (MediaSSRC entry) ++ bs ++ [0].
Proof.
  intros Hv. rewrite TMMB_Marshal_eq.
  destruct (existsb _ (Entries p)) eqn:Hneg.
  - rewrite TMMB_wire_entries_error by assumption. reflexivity.
  - destruct (TMMB_wire_entries_ok (Entries p) Hv Hneg) as (tl & -> & Hlen & Hat).
    exists tl. split; [reflexivity |]. split; [| exact Hat].
    rewrite !length_app, Hlen. unfold TMMB_MarshalSize, headerLength, ssrcLength.
    cbn [length TMMB_wire_header be16 be32 app]. lia.
Qed.

End MarshalAny.

(** ** A packet of one type and [Unmarshal] of another *)

Lemma Header_Unmarshal_prefix (b0 ty L : Z) (rest : list Z) :
  b0 / 2 ^ 6 = 2 -> 0 <= L < 2 ^ 16 ->
  Header_Unmarshal ([b0; ty] ++ be16 L ++ rest)
  = Ok (MkHeader (negb (Z.land (Z.shiftr b0 5) 1 =? 0)) (Z.land b0 31) ty L).
Proof.
  intros Hv HL. unfold Header_Unmarshal.
  change (length ([b0; ty] ++ be16 L ++ rest) <? headerLength)%nat with false.
  change (index ([b0; ty] ++ be16 L ++ rest) 0) with (@Ok Z b0).
  change (index ([b0; ty] ++ be16 L ++ rest) 1) with (@Ok Z ty).
  rewrite (from_app [b0; ty]) by reflexivity.
  rewrite Z.shiftr_div_pow2, Hv by lia. cbn [Z.eqb Pos.eqb negb].
  rewrite Uint16_be16 by assumption. reflexivity.
Qed.

Section Rejects.
Variable u : float32 -> Z.

(** [Unmarshal] of TMMBR or TMMBN on the bytes of a REMB packet. *)
Lemma TMMB_Unmarshal_REMB (format : Z) (p : ReceiverEstimatedMaximumBitrate)
    (p0 : TMMB) (bs : list Z) :
  length bs = 3%nat -> (length (remb_SSRCs p) <= 255)%nat ->
  TMMB_Unmarshal format (REMB_wire p bs) p0 = (Err errWrongType, p0).
Proof.
  intros Hbs Hn.
  pose proof (REMB_wire_length p bs Hbs) as Hlen. unfold REMB_MarshalSize in Hlen.
  set (n := length (remb_SSRCs p)) in *.
  assert (HL : wrap16 (Z.of_nat (REMB_MarshalSize p) / 4 - 1) = Z.of_nat n + 4).
  { unfold REMB_MarshalSize, wrap16. fold n.
    replace (Z.of_nat (20 + 4 * n) / 4 - 1) with (Z.of_nat n + 4)
      by (Z.div_mod_to_equations; lia).
    apply Z.mod_small. lia. }
  unfold TMMB_Unmarshal. cbv zeta. rewrite Hlen.
  unfold REMB_wire. rewrite HL.
  rewrite Header_Unmarshal_prefix by (try reflexivity; lia).
  unfold headerLength, ssrcLength.
  replace (20 + 4 * n <? 4 + 4 * 2)%nat with false by (symmetry; apply Nat.ltb_ge; lia).
  ustep. cbn [Length Type_ Count].
  replace (20 + 4 * n <? Z.to_nat (wrap16 (wrap16 (Z.of_nat n + 4 + 1) * 4)))%nat
    with false.
  2: { symmetry. apply Nat.ltb_ge. unfold wrap16.
       rewrite (Z.mod_small (Z.of_nat n + 4 + 1)) by lia.
       rewrite Z.mod_small by lia. lia. }
  reflexivity.
Qed.

(** The header of the bytes of a TMMBR or TMMBN packet. *)
Lemma Header_Unmarshal_TMMB (format : Z) (p : TMMB) (rest : list Z) :
  0 <= format < 2 ^ 5 -> Z.of_nat (length (Entries p)) <= 32766 ->
  Header_Unmarshal (TMMB_wire_header format p ++ rest)
  = Ok (MkHeader false format TypeTransportSpecificFeedback
          (2 * Z.of_nat (length (Entries p)) + 2)).
Proof.
  intros Hf Hn. unfold TMMB_wire_header. rewrite format_byte by assumption.
  assert (HL : wrap16 (Z.of_nat (TMMB_MarshalSize p) / 4 - 1)
               = 2 * Z.of_nat (length (Entries p)) + 2).
  { unfold TMMB_MarshalSize, headerLength, ssrcLength, wrap16.
    replace (Z.of_nat (4 + 4 * 2 + length (Entries p) * (2 * 4)) / 4 - 1)
      with (2 * Z.of_nat (length (Entries p)) + 2) by (Z.div_mod_to_equations; lia).
    apply Z.mod_small. lia. }
  rewrite HL, <- app_assoc.
  rewrite Header_Unmarshal_prefix by (try lia; Z.div_mod_to_equations; lia).
  rewrite land_1, land_31, Z.shiftr_div_pow2 by lia.
  replace (((2 * 2 ^ 6 + format) / 2 ^ 5) mod 2 ^ 1) with 0
    by (Z.div_mod_to_equations; lia).
  replace ((2 * 2 ^ 6 + format) mod 2 ^ 5) with format
    by (Z.div_mod_to_equations; lia).
  reflexivity.
Qed.

(** [Unmarshal] of TMMBR on the bytes of a TMMBN packet, and the reverse. *)
Lemma TMMB_Unmarshal_other_format (format format' : Z) (p p0 : TMMB) (tl : list Z) :
  0 <= format < 2 ^ 5 -> format <> format' ->
  Z.of_nat (length (Entries p)) <= 32766 ->
  length tl = (8 * length (Entries p))%nat ->
  TMMB_Unmarshal format'
    (TMMB_wire_header format p ++ be32 (SenderSSRC p) ++ be32 0 ++ tl) p0
  = (Err errWrongType, p0).
Proof.
  intros Hf Hne Hn Htl. unfold TMMB_Unmarshal. cbv zeta.
  rewrite Header_Unmarshal_TMMB by assumption.
  set (n := length (Entries p)) in *.
  assert (Hlen : length (TMMB_wire_header format p ++ be32 (SenderSSRC p) ++ be32 0 ++ tl)
                 = (12 + 8 * n)%nat).
  { rewrite !length_app, Htl. reflexivity. }
  rewrite Hlen. unfold headerLength, ssrcLength.
  replace (12 + 8 * n <? 4 + 4 * 2)%nat with false by (symmetry; apply Nat.ltb_ge; lia).
  ustep. cbn [Length Type_ Count].
  replace (12 + 8 * n <? Z.to_nat (wrap16 (wrap16 (2 * Z.of_nat n + 2 + 1) * 4)))%nat
    with false.
  2: { symmetry. apply Nat.ltb_ge. unfold wrap16.
       rewrite (Z.mod_small (2 * Z.of_nat n + 2 + 1)) by lia.
       pose proof (Z.mod_le ((2 * Z.of_nat n + 2 + 1) * 4) (2 ^ 16) ltac:(lia) ltac:(lia)).
       pose proof (Z.mod_pos_bound ((2 * Z.of_nat n + 2 + 1) * 4) (2 ^ 16) ltac:(lia)).
       lia. }
  replace (format =? format') with false by (symmetry; apply Z.eqb_neq; exact Hne).
  rewrite Z.eqb_refl. reflexivity.
Qed.

(** [Unmarshal] of REMB on the bytes of a TMMBR or TMMBN packet. *)
Lemma REMB_Unmarshal_TMMB (format : Z) (p : TMMB) (p0 : ReceiverEstimatedMaximumBitrate)
    (tl : list Z) :
  format = FormatTMMBR \/ format = FormatTMMBN ->
  exists e,
    REMB_Unmarshal
      (TMMB_wire_header format p ++ be32 (SenderSSRC p) ++ be32 0 ++ tl) p0
    = (Err e, p0).
Proof.
  intros Hf. unfold REMB_Unmarshal. cbv zeta.
  destruct (_ <? 20)%nat; [exists errPacketTooShort; reflexivity |].
  exists errWrongFeedbackType. destruct Hf as [-> | ->]; reflexivity.
Qed.

(** X30. The bytes [Marshal] returns for a valid packet are refused by
    [Unmarshal] of each of the two other packet types, with an error and the
    receiver left as it was. *)
Theorem Unmarshal_rejects_other_types (pk receiver : Packet) :
  valid_packet pk -> ~ same_type pk receiver ->
  exists bytes e,
    Marshal u pk = Ok bytes /\ Unmarshal bytes receiver = (Err e, receiver).
Proof.
  intros [Hb Hv] Hty.
  destruct pk as [p | p | p].
  - destruct Hv as (Hs & Hall & Hlen). cbn [bitrates] in Hb.
    inversion Hb as [| ? ? [Hbv Hbn] _]; subst.
    destruct (quantized_total u _ Hbv Hbn) as (b0 & b1 & b2 & q & Henc & _ & _).
    exists (REMB_wire p [b0; b1; b2]), errWrongType.
    cbn [Marshal]. rewrite REMB_Marshal_eq, Henc. split; [reflexivity |].
    destruct receiver as [p0 | p0 | p0]; [destruct (Hty I) | |]; cbn [Unmarshal].
    + unfold TMMBR_Unmarshal. rewrite TMMB_Unmarshal_REMB by (try reflexivity; lia).
      reflexivity.
    + unfold TMMBN_Unmarshal. rewrite TMMB_Unmarshal_REMB by (try reflexivity; lia).
      reflexivity.
  - destruct Hv as (Hs & Hall & Hlen). cbn [bitrates] in Hb.
    destruct (TMMB_wire_entries_total u (Entries p)) as [tl Htl].
    { pose proof (valid_entries _ Hb Hall) as H.
      eapply Forall_impl; [exact H | intros ? (_ & ?); assumption]. }
    pose proof (TMMB_wire_entries_length u _ _ Htl) as Htll.
    cbn [Marshal]. unfold TMMBR_Marshal. rewrite TMMB_Marshal_eq, Htl.
    destruct receiver as [p0 | p0 | p0]; [| destruct (Hty I) |]; cbn [Unmarshal].
    + destruct (REMB_Unmarshal_TMMB FormatTMMBR p p0 tl ltac:(left; reflexivity)) as [e He].
      eexists _, e. split; [reflexivity |]. rewrite He. reflexivity.
    + eexists _, errWrongType. split; [reflexivity |].
      unfold TMMBN_Unmarshal.
      rewrite TMMB_Unmarshal_other_format;
        [reflexivity | unfold FormatTMMBR; lia | discriminate | lia | exact Htll].
  - destruct Hv as (Hs & Hall & Hlen). cbn [bitrates] in Hb.
    destruct (TMMB_wire_entries_total u (Entries p)) as [tl Htl].
    { pose proof (valid_entries _ Hb Hall) as H.
      eapply Forall_impl; [exact H | intros ? (_ & ?); assumption]. }
    pose proof (TMMB_wire_entries_length u _ _ Htl) as Htll.
    cbn [Marshal]. unfold TMMBN_Marshal. rewrite TMMB_Marshal_eq, Htl.
    destruct receiver as [p0 | p0 | p0]; [| | destruct (Hty I)]; cbn [Unmarshal].
    + destruct (REMB_Unmarshal_TMMB FormatTMMBN p p0 tl ltac:(right; reflexivity)) as [e He].
      eexists _, e. split; [reflexivity |]. rewrite He. reflexivity.
    + eexists _, errWrongType. split; [reflexivity |].
      unfold TMMBR_Unmarshal.
      rewrite TMMB_Unmarshal_other_format;
        [reflexivity | unfold FormatTMMBN; lia | discriminate | lia | exact Htll].
Qed.

End Rejects.

(** ** The further properties at concrete inputs *)

(** A list of literals is a list of bytes. *)
Ltac bytes_ok := repeat (constructor; [unfold is_byte; lia |]); constructor.

(** X1 at the length 5. *)
Lemma getPadding_aligns_witness :
  0 <= 5 /\
  (0 <= getPadding 5 < 4 /\ (5 + getPadding 5) mod 4 = 0 /\
   forall k, 0 <= k -> (5 + k) mod 4 = 0 -> getPadding 5 <= k).
Proof. split; [lia | apply (getPadding_aligns 5); lia]. Defined.

(** X2 at a 4-bit field, 4 bits from the top. *)
Lemma setNBitsOfUint16_bits_witness :
  0 <= 32769 < 2 ^ 16 /\ 0 <= 4 /\ 0 <= 4 /\ 4 + 4 <= 16 /\
  exists r,
    setNBitsOfUint16 32769 4 4 10 = Ok r /\ 0 <= r < 2 ^ 16 /\
    forall i, 0 <= i ->
      Z.testbit r i =
      Z.testbit 32769 i ||
      ((16 - 4 - 4 <=? i) && (i <? 16 - 4) && Z.testbit 10 (i - (16 - 4 - 4))).
Proof.
  split; [lia |]. split; [lia |]. split; [lia |]. split; [lia |].
  apply (setNBitsOfUint16_bits 32769 4 4 10); lia.
Defined.

(** X3 at a 9-bit field, 8 bits from the top. *)
Lemma setNBitsOfUint16_error_witness :
  0 <= 9 < 2 ^ 16 /\ 0 <= 8 < 2 ^ 16 /\
  (setNBitsOfUint16 0 9 8 1 = Err errInvalidSizeOrStartIndex <->
   16 < 8 + 9 < 2 ^ 16 \/ 2 ^ 16 + 16 < 8 + 9).
Proof.
  split; [lia |]. split; [lia |]. apply (setNBitsOfUint16_error 0 9 8 1); lia.
Defined.

(** X4 at 3 bits. *)
Lemma appendNBitsToUint32_bits_witness :
  0 <= 3 <= 32 /\
  (is_uint32 (appendNBitsToUint32 5 3 6) /\
   forall i, 0 <= i < 32 ->
     Z.testbit (appendNBitsToUint32 5 3 6) i =
     if i <? 3 then Z.testbit 6 i else Z.testbit 5 (i - 3)).
Proof. split; [lia | apply (appendNBitsToUint32_bits 5 3 6); lia]. Defined.

(** X5 at 3 bits and 4 bits. *)
Lemma appendNBitsToUint32_assoc_witness :
  0 <= 3 /\ 0 <= 4 /\ 3 + 4 <= 32 /\
  appendNBitsToUint32 (appendNBitsToUint32 5 3 6) 4 9
  = appendNBitsToUint32 5 (3 + 4) (appendNBitsToUint32 6 4 9).
Proof.
  split; [lia |]. split; [lia |]. split; [lia |].
  apply (appendNBitsToUint32_assoc 5 3 6 4 9); lia.
Defined.

(** X6 at the 3 bits that start 2 bits from the top. *)
Lemma getNBitsFromByte_value_witness :
  0 <= 2 /\ 0 <= 3 /\ 2 + 3 <= 8 /\
  getNBitsFromByte 180 2 3 = (180 / 2 ^ (8 - 2 - 3)) mod 2 ^ 3.
Proof.
  split; [lia |]. split; [lia |]. split; [lia |].
  apply (getNBitsFromByte_value 180 2 3); lia.
Defined.

(** X7 at the 3 bits that start 6 bits from the top. *)
Lemma getNBitsFromByte_out_of_range_witness :
  0 <= 6 /\ 0 <= 3 /\ 8 < 6 + 3 < 2 ^ 16 /\ getNBitsFromByte 255 6 3 = 0.
Proof.
  split; [lia |]. split; [lia |]. split; [lia |].
  apply (getNBitsFromByte_out_of_range 255 6 3); lia.
Defined.

(** X8 at the bitrate bytes of [TestTMMBNMarshal]. *)
Lemma get24BitsFromBytes_spec_witness :
  Forall is_byte [26; 32; 223] /\
  get24BitsFromBytes [26; 32; 223] = Ok (26 * 2 ^ 16 + 32 * 2 ^ 8 + 223) /\
  0 <= 26 * 2 ^ 16 + 32 * 2 ^ 8 + 223 < 2 ^ 24.
Proof.
  assert (H : Forall is_byte [26; 32; 223]) by bytes_ok.
  split; [exact H | exact (get24BitsFromBytes_spec [26; 32; 223] H)].
Defined.

(** X10 at the bitrate bytes of [TestTMMBNMarshal]. *)
Lemma loadBitrate_outcome_witness :
  Forall is_byte [26; 32; 223] /\
  exists d, loadBitrate [26; 32; 223] = Ok d /\ f32_valid d = true /\
            f32_finite d = true /\ f32_le f32_1 d = true.
Proof.
  assert (H : Forall is_byte [26; 32; 223]) by bytes_ok.
  split; [exact H | exact (loadBitrate_outcome [26; 32; 223] H)].
Defined.

(** X11 at the bitrate bytes of [TestTMMBNMarshal]. *)
Lemma loadBitrate_value_witness :
  is_byte 26 /\ is_byte 32 /\ is_byte 223 /\
  exists (word : Z) (d : float32),
    get24BitsFromBytes [26; 32; 223] = Ok word /\
    loadBitrate [26; 32; 223] = Ok d /\
    f32_finite d = true /\
    f32_units d =
    if word mod 2 ^ 18 =? 0 then 2 ^ (word / 2 ^ 18 + 23 + 149)
    else word mod 2 ^ 18 * 2 ^ (word / 2 ^ 18 + 149).
Proof.
  assert (H0 : is_byte 26) by (unfold is_byte; lia).
  assert (H1 : is_byte 32) by (unfold is_byte; lia).
  assert (H2 : is_byte 223) by (unfold is_byte; lia).
  split; [exact H0 |]. split; [exact H1 |]. split; [exact H2 |].
  exact (loadBitrate_value 26 32 223 [] H0 H1 H2).
Defined.

(** X12 at the bitrate 8927168, in the middle of an array. *)
Lemma putBitrate_outcome_witness :
  f32_valid (S754_finite false 8927168 0) = true /\
  (3 <= s_len (Slice 1 3))%nat /\ (s_off (Slice 1 3) + 3 <= length [9; 9; 9; 9; 9])%nat /\
  exists bs st',
    putBitrate uint_zero (S754_finite false 8927168 0) (Slice 1 3) [9; 9; 9; 9; 9]
    = (Ok tt, st') /\
    length bs = 3%nat /\ Forall is_byte bs /\
    length st' = length [9; 9; 9; 9; 9] /\
    (forall i, (i < 3)%nat -> st' !! (s_off (Slice 1 3) + i)%nat = bs !! i) /\
    (forall i, (i < s_off (Slice 1 3) \/ s_off (Slice 1 3) + 3 <= i)%nat ->
               st' !! i = [9; 9; 9; 9; 9] !! i).
Proof.
  split; [reflexivity |]. split; [cbn; lia |]. split; [cbn; lia |].
  apply (putBitrate_outcome uint_zero (S754_finite false 8927168 0) (Slice 1 3)
           [9; 9; 9; 9; 9]); [reflexivity | cbn; lia | cbn; lia].
Defined.

(** X13 at a slice of two bytes. *)
Lemma putBitrate_short_buffer_witness :
  f32_valid (S754_finite false 8927168 0) = true /\
  (s_len (Slice 0 2) < 3)%nat /\
  fst (putBitrate uint_zero (S754_finite false 8927168 0) (Slice 0 2) [9; 9]) = Panic.
Proof.
  split; [reflexivity |]. split; [cbn; lia |].
  apply (putBitrate_short_buffer uint_zero (S754_finite false 8927168 0) (Slice 0 2)
           [9; 9]); [reflexivity | cbn; lia].
Defined.

(** X14 at the bitrate 0.5. *)
Lemma quantized_below_1_witness :
  f32_valid (S754_finite false 8388608 (-24)) = true /\
  f32_le f32_0 (S754_finite false 8388608 (-24)) = true /\
  f32_lt (S754_finite false 8388608 (-24)) f32_1 = true /\
  (3 <= s_len (Slice 0 3))%nat /\ (s_off (Slice 0 3) + 3 <= length [9; 9; 9])%nat /\
  putBitrate uint_zero (S754_finite false 8388608 (-24)) (Slice 0 3) [9; 9; 9]
  = (Ok tt, write (s_off (Slice 0 3)) [0; 0; 0] [9; 9; 9]) /\
  loadBitrate [0; 0; 0] = Ok (S754_finite false 8388608 0) /\
  f32_units (S754_finite false 8388608 0) = 2 ^ 23 * 2 ^ 149.
Proof.
  split; [reflexivity |]. split; [reflexivity |]. split; [reflexivity |].
  split; [cbn; lia |]. split; [cbn; lia |].
  apply (quantized_below_1 uint_zero (S754_finite false 8388608 (-24)) (Slice 0 3)
           [9; 9; 9]); [reflexivity | reflexivity | reflexivity | cbn; lia | cbn; lia].
Defined.

(** X15 at the bitrate 8927167 of [TestTMMBNTruncate]. *)
Lemma quantized_idempotent_witness :
  f32_valid (S754_finite false 8927167 0) = true /\
  f32_le f32_0 (S754_finite false 8927167 0) = true /\
  exists q, quantized uint_zero (S754_finite false 8927167 0) = Ok q /\
            quantized uint_zero q = Ok q.
Proof.
  split; [reflexivity |]. split; [reflexivity |].
  apply (quantized_idempotent uint_zero (S754_finite false 8927167 0));
    reflexivity.
Defined.

(** X16 at the bitrate bytes of [TestTMMBNMarshal]. *)
Lemma loadBitrate_fixed_point_witness :
  is_byte 26 /\ is_byte 32 /\ is_byte 223 /\
  (26 mod 2 ^ 2 * 2 ^ 16 + 32 * 2 ^ 8 + 223 <> 0 \/ 26 / 2 ^ 2 < 58) /\
  loadBitrate [26; 32; 223] = Ok (S754_finite false 8927168 0) /\
  quantized uint_zero (S754_finite false 8927168 0) = Ok (S754_finite false 8927168 0).
Proof.
  assert (H0 : is_byte 26) by (unfold is_byte; lia).
  assert (H1 : is_byte 32) by (unfold is_byte; lia).
  assert (H2 : is_byte 223) by (unfold is_byte; lia).
  assert (Hfix : 26 mod 2 ^ 2 * 2 ^ 16 + 32 * 2 ^ 8 + 223 <> 0 \/ 26 / 2 ^ 2 < 58)
    by (right; reflexivity).
  split; [exact H0 |]. split; [exact H1 |]. split; [exact H2 |]. split; [exact Hfix |].
  split; [reflexivity |].
  exact (loadBitrate_fixed_point uint_zero 26 32 223 [] (S754_finite false 8927168 0)
           H0 H1 H2 Hfix eq_refl).
Defined.

(** X17 at the bitrates 8927167 and 8927168. *)
Lemma quantized_monotone_witness :
  f32_valid (S754_finite false 8927167 0) = true /\
  f32_valid (S754_finite false 8927168 0) = true /\
  f32_le f32_1 (S754_finite false 8927167 0) = true /\
  f32_le (S754_finite false 8927167 0) (S754_finite false 8927168 0) = true /\
  exists qv qw,
    quantized uint_zero (S754_finite false 8927167 0) = Ok qv /\
    quantized uint_zero (S754_finite false 8927168 0) = Ok qw /\
    f32_le qv qw = true.
Proof.
  split; [reflexivity |]. split; [reflexivity |]. split; [reflexivity |].
  split; [reflexivity |].
  apply (quantized_monotone uint_zero (S754_finite false 8927167 0)
           (S754_finite false 8927168 0)); reflexivity.
Defined.

(** X18 at the bitrate bytes of [TestTMMBNMarshal]. *)
Lemma putBitrate_loadBitrate_witness :
  is_byte 26 /\ is_byte 32 /\ is_byte 223 /\
  26 mod 2 ^ 2 * 2 ^ 16 + 32 * 2 ^ 8 + 223 <> 0 /\
  (2 <= 26 mod 2 ^ 2 \/ 26 / 2 ^ 2 = 0) /\
  loadBitrate [26; 32; 223] = Ok (S754_finite false 8927168 0) /\
  (3 <= s_len (Slice 0 3))%nat /\ (s_off (Slice 0 3) + 3 <= length [9; 9; 9])%nat /\
  putBitrate uint_zero (S754_finite false 8927168 0) (Slice 0 3) [9; 9; 9]
  = (Ok tt, write (s_off (Slice 0 3)) [26; 32; 223] [9; 9; 9]).
Proof.
  assert (H0 : is_byte 26) by (unfold is_byte; lia).
  assert (H1 : is_byte 32) by (unfold is_byte; lia).
  assert (H2 : is_byte 223) by (unfold is_byte; lia).
  assert (Hnz : 26 mod 2 ^ 2 * 2 ^ 16 + 32 * 2 ^ 8 + 223 <> 0) by discriminate.
  assert (Hc : 2 <= 26 mod 2 ^ 2 \/ 26 / 2 ^ 2 = 0) by (left; discriminate).
  split; [exact H0 |]. split; [exact H1 |]. split; [exact H2 |]. split; [exact Hnz |].
  split; [exact Hc |]. split; [reflexivity |]. split; [cbn; lia |]. split; [cbn; lia |].
  apply (putBitrate_loadBitrate uint_zero 26 32 223 [] (S754_finite false 8927168 0)
           (Slice 0 3) [9; 9; 9] H0 H1 H2 Hnz Hc eq_refl); cbn; lia.
Defined.

Lemma example_REMB_bytes_ok : Forall is_byte example_REMB_bytes.
Proof. unfold example_REMB_bytes. bytes_ok. Defined.

Lemma example_TMMBN_bytes_ok : Forall is_byte example_TMMBN_bytes.
Proof. unfold example_TMMBN_bytes. bytes_ok. Defined.

Lemma example_REMB_unmarshal :
  REMB_Unmarshal example_REMB_bytes (REMB 0 f32_0 []) = (Ok tt, example_REMB).
Proof. reflexivity. Defined.

(** X19 at a REMB packet with one SSRC. *)
Lemma REMB_Unmarshal_total_witness :
  Forall is_byte example_REMB_bytes /\
  exists r p',
    REMB_Unmarshal example_REMB_bytes (REMB 0 f32_0 []) = (r, p') /\
    match r with
    | Ok _ => True
    | Err e =>
        remb_Bitrate p' = remb_Bitrate (REMB 0 f32_0 []) /\
        remb_SSRCs p' = remb_SSRCs (REMB 0 f32_0 []) /\
        (p' = REMB 0 f32_0 [] \/ In e REMB_late_errors)
    | Panic | OutOfFuel => False
    end.
Proof.
  split; [exact example_REMB_bytes_ok |].
  exact (REMB_Unmarshal_total example_REMB_bytes (REMB 0 f32_0 []) example_REMB_bytes_ok).
Defined.

(** X20 at a REMB packet with one SSRC. *)
Lemma REMB_Unmarshal_accepts_witness :
  Forall is_byte example_REMB_bytes /\
  REMB_Unmarshal example_REMB_bytes (REMB 0 f32_0 []) = (Ok tt, example_REMB) /\
  REMB_accepted example_REMB_bytes example_REMB.
Proof.
  split; [exact example_REMB_bytes_ok |]. split; [exact example_REMB_unmarshal |].
  exact (REMB_Unmarshal_accepts example_REMB_bytes (REMB 0 f32_0 []) example_REMB
           example_REMB_bytes_ok example_REMB_unmarshal).
Defined.

(** X21 at a REMB packet with one SSRC. *)
Lemma REMB_Unmarshal_then_Marshal_witness :
  Forall is_byte example_REMB_bytes /\
  REMB_Unmarshal example_REMB_bytes (REMB 0 f32_0 []) = (Ok tt, example_REMB) /\
  valid_packet (PacketREMB example_REMB) /\
  exists bytes,
    REMB_Marshal uint_zero example_REMB = Ok bytes /\
    length bytes = REMB_MarshalSize example_REMB /\
    (length bytes <= length example_REMB_bytes)%nat /\
    forall b0 b1 b2,
      sub example_REMB_bytes 17 20 = Ok [b0; b1; b2] ->
      b0 mod 2 ^ 2 * 2 ^ 16 + b1 * 2 ^ 8 + b2 <> 0 \/ b0 / 2 ^ 2 < 58 ->
      forall p1, REMB_Unmarshal bytes p1 = (Ok tt, example_REMB).
Proof.
  split; [exact example_REMB_bytes_ok |]. split; [exact example_REMB_unmarshal |].
  exact (REMB_Unmarshal_then_Marshal uint_zero example_REMB_bytes (REMB 0 f32_0 [])
           example_REMB example_REMB_bytes_ok example_REMB_unmarshal).
Defined.

(** X22 at a REMB packet with one SSRC. *)
Lemma REMB_Marshal_Unmarshal_bytes_witness :
  Forall is_byte example_REMB_bytes /\
  REMB_Unmarshal example_REMB_bytes (REMB 0 f32_0 []) = (Ok tt, example_REMB) /\
  sub example_REMB_bytes 2 4 = Ok [0; 5] /\ 0 < 2 ^ 6 /\
  sub example_REMB_bytes 17 20 = Ok [26; 32; 223] /\
  26 mod 2 ^ 2 * 2 ^ 16 + 32 * 2 ^ 8 + 223 <> 0 /\
  (2 <= 26 mod 2 ^ 2 \/ 26 / 2 ^ 2 = 0) /\
  REMB_Marshal uint_zero example_REMB
  = Ok (take (REMB_MarshalSize example_REMB) example_REMB_bytes).
Proof.
  assert (Hnz : 26 mod 2 ^ 2 * 2 ^ 16 + 32 * 2 ^ 8 + 223 <> 0) by discriminate.
  assert (Hc : 2 <= 26 mod 2 ^ 2 \/ 26 / 2 ^ 2 = 0) by (left; discriminate).
  split; [exact example_REMB_bytes_ok |]. split; [exact example_REMB_unmarshal |].
  split; [reflexivity |]. split; [reflexivity |]. split; [reflexivity |].
  split; [exact Hnz |]. split; [exact Hc |].
  exact (REMB_Marshal_Unmarshal_bytes uint_zero example_REMB_bytes (REMB 0 f32_0 [])
           example_REMB 0 5 26 32 223 example_REMB_bytes_ok example_REMB_unmarshal
           eq_refl eq_refl eq_refl Hnz Hc).
Defined.

(** X23 at a buffer that starts 2 bytes into an array. *)
Lemma REMB_MarshalTo_outcome_witness :
  f32_valid (remb_Bitrate example_REMB) = true /\
  (s_off (Slice 2 24) + s_len (Slice 2 24) <= length (replicate 26 7))%nat /\
  exists bytes,
    REMB_Marshal uint_zero example_REMB = Ok bytes /\
    length bytes = REMB_MarshalSize example_REMB /\
    REMB_MarshalTo uint_zero example_REMB (Slice 2 24) (replicate 26 7)
    = (Ok (REMB_MarshalSize example_REMB),
       write (s_off (Slice 2 24)) bytes (replicate 26 7)).
Proof.
  split; [reflexivity |]. split; [cbn; lia |].
  apply (REMB_MarshalTo_outcome uint_zero example_REMB (Slice 2 24) (replicate 26 7));
    [reflexivity | cbn; lia].
Defined.

(** X24 at the three bytes of [TestTMMBNUnmarshalErrors]. *)
Lemma TMMB_Unmarshal_error_keeps_receiver_witness :
  TMMB_Unmarshal FormatTMMBN [1; 2; 3] (MkTMMB 7 [])
  = (Err errPacketTooShort, MkTMMB 7 []) /\
  MkTMMB 7 [] = MkTMMB 7 [].
Proof.
  split; [reflexivity |].
  exact (TMMB_Unmarshal_error_keeps_receiver FormatTMMBN [1; 2; 3] (MkTMMB 7 [])
           (MkTMMB 7 []) errPacketTooShort eq_refl).
Defined.

(** X25 at the packet of [TestTMMBNUnmarshal]. *)
Lemma TMMB_Unmarshal_outcome_witness :
  Forall is_byte example_TMMBN_bytes /\
  (12 <= length example_TMMBN_bytes)%nat /\
  Header_Unmarshal example_TMMBN_bytes = Ok (MkHeader false 4 205 4) /\
  (Z.to_nat (wrap16 (wrap16 (Length (MkHeader false 4 205 4) + 1) * 4))
   <= length example_TMMBN_bytes)%nat /\
  Type_ (MkHeader false 4 205 4) = TypeTransportSpecificFeedback /\
  Count (MkHeader false 4 205 4) = FormatTMMBN /\
  exists p,
    TMMB_Unmarshal FormatTMMBN example_TMMBN_bytes (MkTMMB 0 []) = (Ok tt, p) /\
    length (Entries p) = Z.to_nat (wrap16 (Length (MkHeader false 4 205 4) - 2) / 2) /\
    is_uint32 (SenderSSRC p) /\
    be32 (SenderSSRC p) = take 4 (drop 4 example_TMMBN_bytes) /\
    forall k entry, Entries p !! k = Some entry ->
                    TMMB_entry_read (drop 4 example_TMMBN_bytes) k entry.
Proof.
  split; [exact example_TMMBN_bytes_ok |]. split; [cbn; lia |].
  split; [reflexivity |]. split; [vm_compute; lia |]. split; [reflexivity |].
  split; [reflexivity |].
  apply (TMMB_Unmarshal_outcome FormatTMMBN example_TMMBN_bytes (MkTMMB 0 [])
           (MkHeader false 4 205 4) example_TMMBN_bytes_ok);
    [cbn; lia | reflexivity | vm_compute; lia | reflexivity | reflexivity].
Defined.

(** X26 at the packet of [TestTMMBNUnmarshal], whose length field is 4. *)
Lemma TMMB_Unmarshal_safe_witness :
  Forall is_byte example_TMMBN_bytes /\
  sub example_TMMBN_bytes 2 4 = Ok [0; 4] /\
  2 <= 0 * 2 ^ 8 + 4 <= 16382 /\
  ((exists e, TMMB_Unmarshal FormatTMMBN example_TMMBN_bytes (MkTMMB 0 [])
              = (Err e, MkTMMB 0 [])) \/
   (exists p, TMMB_Unmarshal FormatTMMBN example_TMMBN_bytes (MkTMMB 0 []) = (Ok tt, p) /\
              Z.of_nat (length (Entries p)) = (0 * 2 ^ 8 + 4 - 2) / 2)).
Proof.
  split; [exact example_TMMBN_bytes_ok |]. split; [reflexivity |].
  split; [lia |].
  apply (TMMB_Unmarshal_safe FormatTMMBN example_TMMBN_bytes (MkTMMB 0 []) 0 4
           example_TMMBN_bytes_ok); [reflexivity | lia].
Defined.

Lemma example_TMMBN_valid : valid_packet example_TMMBN.
Proof.
  split.
  - constructor; [split; reflexivity | constructor].
  - split; [unfold is_uint32; cbn; lia |].
    split; [| cbn; lia].
    constructor; [unfold is_uint32; cbn; lia | constructor].
Defined.

(** X28 at the packet of [TestTMMBNMarshal]. *)
Lemma DestinationSSRC_roundtrip_witness :
  valid_packet example_TMMBN /\
  same_type example_TMMBN (PacketTMMBN (MkTMMB 0 [])) /\
  exists bytes pk' ssrcs,
    Marshal uint_zero example_TMMBN = Ok bytes /\
    Unmarshal bytes (PacketTMMBN (MkTMMB 0 [])) = (Ok tt, pk') /\
    DestinationSSRC example_TMMBN = Ok ssrcs /\
    DestinationSSRC pk' = Ok ssrcs.
Proof.
  split; [exact example_TMMBN_valid |]. split; [exact I |].
  exact (DestinationSSRC_roundtrip uint_zero example_TMMBN (PacketTMMBN (MkTMMB 0 []))
           example_TMMBN_valid I).
Defined.

(** X29 at the packet of [TestTMMBNMarshal]. *)
Lemma TMMB_Marshal_outcome_witness :
  Forall (fun entry => f32_valid (Bitrate entry) = true)
    (Entries (MkTMMB 1 [Entry 1215622422 (S754_finite false 8927168 0)])) /\
  exists tl,
    TMMB_Marshal uint_zero FormatTMMBN
      (MkTMMB 1 [Entry 1215622422 (S754_finite false 8927168 0)])
    = Ok (TMMB_wire_header FormatTMMBN
            (MkTMMB 1 [Entry 1215622422 (S754_finite false 8927168 0)])
          ++ be32 1 ++ [0; 0; 0; 0] ++ tl) /\
    length (TMMB_wire_header FormatTMMBN
              (MkTMMB 1 [Entry 1215622422 (S754_finite false 8927168 0)])
            ++ be32 1 ++ [0; 0; 0; 0] ++ tl)
    = TMMB_MarshalSize (MkTMMB 1 [Entry 1215622422 (S754_finite false 8927168 0)]) /\
    forall k entry,
      [Entry 1215622422 (S754_finite false 8927168 0)] !! k = Some entry ->
      exists bs,
        encode uint_zero (Bitrate entry) = Ok bs /\
        take 8 (drop (8 * k) tl) = be32 (MediaSSRC entry) ++ bs ++ [0].
Proof.
  assert (H : Forall (fun entry => f32_valid (Bitrate entry) = true)
                (Entries (MkTMMB 1 [Entry 1215622422 (S754_finite false 8927168 0)])))
    by (constructor; [reflexivity | constructor]).
  split; [exact H |].
  exact (TMMB_Marshal_outcome uint_zero FormatTMMBN
           (MkTMMB 1 [Entry 1215622422 (S754_finite false 8927168 0)]) H).
Defined.

(** X30 at the packet of [TestTMMBNMarshal] and a REMB receiver. *)
Lemma Unmarshal_rejects_other_types_witness :
  valid_packet example_TMMBN /\
  ~ same_type example_TMMBN (PacketREMB (REMB 0 f32_0 [])) /\
  exists bytes e,
    Marshal uint_zero example_TMMBN = Ok bytes /\
    Unmarshal bytes (PacketREMB (REMB 0 f32_0 [])) = (Err e, PacketREMB (REMB 0 f32_0 [])).
Proof.
  assert (H : ~ same_type example_TMMBN (PacketREMB (REMB 0 f32_0 [])))
    by (intros []).
  split; [exact example_TMMBN_valid |]. split; [exact H |].
  exact (Unmarshal_rejects_other_types uint_zero example_TMMBN
           (PacketREMB (REMB 0 f32_0 [])) example_TMMBN_valid H).
Defined.
